(** * FundBot repository layer (app/repo.py, app/models.py)

    A shallow embedding of the database-access layer of the bot: the three
    ORM entities of [app/models.py] as records, the relational store as a
    record of tables (lists of rows) with the two autoincrement sequences,
    and every coroutine of [app/repo.py] as a computation in a small state
    monad over that store.

    Conventions.
    - Python [int] is unbounded: identifiers and amounts are [Z];
      [a // b] is [Z.div] (both round towards minus infinity, and the
      divisor is positive wherever the code divides).
    - [datetime] values are opaque instants, represented by [Z].  The
      instant a call reads from the clock ([datetime.now(timezone.utc)],
      or the server default [func.now()] of a [created_at] column) is an
      explicit argument [now] of the operation.
    - [db.scalar(stmt)] returns the first row of the result or [None]:
      [head] of the selected rows.
    - Attribute assignments on a loaded ORM object followed by
      [db.commit()] issue an UPDATE keyed by the primary key of the
      object: [update_*] replaces the rows carrying that key.
    - The model covers the executions in which the store accepts the
      statements; storage faults (lost connection, a value outside the
      range of its column, a rejected statement) are raised by the
      driver, not by this layer.  [db_wf] below states the key
      constraints of the schema, and [exec_wf] shows that no request ever
      breaks them. *)

From stdpp Require Import base list sorting gmap strings.
From Stdlib Require Import ZArith Lia Ascii DecimalString DecimalZ.

#[local] Open Scope Z_scope.

(** ** Entities (app/models.py) *)

Definition datetime : Type := Z.

Module User.
Record t : Type := mk {
  id : Z;
  username : option string;
  full_name : option string;
  is_financier : bool;
  created_at : datetime
}.
Definition set_username (v : option string) (u : t) : t :=
  mk (id u) v (full_name u) (is_financier u) (created_at u).
Definition set_full_name (v : option string) (u : t) : t :=
  mk (id u) (username u) v (is_financier u) (created_at u).
Definition set_is_financier (v : bool) (u : t) : t :=
  mk (id u) (username u) (full_name u) v (created_at u).
End User.

Module Campaign.
Record t : Type := mk {
  id : Z;
  title : string;
  total_amount : Z;
  per_user_amount : Z;
  created_by : Z;
  is_active : bool;
  created_at : datetime
}.
Definition set_is_active (v : bool) (c : t) : t :=
  mk (id c) (title c) (total_amount c) (per_user_amount c) (created_by c) v
     (created_at c).
End Campaign.

Module CampaignMember.
Record t : Type := mk {
  id : Z;
  campaign_id : Z;
  user_id : Z;
  has_paid : bool;
  paid_at : option datetime
}.
Definition set_has_paid (v : bool) (m : t) : t :=
  mk (id m) (campaign_id m) (user_id m) v (paid_at m).
Definition set_paid_at (v : option datetime) (m : t) : t :=
  mk (id m) (campaign_id m) (user_id m) (has_paid m) v.
End CampaignMember.

#[global] Instance User_eq_dec : EqDecision User.t.
Proof. solve_decision. Defined.
#[global] Instance Campaign_eq_dec : EqDecision Campaign.t.
Proof. solve_decision. Defined.
#[global] Instance CampaignMember_eq_dec : EqDecision CampaignMember.t.
Proof. solve_decision. Defined.

(** ** The store *)

(** The three tables, and the last value handed out by the sequence behind
    each autoincrement key ([users.id] is the Telegram identifier and is
    supplied by the caller). *)
Record DB : Type := mkDB {
  users : list User.t;
  campaigns : list Campaign.t;
  campaign_members : list CampaignMember.t;
  campaigns_id_seq : Z;
  campaign_members_id_seq : Z
}.

Definition empty_db : DB := mkDB [] [] [] 0 0.

(** ** The session monad *)

Definition Session (A : Type) : Type := DB → A * DB.

#[global] Instance Session_ret : MRet Session := λ A x db, (x, db).
#[global] Instance Session_bind : MBind Session :=
  λ A B f m db, let '(x, db') := m db in f x db'.

Definition query {A : Type} (f : DB → A) : Session A := λ db, (f db, db).

(** [db.scalar]: first row or [None]. *)
Definition scalar {A : Type} (rows : list A) : option A := head rows.

(** [db.commit()]: the writes below are applied to the store as they are
    issued, so committing changes nothing further. *)
Definition commit : Session () := mret ().

(** [db.add(User(...))]. *)
Definition add_user (u : User.t) : Session () := λ db,
  ((), mkDB (users db ++ [u]) (campaigns db) (campaign_members db)
            (campaigns_id_seq db) (campaign_members_id_seq db)).

(** UPDATE users SET ... WHERE id = u.id. *)
Definition update_user (u : User.t) : Session () := λ db,
  ((), mkDB ((λ r, if decide (User.id r = User.id u) then u else r) <$> users db)
            (campaigns db) (campaign_members db)
            (campaigns_id_seq db) (campaign_members_id_seq db)).

(** [db.add(Campaign(...))] and [db.flush()]: the row is inserted with the
    next value of the sequence as its key and with the column defaults
    ([is_active] true, [created_at] the server's clock). *)
Definition add_campaign (title : string) (total_amount per_user_amount created_by : Z)
    (now : datetime) : Session Campaign.t := λ db,
  let camp := Campaign.mk (campaigns_id_seq db + 1) title total_amount
                per_user_amount created_by true now in
  (camp, mkDB (users db) (campaigns db ++ [camp]) (campaign_members db)
              (campaigns_id_seq db + 1) (campaign_members_id_seq db)).

(** UPDATE campaigns SET ... WHERE id = c.id. *)
Definition update_campaign (c : Campaign.t) : Session () := λ db,
  ((), mkDB (users db)
            ((λ r, if decide (Campaign.id r = Campaign.id c) then c else r)
               <$> campaigns db)
            (campaign_members db)
            (campaigns_id_seq db) (campaign_members_id_seq db)).

(** [db.add(CampaignMember(campaign_id=..., user_id=...))]: defaults
    [has_paid] false and [paid_at] NULL. *)
Definition add_campaign_member (campaign_id user_id : Z) : Session () := λ db,
  let cm := CampaignMember.mk (campaign_members_id_seq db + 1) campaign_id
              user_id false None in
  ((), mkDB (users db) (campaigns db) (campaign_members db ++ [cm])
            (campaigns_id_seq db) (campaign_members_id_seq db + 1)).

(** UPDATE campaign_members SET ... WHERE id = cm.id. *)
Definition update_campaign_member (cm : CampaignMember.t) : Session () := λ db,
  ((), mkDB (users db) (campaigns db)
            ((λ r, if decide (CampaignMember.id r = CampaignMember.id cm)
                   then cm else r) <$> campaign_members db)
            (campaigns_id_seq db) (campaign_members_id_seq db)).

(** [for x in xs: body(x)]. *)
Fixpoint for_each {A : Type} (xs : list A) (body : A → Session ()) : Session () :=
  match xs with
  | [] => mret ()
  | x :: xs' => body x ;; for_each xs' body
  end.

(** Truth value of an [Optional[str]]: [None] and the empty string are
    false. *)
Definition truthy (s : option string) : bool :=
  match s with
  | None => false
  | Some s => negb (String.eqb s "")
  end.

(** ** SELECT statements *)

Definition select_user (user_id : Z) (db : DB) : list User.t :=
  filter (λ u, User.id u = user_id) (users db).

Definition select_campaign_member (campaign_id user_id : Z) (db : DB)
    : list CampaignMember.t :=
  filter (λ m, CampaignMember.campaign_id m = campaign_id
               ∧ CampaignMember.user_id m = user_id) (campaign_members db).

Definition id_desc (a b : Campaign.t) : Prop := Campaign.id b ≤ Campaign.id a.

#[global] Instance id_desc_dec : RelDecision id_desc.
Proof. intros a b. unfold id_desc. apply _. Defined.

Definition select_active_campaigns (db : DB) : list Campaign.t :=
  merge_sort id_desc (filter (λ c, Campaign.is_active c = true) (campaigns db)).

Definition created_at_asc (a b : User.t) : Prop :=
  User.created_at a ≤ User.created_at b.

#[global] Instance created_at_asc_dec : RelDecision created_at_asc.
Proof. intros a b. unfold created_at_asc. apply _. Defined.

(** ** Operations (app/repo.py) *)

Definition upsert_user (tg_id : Z) (username full_name : option string)
    (financiers : gset Z) (now : datetime) : Session User.t :=
  u ← query (λ db, scalar (select_user tg_id db));
  match u with
  | None =>
      let u := User.mk tg_id username full_name
                 (bool_decide (tg_id ∈ financiers)) now in
      add_user u ;; commit ;; mret u
  | Some u =>
      let u := User.set_username username u in
      let u := if truthy full_name && negb (truthy (User.full_name u))
               then User.set_full_name full_name u else u in
      let u := if bool_decide (tg_id ∈ financiers)
               then User.set_is_financier true u else u in
      update_user u ;; commit ;; mret u
  end.

Definition get_all_users : Session (list User.t) :=
  query (λ db, merge_sort created_at_asc (users db)).

Definition list_user_ids : Session (list Z) :=
  query (λ db, merge_sort Z.le (User.id <$> users db)).

(** The statements of a call that the store accepts; the checks the store
    makes on the INSERT into campaigns are in [create_campaign_checked]
    below. *)
Definition create_campaign (title : string) (total_amount creator_id : Z)
    (now : datetime) : Session (Campaign.t * list Z * Z) :=
  user_ids ← list_user_ids;
  let user_ids := filter (λ uid, uid ≠ creator_id) user_ids in
  let n := Z.max (Z.of_nat (length user_ids)) 1 in
  let per_user := (total_amount + n - 1) `div` n in
  camp ← add_campaign title total_amount per_user creator_id now;
  for_each user_ids (λ uid, add_campaign_member (Campaign.id camp) uid) ;;
  commit ;;
  mret (camp, user_ids, per_user).

Definition toggle_payment (campaign_id user_id : Z) (mark : bool)
    (now : datetime) : Session bool :=
  cm ← query (λ db, scalar (select_campaign_member campaign_id user_id db));
  match cm with
  | None => mret false
  | Some cm =>
      let cm := CampaignMember.set_has_paid mark cm in
      let cm := CampaignMember.set_paid_at (if mark then Some now else None) cm in
      update_campaign_member cm ;; commit ;; mret true
  end.

Definition campaign_stats (campaign_id : Z) : Session (Z * Z * Z) :=
  total ← query (λ db, Z.of_nat (length
             (filter (λ m, CampaignMember.campaign_id m = campaign_id)
                     (campaign_members db))));
  paid ← query (λ db, Z.of_nat (length
             (filter (λ m, CampaignMember.campaign_id m = campaign_id
                           ∧ CampaignMember.has_paid m = true)
                     (campaign_members db))));
  let unpaid := total - paid in
  mret (total, paid, unpaid).

(** The SELECT has no ORDER BY: the order of the rows it returns is the
    store's choice.  The model returns them in the order of the table. *)
Definition list_paid_unpaid (campaign_id : Z) : Session (list Z * list Z) :=
  res ← query (λ db, (λ m, (CampaignMember.user_id m, CampaignMember.has_paid m))
             <$> filter (λ m, CampaignMember.campaign_id m = campaign_id)
                        (campaign_members db));
  mret (foldl (λ '(paid, unpaid) '(uid, ok),
                 if ok : bool then (paid ++ [uid], unpaid)
                 else (paid, unpaid ++ [uid]))
              ([], []) res).

Definition get_active_campaign : Session (option Campaign.t) :=
  query (λ db, scalar (select_active_campaigns db)).

Definition close_active_campaign : Session bool :=
  camp ← get_active_campaign;
  match camp with
  | None => mret false
  | Some camp =>
      let camp := Campaign.set_is_active false camp in
      update_campaign camp ;; commit ;; mret true
  end.

Definition user_status (user_id : Z)
    : Session (option Campaign.t * option CampaignMember.t
               * option User.t * option Z) :=
  camp ← get_active_campaign;
  match camp with
  | None => mret (None, None, None, None)
  | Some camp =>
      cm ← query (λ db, scalar (select_campaign_member (Campaign.id camp) user_id db));
      user ← query (λ db, scalar (select_user user_id db));
      mret (Some camp, cm, user,
            match cm with
            | Some _ => Some (Campaign.per_user_amount camp)
            | None => None
            end)
  end.

Definition get_user (user_id : Z) : Session (option User.t) :=
  query (λ db, scalar (select_user user_id db)).

(** ** Requests and runs *)

(** One call into the layer, with the instant it reads from the clock. *)
Inductive request : Type :=
  | UpsertUser (tg_id : Z) (username full_name : option string)
      (financiers : gset Z) (now : datetime)
  | CreateCampaign (title : string) (total_amount creator_id : Z) (now : datetime)
  | TogglePayment (campaign_id user_id : Z) (mark : bool) (now : datetime)
  | CloseActiveCampaign
  | GetAllUsers
  | ListUserIds
  | CampaignStats (campaign_id : Z)
  | ListPaidUnpaid (campaign_id : Z)
  | GetActiveCampaign
  | UserStatus (user_id : Z)
  | GetUser (user_id : Z).

(** The store after serving a request. *)
Definition exec (r : request) (db : DB) : DB :=
  match r with
  | UpsertUser tg_id username full_name financiers now =>
      (upsert_user tg_id username full_name financiers now db).2
  | CreateCampaign title total_amount creator_id now =>
      (create_campaign title total_amount creator_id now db).2
  | TogglePayment campaign_id user_id mark now =>
      (toggle_payment campaign_id user_id mark now db).2
  | CloseActiveCampaign => (close_active_campaign db).2
  | GetAllUsers => (get_all_users db).2
  | ListUserIds => (list_user_ids db).2
  | CampaignStats campaign_id => (campaign_stats campaign_id db).2
  | ListPaidUnpaid campaign_id => (list_paid_unpaid campaign_id db).2
  | GetActiveCampaign => (get_active_campaign db).2
  | UserStatus user_id => (user_status user_id db).2
  | GetUser user_id => (get_user user_id db).2
  end.

Definition run (rs : list request) (db : DB) : DB :=
  foldl (λ db r, exec r db) db rs.

(** Stores that arise from the empty one by serving requests. *)
Inductive reachable : DB → Prop :=
  | reachable_empty : reachable empty_db
  | reachable_exec r db : reachable db → reachable (exec r db).

(** ** Integrity of the store *)

(** Primary keys are unique, and no autoincrement key exceeds the last
    value its sequence handed out. *)
Definition db_wf (db : DB) : Prop :=
  NoDup (User.id <$> users db)
  ∧ NoDup (Campaign.id <$> campaigns db)
  ∧ Forall (λ c, Campaign.id c ≤ campaigns_id_seq db) (campaigns db)
  ∧ NoDup (CampaignMember.id <$> campaign_members db)
  ∧ Forall (λ m, CampaignMember.id m ≤ campaign_members_id_seq db)
           (campaign_members db).

#[global] Instance db_wf_dec db : Decision (db_wf db).
Proof. unfold db_wf. apply _. Defined.

(** The rows [create_campaign] inserts for the participants [uids], the
    sequence standing at [seq]. *)
Fixpoint member_rows (campaign_id seq : Z) (uids : list Z) : list CampaignMember.t :=
  match uids with
  | [] => []
  | uid :: uids' =>
      CampaignMember.mk (seq + 1) campaign_id uid false None
        :: member_rows campaign_id (seq + 1) uids'
  end.

Definition active_campaigns (db : DB) : list Campaign.t :=
  filter (λ c, Campaign.is_active c = true) (campaigns db).

(** Every row of [campaigns] keyed [k] is closed, and [k] is a key the
    sequence has already handed out. *)
Definition closed_for_good (k : Z) (db : DB) : Prop :=
  k ≤ campaigns_id_seq db
  ∧ ∀ r, r ∈ campaigns db → Campaign.id r = k → Campaign.is_active r = false.

(** The roster of the end-to-end scenario: A = 1 (coordinator), B = 2,
    C = 3. *)
Definition roster_abc : DB :=
  run [UpsertUser 1 (Some "a"%string) None {[1]} 1;
       UpsertUser 2 (Some "b"%string) None {[1]} 2;
       UpsertUser 3 (Some "c"%string) None {[1]} 3] empty_db.

(** A roster of four registered users, identifier 1 a financier. *)
Definition roster4 : DB :=
  run [UpsertUser 3 None None {[1]} 10;
       UpsertUser 1 (Some "fin"%string) None {[1]} 11;
       UpsertUser 2 (Some "bob"%string) (Some "Bob"%string) {[1]} 12;
       UpsertUser 4 None None {[1]} 13] empty_db.

(** One campaign created over [roster4]. *)
Definition one_active : DB := run [CreateCampaign "Trip" 300 1 20] roster4.

(** Two campaigns created in a row over [roster4]: both are active. *)
Definition two_active : DB :=
  run [CreateCampaign "Trip" 300 1 20; CreateCampaign "Gift" 100 1 21] roster4.

(** ** Constraints between the tables *)

(** The membership rows of one campaign, as [campaign_stats] and
    [list_paid_unpaid] select them. *)
Definition members_of (campaign_id : Z) (db : DB) : list CampaignMember.t :=
  filter (λ m, CampaignMember.campaign_id m = campaign_id) (campaign_members db).

Definition member_key (m : CampaignMember.t) : Z * Z :=
  (CampaignMember.campaign_id m, CampaignMember.user_id m).

(** The unique constraint on (campaign_id, user_id) and the two foreign
    keys of [campaign_members]. *)
Definition db_refs (db : DB) : Prop :=
  NoDup (member_key <$> campaign_members db)
  ∧ Forall (λ m, CampaignMember.campaign_id m ∈ (Campaign.id <$> campaigns db)
                 ∧ CampaignMember.user_id m ∈ (User.id <$> users db))
           (campaign_members db).

#[global] Instance db_refs_dec db : Decision (db_refs db).
Proof. unfold db_refs. apply _. Defined.

(** Every stored share is the one [create_campaign] computes from the
    stored total and the number of membership rows of the campaign. *)
Definition db_shares (db : DB) : Prop :=
  Forall (λ c,
            let n := Z.max (Z.of_nat (length (members_of (Campaign.id c) db))) 1 in
            Campaign.per_user_amount c = (Campaign.total_amount c + n - 1) `div` n)
         (campaigns db).

#[global] Instance db_shares_dec db : Decision (db_shares db).
Proof. unfold db_shares. apply _. Defined.

Definition store_ok (db : DB) : Prop := db_wf db ∧ db_refs db ∧ db_shares db.

#[global] Instance store_ok_dec db : Decision (store_ok db).
Proof. unfold store_ok. apply _. Defined.

(** [one_active] after participant 2 has marked the payment. *)
Definition one_paid : DB := run [TogglePayment 1 2 true 30] one_active.

(** ** What the store accepts (column types and keys of app/models.py)

    The operations above follow the statements the code issues.  The
    store checks each INSERT and UPDATE against the schema and the driver
    raises when a value does not fit its column or a key is missing;
    these checks are stated here, for the values a caller supplies. *)

(** Whether the byte continues a UTF-8 character. *)
Definition is_continuation_byte (c : ascii) : bool :=
  (128 <=? nat_of_ascii c)%nat && (nat_of_ascii c <? 192)%nat.

(** [len(s)]: the number of characters of the text whose UTF-8 bytes are
    [s]. *)
Fixpoint utf8_chars (s : string) : nat :=
  match s with
  | EmptyString => 0%nat
  | String c s' => ((if is_continuation_byte c then 0 else 1) + utf8_chars s')%nat
  end.

(** The first [n] characters of [s], and the rest. *)
Fixpoint utf8_split (n : nat) (s : string) : string * string :=
  match s with
  | EmptyString => (EmptyString, EmptyString)
  | String c s' =>
      if is_continuation_byte c
      then let '(kept, rest) := utf8_split n s' in (String c kept, rest)
      else match n with
           | O => (EmptyString, s)
           | S n' => let '(kept, rest) := utf8_split n' s' in (String c kept, rest)
           end
  end.

Fixpoint all_spaces (s : string) : bool :=
  match s with
  | EmptyString => true
  | String c s' => Ascii.eqb c " "%char && all_spaces s'
  end.

(** A text value may not hold the character of code 0. *)
Fixpoint nul_free (s : string) : bool :=
  match s with
  | EmptyString => true
  | String c s' => negb (Ascii.eqb c "000"%char) && nul_free s'
  end.

(** A [String(n)] column: a text of at most [n] characters is stored as it
    is; a longer one is refused, unless all the characters in excess are
    spaces, and then its first [n] characters are stored. *)
Definition varchar (n : nat) (s : string) : option string :=
  if nul_free s
  then let '(kept, excess) := utf8_split n s in
       if all_spaces excess then Some kept else None
  else None.

(** An [Integer] column. *)
Definition int4 (z : Z) : bool := (- 2 ^ 31 <=? z) && (z <? 2 ^ 31).

(** [create_campaign] with the checks of the INSERT into campaigns on the
    values of the caller: [created_by] is a foreign key to users.id,
    [total_amount] an Integer (so is the share, which is no larger in
    absolute value), [title] a String(120).  [None]: [db.flush()] raises,
    the session is rolled back when the caller leaves it, and no row of
    the call is stored.  The object returned keeps the title it was built
    with; the row holds what the column stored. *)
Definition create_campaign_checked (title : string) (total_amount creator_id : Z)
    (now : datetime) (db : DB) : option (Campaign.t * list Z * Z * DB) :=
  if bool_decide (creator_id ∈ User.id <$> users db) && int4 total_amount
  then
    match varchar 120 title with
    | None => None
    | Some stored =>
        let '(camp, user_ids, per_user, db') :=
          create_campaign stored total_amount creator_id now db in
        Some (Campaign.mk (Campaign.id camp) title (Campaign.total_amount camp)
                (Campaign.per_user_amount camp) (Campaign.created_by camp)
                (Campaign.is_active camp) (Campaign.created_at camp),
              user_ids, per_user, db')
    end
  else None.

(** * Handlers (app/keyboards.py, app/handlers)

    The handlers are embedded up to the transport: what a handler sends
    (the text of an answer, an inline keyboard, an alert flag) is the
    value its computation returns, and the FSM state of the sender is an
    argument and a result.  The builtins whose behaviour depends on
    Unicode tables or on the interpreter ([int] on a string, [str.strip],
    [str.capitalize]) are arguments of the handlers that call them. *)

Definition nl : string := String "010"%char EmptyString.

(** [str(n)], also the [{n}] of an f-string: the decimal numeral, with a
    minus sign in front of a negative number.  (CPython refuses to print
    integers beyond its digit limit, some thousands of digits; the keys,
    counts and amounts formatted here are far below it.) *)
Definition py_str (z : Z) : string := NilZero.string_of_int (Z.to_int z).

(** [s.split(sep)] for a separator of one character. *)
Fixpoint split_on (sep : ascii) (s : string) : list string :=
  match s with
  | EmptyString => [EmptyString]
  | String c s' =>
      if Ascii.eqb c sep then EmptyString :: split_on sep s'
      else match split_on sep s' with
           | h :: t => String c h :: t
           | [] => [String c EmptyString]
           end
  end.

(** Whether the character [c] occurs in [s]. *)
Fixpoint occurs (c : ascii) (s : string) : bool :=
  match s with
  | EmptyString => false
  | String c' s' => Ascii.eqb c' c || occurs c s'
  end.

(** A reader of plain decimal numerals, to instantiate the [py_int]
    argument of the handlers in examples: on the numerals [py_str] writes
    it agrees with [int]. *)
Definition decimal_int (s : string) : option Z := Z.of_int <$> NilZero.int_of_string s.

(** ** app/keyboards.py *)

Module InlineKeyboardButton.
Record t : Type := mk { text : string; callback_data : string }.
End InlineKeyboardButton.

(** The rows of buttons of an inline keyboard. *)
Definition InlineKeyboardMarkup : Type := list (list InlineKeyboardButton.t).

Definition payment_kb (campaign_id : Z) (has_paid : bool) : InlineKeyboardMarkup :=
  if negb has_paid
  then [[InlineKeyboardButton.mk "✅ Я перевёл"
           ("pay:" +:+ py_str campaign_id +:+ ":mark")]]
  else [[InlineKeyboardButton.mk "↩️ Отменить"
           ("pay:" +:+ py_str campaign_id +:+ ":unmark")]].

(** ** app/handlers/payments.py *)

(** What the handler does with a callback query: the text it answers,
    whether as an alert, and the keyboard it puts on the message, if any. *)
Module CallbackReply.
Record t : Type := mk {
  answer : string;
  show_alert : bool;
  edit_reply_markup : option InlineKeyboardMarkup
}.
End CallbackReply.

Definition handle_payment_callback (py_int : string → option Z) (data : string)
    (from_user_id : Z) (now : datetime) : Session CallbackReply.t :=
  let bad_format := CallbackReply.mk "Неверный формат callback data." true None in
  match split_on ":"%char data with
  | [_; camp_id_str; action] =>
      match py_int camp_id_str with
      | None => mret bad_format
      | Some camp_id =>
          let mark := String.eqb action "mark" in
          ok ← toggle_payment camp_id from_user_id mark now;
          if ok : bool
          then mret (CallbackReply.mk "Статус обновлён." false
                       (Some (payment_kb camp_id mark)))
          else mret (CallbackReply.mk "Не удалось обновить статус." true None)
      end
  | _ => mret bad_format
  end.

(** ** app/handlers/admin.py *)

(** [FINANCIERS] is [settings.FINANCIERS]. *)
Definition is_financier (FINANCIERS : list Z) (user_id : Z) : bool :=
  bool_decide (user_id ∈ (list_to_set FINANCIERS : gset Z)).

Definition close_handler (FINANCIERS : list Z) (from_user_id : Z) : Session string :=
  if negb (is_financier FINANCIERS from_user_id) then mret "Недоступно."%string
  else
    ok ← close_active_campaign;
    mret (if ok : bool then "Текущий сбор закрыт." else "Активного сбора нет.")%string.

(** ** app/handlers/common.py *)

(** The registration conversation of one user: no state, or waiting for
    the name. *)
Inductive RegistrationState : Type := no_state | awaiting_name.

Definition start_handler (FINANCIERS : list Z) (from_user_id : Z)
    (username : option string) (full_name : string) (now : datetime)
    (state : RegistrationState) : Session (string * RegistrationState) :=
  user ← upsert_user from_user_id username (Some full_name)
           (list_to_set FINANCIERS) now;
  if negb (User.is_financier user) && negb (truthy (User.full_name user))
  then mret ("Пожалуйста, введите ваше имя, чтобы завершить регистрацию." +:+ nl
             +:+ "Это имя будет видно финансисту.", awaiting_name)
  else mret ("Привет!" +:+ nl
             +:+ "Используйте команду /status, чтобы узнать свой статус в активном сборе."
             +:+ nl +:+ "Список команд: /help", state).

(** [None]: [db.commit()] raises because the name does not fit
    users.full_name, a String(128); the handler is left before it answers
    or clears the state, and the store is as it was. *)
Definition process_name (strip : string → string) (from_user_id : Z) (text : string)
    : Session (option (string * RegistrationState)) :=
  let full_name := strip text in
  let done :=
    Some ("Спасибо! Ваше имя сохранено. Теперь вы можете пользоваться ботом."%string,
          no_state) in
  u ← query (λ db, scalar (select_user from_user_id db));
  match u with
  | Some u =>
      match varchar 128 full_name with
      | Some stored =>
          update_user (User.set_full_name (Some stored) u) ;; commit ;; mret done
      | None => mret None
      end
  | None => mret done
  end.

Definition status_handler (capitalize : string → string) (from_user_id : Z)
    : Session string :=
  '(camp, member, user, per_user) ← user_status from_user_id;
  let role := (λ u : User.t, if User.is_financier u then "финансист" else "участник")%string
                <$> user in
  let role_line := match role with
                   | Some role => "Ваш статус: " +:+ capitalize role
                   | None => ""
                   end%string in
  match camp with
  | None => mret ("Активного сбора нет." +:+ nl +:+ role_line)
  | Some camp =>
      match member with
      | None =>
          mret ("Текущий сбор: " +:+ Campaign.title camp +:+ nl
                +:+ "Вы не входите в список участников текущего сбора." +:+ nl
                +:+ role_line)
      | Some member =>
          let status_text := (if CampaignMember.has_paid member
                              then "оплачено" else "ещё не оплачено")%string in
          mret ("Текущий сбор: " +:+ Campaign.title camp +:+ nl
                +:+ "Ваша доля: "
                +:+ match per_user with Some p => py_str p | None => "None" end
                +:+ "₽" +:+ nl
                +:+ "Статус оплаты: " +:+ status_text +:+ nl
                +:+ role_line)
      end
  end.

Definition help_lines : list string :=
  ["<b>Доступные команды:</b>";
   "/start – начать или перезапустить диалог";
   "/status – узнать ваш статус в текущем сборе";
   "/help – вывести этот список команд"]%string.

Definition help_lines_financier : list string :=
  [nl +:+ "<b>Команды финансиста:</b>";
   "/new &lt;сумма&gt; &lt;название&gt; – создать новый сбор";
   "/dash – посмотреть сводку по текущему сбору";
   "/close – закрыть текущий сбор";
   "/csv – экспортировать CSV участников текущего сбора";
   "/users – список всех зарегистрированных пользователей";
   "/unpaid – экспортировать CSV тех, кто не оплатил";
   "/remind – отправить напоминание тем, кто не оплатил";
   "/message &lt;текст&gt; – отправить рассылку всем пользователям"]%string.

Definition help_handler (from_user_id : Z) : Session string :=
  '(_, _, user, _) ← user_status from_user_id;
  let is_financier := match user with
                      | Some user => User.is_financier user
                      | None => false
                      end in
  let lines := help_lines in
  let lines := if is_financier then lines ++ help_lines_financier else lines in
  mret (String.concat nl lines).

(** ** app/handlers/admin.py, continued *)

Definition dq : string := String "034"%char EmptyString.

(** [s.split(sep, 1)]: at most one split, at the first separator. *)
Fixpoint split_first (sep : ascii) (s : string) : list string :=
  match s with
  | EmptyString => [EmptyString]
  | String c s' =>
      if Ascii.eqb c sep then [EmptyString; s']
      else match split_first sep s' with
           | h :: t => String c h :: t
           | [] => [String c EmptyString]
           end
  end.

(** [s.strip(c)] for one character [c]: without the leading and the
    trailing run of [c]. *)
Fixpoint lstrip_char (c : ascii) (s : string) : string :=
  match s with
  | EmptyString => EmptyString
  | String c' s' => if Ascii.eqb c' c then lstrip_char c s' else s
  end.

Fixpoint rstrip_char (c : ascii) (s : string) : string :=
  match s with
  | EmptyString => EmptyString
  | String c' s' =>
      match rstrip_char c s' with
      | EmptyString => if Ascii.eqb c' c then EmptyString else String c' EmptyString
      | r => String c' r
      end
  end.

Definition strip_char (c : ascii) (s : string) : string :=
  rstrip_char c (lstrip_char c s).

(** What /new sends: the answers to the sender and the notifications
    attempted, each with its recipient, text and keyboard. *)
Module NewCampaignResult.
Record t : Type := mk {
  answers : list string;
  notifications : list (Z * string * InlineKeyboardMarkup)
}.
End NewCampaignResult.

(** [args] is [command.args]; [today] is
    [datetime.now().strftime('%Y-%m-%d')]; [delivered i uid] tells whether
    the [i]-th [send_message], to [uid], returned without raising. *)
Definition new_campaign_handler (FINANCIERS : list Z) (py_int : string → option Z)
    (strip : string → string) (today : string) (delivered : nat → Z → bool)
    (from_user_id : Z) (args : option string) (now : datetime)
    : Session NewCampaignResult.t :=
  if negb (is_financier FINANCIERS from_user_id)
  then mret (NewCampaignResult.mk ["Только финансист может создавать сбор."%string] [])
  else
    let args := strip (default EmptyString args) in
    if negb (truthy (Some args))
    then mret (NewCampaignResult.mk
                 ["Использование: /new <сумма_в_руб> <название>"%string] [])
    else
      let parts := split_first " "%char args in
      match py_int (default EmptyString (parts !! 0%nat)) with
      | None =>
          mret (NewCampaignResult.mk
                  ["Сумма должна быть числом. Пример: /new 50000 Сбор на октябрь"%string]
                  [])
      | Some total =>
          let title := match parts !! 1%nat with
                       | Some rest => strip_char "034"%char (strip rest)
                       | None => "Сбор #" +:+ today
                       end in
          '(camp, users_ids, per_user) ← create_campaign title total from_user_id now;
          let created :=
            "Создан сбор <b>" +:+ Campaign.title camp +:+ "</b> на сумму "
            +:+ py_str (Campaign.total_amount camp) +:+ "₽." +:+ nl
            +:+ "Участников: " +:+ py_str (Z.of_nat (length users_ids))
            +:+ ". На каждого: " +:+ py_str per_user +:+ "₽." +:+ nl
            +:+ "Рассылаю уведомления..." in
          let note :=
            "📢 Новый сбор: <b>" +:+ Campaign.title camp +:+ "</b>." +:+ nl
            +:+ "Ваша доля: " +:+ py_str per_user +:+ "₽." +:+ nl
            +:+ "Пожалуйста, нажмите кнопку, когда переведёте сумму." in
          let notes := (λ uid, (uid, note, payment_kb (Campaign.id camp) false))
                         <$> users_ids in
          let sent := length (filter (λ ok, ok = true)
                                (imap (λ i uid, delivered (S i) uid) users_ids)) in
          mret (NewCampaignResult.mk
                  [created;
                   "Уведомления отправлены: " +:+ py_str (Z.of_nat sent) +:+ "/"
                   +:+ py_str (Z.of_nat (length users_ids))]
                  notes)
      end.

(** [range(0, stop, step)]. *)
Definition range_step (stop step : nat) : list nat :=
  (λ k, k * step)%nat <$> seq 0 ((stop + step - 1) / step)%nat.

(** [[lines[i : i + size] for i in range(0, len(lines), size)]]. *)
Definition chunks {A : Type} (size : nat) (lines : list A) : list (list A) :=
  (λ i, take size (drop i lines)) <$> range_step (length lines) size.

(** The amount the dashboard reports as still to be collected. *)
Definition dashboard_remain (camp : Campaign.t) (paid_count : Z) : Z :=
  Z.max 0 (Campaign.total_amount camp - paid_count * Campaign.per_user_amount camp).

Definition dashboard_handler (FINANCIERS : list Z) (from_user_id : Z)
    : Session (list string) :=
  if negb (is_financier FINANCIERS from_user_id) then mret ["Недоступно."%string]
  else
    camp ← get_active_campaign;
    match camp with
    | None => mret ["Активного сбора нет."%string]
    | Some camp =>
        '(total, paid_count, unpaid_count) ← campaign_stats (Campaign.id camp);
        '(paid_ids, unpaid_ids) ← list_paid_unpaid (Campaign.id camp);
        all_users ← get_all_users;
        let user_map : gmap Z User.t :=
          foldl (λ m u, <[User.id u := u]> m) ∅ all_users in
        let remain := dashboard_remain camp paid_count in
        let summary :=
          "📊 Сбор: <b>" +:+ Campaign.title camp +:+ "</b> ("
          +:+ py_str (Campaign.total_amount camp) +:+ "₽)" +:+ nl
          +:+ "Участников: " +:+ py_str total +:+ nl
          +:+ "Оплатили: " +:+ py_str paid_count +:+ nl
          +:+ "Не оплатили: " +:+ py_str unpaid_count +:+ nl
          +:+ "Осталось собрать ≈ " +:+ py_str remain +:+ "₽" in
        let fmt (uid : Z) : string :=
          let name :=
            match user_map !! uid with
            | Some u =>
                if truthy (User.full_name u) then default EmptyString (User.full_name u)
                else if truthy (User.username u)
                     then default EmptyString (User.username u)
                     else py_str uid
            | None => py_str uid
            end in
          "<a href=" +:+ dq +:+ "tg://user?id=" +:+ py_str uid +:+ dq +:+ ">"
          +:+ name +:+ "</a>" in
        let send_list (title : string) (ids : list Z) : list string :=
          match ids with
          | [] => [title +:+ ": нет пользователей."]
          | _ =>
              (λ chunk, title +:+ ":" +:+ nl +:+ String.concat nl chunk)
                <$> chunks 50 (fmt <$> ids)
          end in
        mret ([summary] ++ send_list "Оплатили" paid_ids
                ++ send_list "Не оплатили" unpaid_ids)
    end.

(** ** app/config.py *)

(** [env] is the value of FINANCIER_TG_IDS, if set. *)
Definition _parse_financiers (py_int : string → option Z) (strip : string → string)
    (env : option string) : list Z :=
  let raw := strip (default EmptyString env) in
  if negb (truthy (Some raw)) then []
  else
    foldl (λ out part,
             let part := strip part in
             if negb (truthy (Some part)) then out
             else match py_int part with
                  | Some n => out ++ [n]
                  | None => out
                  end)
          [] (split_on ","%char raw).

(** * Properties *)

Ltac session := unfold mbind, mret, Session_bind, Session_ret, query, commit in *.

(** ** Sorting facts *)

#[global] Instance id_desc_total : Total id_desc.
Proof. intros a b. unfold id_desc. lia. Qed.

#[global] Instance id_desc_trans : Transitive id_desc.
Proof. intros a b c. unfold id_desc. lia. Qed.

Lemma merge_sort_nil_iff {A} (R : relation A) `{!RelDecision R} (l : list A) :
  merge_sort R l = [] ↔ l = [].
Proof.
  split; intros H.
  - apply Permutation_nil_r. rewrite <- H. symmetry. apply merge_sort_Permutation.
  - subst l. reflexivity.
Qed.

Lemma head_merge_sort_id_desc (l : list Campaign.t) (c : Campaign.t) :
  head (merge_sort id_desc l) = Some c →
  c ∈ l ∧ ∀ r, r ∈ l → Campaign.id r ≤ Campaign.id c.
Proof.
  intros H.
  pose proof (merge_sort_Permutation id_desc l) as HP.
  pose proof (StronglySorted_merge_sort id_desc l) as HS.
  destruct (merge_sort id_desc l) as [|x s]; simplify_eq/=.
  split.
  - rewrite <- HP. left.
  - intros r Hr. rewrite <- HP in Hr.
    apply StronglySorted_inv in HS as [_ HS].
    apply elem_of_cons in Hr as [->|Hr]; [lia|].
    rewrite Forall_forall in HS. apply HS, Hr.
Qed.

Lemma head_merge_sort_newest (l : list Campaign.t) (c : Campaign.t) :
  c ∈ l →
  (∀ r, r ∈ l → r ≠ c → Campaign.id r < Campaign.id c) →
  head (merge_sort id_desc l) = Some c.
Proof.
  intros Hc Hmax.
  destruct (head (merge_sort id_desc l)) as [x|] eqn:E.
  - apply head_merge_sort_id_desc in E as [Hx Hle].
    destruct (decide (x = c)) as [->|Hne]; [done|].
    specialize (Hmax x Hx Hne). specialize (Hle c Hc). lia.
  - apply head_None, merge_sort_nil_iff in E. subst l. inversion Hc.
Qed.

Lemma NoDup_fmap_eq {A B} (f : A → B) (l : list A) (x y : A) :
  NoDup (f <$> l) → x ∈ l → y ∈ l → f x = f y → x = y.
Proof.
  induction l as [|a l IH]; intros Hnd Hx Hy Hf; [inversion Hx|].
  rewrite fmap_cons in Hnd. apply NoDup_cons in Hnd as [Hna Hnd].
  apply elem_of_cons in Hx as [->|Hx]; apply elem_of_cons in Hy as [->|Hy].
  - done.
  - exfalso. apply Hna. rewrite Hf. apply list_elem_of_fmap_2, Hy.
  - exfalso. apply Hna. rewrite <- Hf. apply list_elem_of_fmap_2, Hx.
  - by apply IH.
Qed.

(** ** Equations of the operations *)

Lemma scalar_None_nil {A} (rows : list A) : scalar rows = None ↔ rows = [].
Proof. unfold scalar. apply head_None. Qed.

Lemma scalar_Some_elem {A} (rows : list A) (x : A) : scalar rows = Some x → x ∈ rows.
Proof. destruct rows; intros; simplify_eq/=. left. Qed.

Lemma select_user_id tg_id db u : scalar (select_user tg_id db) = Some u → User.id u = tg_id.
Proof.
  intros H%scalar_Some_elem. unfold select_user in H.
  by apply list_elem_of_filter in H as [? _].
Qed.

Lemma select_campaign_member_key cid uid db cm :
  scalar (select_campaign_member cid uid db) = Some cm →
  CampaignMember.campaign_id cm = cid ∧ CampaignMember.user_id cm = uid.
Proof.
  intros H%scalar_Some_elem. unfold select_campaign_member in H.
  by apply list_elem_of_filter in H as [? _].
Qed.

Lemma for_each_add_campaign_member cid uids db :
  for_each uids (λ uid, add_campaign_member cid uid) db =
  ((), mkDB (users db) (campaigns db)
         (campaign_members db ++ member_rows cid (campaign_members_id_seq db) uids)
         (campaigns_id_seq db)
         (campaign_members_id_seq db + Z.of_nat (length uids))).
Proof.
  revert db. induction uids as [|uid uids IH]; intros db.
  - simpl. session. rewrite app_nil_r, Z.add_0_r. by destruct db.
  - cbn [for_each]. session. unfold add_campaign_member at 1.
    rewrite IH. cbn [users campaigns campaign_members campaigns_id_seq
                     campaign_members_id_seq member_rows length].
    rewrite <- app_assoc. do 2 f_equal. lia.
Qed.

Lemma create_campaign_eq title total_amount creator_id now db :
  create_campaign title total_amount creator_id now db =
  let user_ids := filter (λ uid, uid ≠ creator_id)
                    (merge_sort Z.le (User.id <$> users db)) in
  let n := Z.max (Z.of_nat (length user_ids)) 1 in
  let per_user := (total_amount + n - 1) `div` n in
  let camp := Campaign.mk (campaigns_id_seq db + 1) title total_amount per_user
                creator_id true now in
  (camp, user_ids, per_user,
   mkDB (users db) (campaigns db ++ [camp])
        (campaign_members db
           ++ member_rows (campaigns_id_seq db + 1) (campaign_members_id_seq db) user_ids)
        (campaigns_id_seq db + 1)
        (campaign_members_id_seq db + Z.of_nat (length user_ids))).
Proof.
  unfold create_campaign, list_user_ids. session. unfold add_campaign.
  rewrite for_each_add_campaign_member. reflexivity.
Qed.

Lemma get_active_campaign_eq db :
  get_active_campaign db = (head (merge_sort id_desc (active_campaigns db)), db).
Proof. reflexivity. Qed.

Lemma close_active_campaign_eq db :
  close_active_campaign db =
  match head (merge_sort id_desc (active_campaigns db)) with
  | None => (false, db)
  | Some c =>
      (true, mkDB (users db)
               ((λ r, if decide (Campaign.id r = Campaign.id c)
                      then Campaign.set_is_active false c else r) <$> campaigns db)
               (campaign_members db) (campaigns_id_seq db)
               (campaign_members_id_seq db))
  end.
Proof.
  unfold close_active_campaign. session. rewrite get_active_campaign_eq.
  by destruct (head _).
Qed.

Lemma upsert_user_eq tg_id username full_name financiers now db :
  upsert_user tg_id username full_name financiers now db =
  match scalar (select_user tg_id db) with
  | None =>
      let u := User.mk tg_id username full_name
                 (bool_decide (tg_id ∈ financiers)) now in
      (u, mkDB (users db ++ [u]) (campaigns db) (campaign_members db)
               (campaigns_id_seq db) (campaign_members_id_seq db))
  | Some u =>
      let u' := User.mk tg_id username
                  (if truthy full_name && negb (truthy (User.full_name u))
                   then full_name else User.full_name u)
                  (if bool_decide (tg_id ∈ financiers) then true
                   else User.is_financier u)
                  (User.created_at u) in
      (u', mkDB ((λ r, if decide (User.id r = tg_id) then u' else r) <$> users db)
                (campaigns db) (campaign_members db)
                (campaigns_id_seq db) (campaign_members_id_seq db))
  end.
Proof.
  unfold upsert_user. session.
  destruct (scalar (select_user tg_id db)) as [u|] eqn:E; [|reflexivity].
  apply select_user_id in E. destruct u as [i un fn fi ca]. simpl in E. subst i.
  unfold update_user. simpl.
  by destruct (truthy full_name && negb (truthy fn)),
              (bool_decide (tg_id ∈ financiers)).
Qed.

Lemma toggle_payment_eq campaign_id user_id mark now db :
  toggle_payment campaign_id user_id mark now db =
  match scalar (select_campaign_member campaign_id user_id db) with
  | None => (false, db)
  | Some cm =>
      let cm' := CampaignMember.mk (CampaignMember.id cm) campaign_id user_id mark
                   (if mark then Some now else None) in
      (true, mkDB (users db) (campaigns db)
               ((λ r, if decide (CampaignMember.id r = CampaignMember.id cm)
                      then cm' else r) <$> campaign_members db)
               (campaigns_id_seq db) (campaign_members_id_seq db))
  end.
Proof.
  unfold toggle_payment. session.
  destruct (scalar (select_campaign_member campaign_id user_id db)) as [cm|] eqn:E;
    [|reflexivity].
  apply select_campaign_member_key in E as [E1 E2].
  destruct cm as [i c u hp pa]. simpl in *. subst. reflexivity.
Qed.

(** ** The inserted membership rows *)

Lemma member_rows_user_id cid seq uids :
  CampaignMember.user_id <$> member_rows cid seq uids = uids.
Proof.
  revert seq. induction uids as [|uid uids IH]; intros seq; [done|].
  simpl. by rewrite IH.
Qed.

Lemma member_rows_fresh cid seq uids :
  Forall (λ m, CampaignMember.campaign_id m = cid
               ∧ CampaignMember.has_paid m = false
               ∧ CampaignMember.paid_at m = None)
         (member_rows cid seq uids).
Proof.
  revert seq. induction uids as [|uid uids IH]; intros seq; simpl; [constructor|].
  constructor; [done|apply IH].
Qed.

Lemma member_rows_id_range cid seq uids :
  Forall (λ m, seq < CampaignMember.id m ≤ seq + Z.of_nat (length uids))
         (member_rows cid seq uids).
Proof.
  revert seq. induction uids as [|uid uids IH]; intros seq; simpl; [constructor|].
  constructor; [simpl; lia|].
  eapply Forall_impl; [apply IH|]. simpl. intros m. lia.
Qed.

Lemma member_rows_NoDup cid seq uids :
  NoDup (CampaignMember.id <$> member_rows cid seq uids).
Proof.
  revert seq. induction uids as [|uid uids IH]; intros seq; simpl; [constructor|].
  apply NoDup_cons. split; [|apply IH].
  intros (m & Hid & Hm)%list_elem_of_fmap.
  pose proof (member_rows_id_range cid (seq + 1) uids) as HR.
  rewrite Forall_forall in HR. specialize (HR m Hm). simpl in Hid. lia.
Qed.

(** ** Integrity is preserved *)

Lemma fmap_replace_key {A} (key : A → Z) (k : Z) (x : A) (l : list A) :
  key x = k →
  key <$> ((λ r, if decide (key r = k) then x else r) <$> l) = key <$> l.
Proof.
  intros Hx. rewrite <- list_fmap_compose. apply list_fmap_ext.
  intros i r _. simpl. by case_decide; simplify_eq.
Qed.

Lemma replace_key_Forall {A} (key : A → Z) (k : Z) (x : A) (l : list A) (P : Z → Prop) :
  key x = k → Forall (λ r, P (key r)) l →
  Forall (λ r, P (key r)) ((λ r, if decide (key r = k) then x else r) <$> l).
Proof.
  intros Hx HF. rewrite Forall_fmap. eapply Forall_impl; [apply HF|].
  intros r Hr. simpl. case_decide; [by rewrite Hx, <- H|done].
Qed.

Lemma user_status_store user_id db : (user_status user_id db).2 = db.
Proof.
  unfold user_status. session. rewrite get_active_campaign_eq.
  by destruct (head _).
Qed.

Ltac store := cbn [users campaigns campaign_members campaigns_id_seq
                   campaign_members_id_seq fst snd] in *.

Lemma exec_wf r db : db_wf db → db_wf (exec r db).
Proof.
  intros (HU & HC & HCs & HM & HMs).
  destruct r as [tg un fn fin now|title total creator now|cid uid mark now
                 | | | | | | | | ]; cbn [exec]; try (by repeat split).
  - rewrite upsert_user_eq.
    destruct (scalar (select_user tg db)) as [u|] eqn:E; unfold db_wf; store.
    + repeat split; try done. by rewrite (fmap_replace_key User.id).
    + repeat split; try done.
      rewrite fmap_app. apply NoDup_app. split; [done|]. split; [|apply NoDup_singleton].
      intros x Hx [->|[]%elem_of_nil]%elem_of_cons. simpl in Hx.
      apply list_elem_of_fmap in Hx as (u & Hid & Hu).
      apply scalar_None_nil in E. unfold select_user in E.
      assert (u ∈ filter (λ u, User.id u = tg) (users db)) as Hin
        by (apply list_elem_of_filter; done).
      rewrite E in Hin. inversion Hin.
  - rewrite create_campaign_eq. unfold db_wf; store. repeat split; try done.
    + rewrite fmap_app. apply NoDup_app. split; [done|]. split; [|apply NoDup_singleton].
      intros x Hx [->|[]%elem_of_nil]%elem_of_cons. simpl in Hx.
      apply list_elem_of_fmap in Hx as (c & Hid & Hc).
      rewrite Forall_forall in HCs. specialize (HCs c Hc). lia.
    + apply Forall_app. split.
      * eapply Forall_impl; [apply HCs|]. simpl. intros. lia.
      * repeat constructor. simpl. lia.
    + rewrite fmap_app. apply NoDup_app. split; [done|].
      split; [|apply member_rows_NoDup].
      intros x Hx Hx'.
      apply list_elem_of_fmap in Hx as (m & -> & Hm).
      apply list_elem_of_fmap in Hx' as (m' & Hid & Hm').
      rewrite Forall_forall in HMs. specialize (HMs m Hm).
      pose proof (member_rows_id_range (campaigns_id_seq db + 1)
                    (campaign_members_id_seq db) (filter (λ uid, uid ≠ creator)
                       (merge_sort Z.le (User.id <$> users db)))) as HR.
      rewrite Forall_forall in HR. specialize (HR m' Hm'). lia.
    + apply Forall_app. split.
      * eapply Forall_impl; [apply HMs|]. simpl. intros. lia.
      * eapply Forall_impl; [apply member_rows_id_range|]. simpl. intros. lia.
  - rewrite toggle_payment_eq.
    destruct (scalar (select_campaign_member cid uid db)) as [cm|] eqn:E;
      unfold db_wf; store; [|by repeat split].
    repeat split; try done.
    + by rewrite (fmap_replace_key CampaignMember.id).
    + by apply (replace_key_Forall CampaignMember.id _ _ _
                  (λ k, k ≤ campaign_members_id_seq db)).
  - rewrite close_active_campaign_eq.
    destruct (head (merge_sort id_desc (active_campaigns db))) as [c|] eqn:E;
      unfold db_wf; store; [|by repeat split].
    repeat split; try done.
    + by rewrite (fmap_replace_key Campaign.id).
    + by apply (replace_key_Forall Campaign.id _ _ _ (λ k, k ≤ campaigns_id_seq db)).
  - rewrite user_status_store. by repeat split.
Qed.

Lemma run_wf rs db : db_wf db → db_wf (run rs db).
Proof.
  revert db. induction rs as [|r rs IH]; intros db H; [done|].
  simpl. apply IH. by apply exec_wf.
Qed.

Lemma reachable_wf db : reachable db → db_wf db.
Proof.
  induction 1 as [|r db _ IH].
  - repeat split; simpl; constructor.
  - by apply exec_wf.
Qed.

Lemma run_app rs1 rs2 db : run (rs1 ++ rs2) db = run rs2 (run rs1 db).
Proof. unfold run. apply foldl_app. Qed.

Lemma reachable_run rs db : reachable db → reachable (run rs db).
Proof.
  revert db. induction rs as [|r rs IH]; intros db H; [done|].
  simpl. apply IH. by constructor.
Qed.

(** ** Share computation *)

(** C1, as amended: for every total_amount ≥ 0 and every roster, with
    n = max(number of participants, 1) ≥ 1, the per_user_amount that
    create_campaign computes (and stores in the campaign) satisfies
    per_user_amount × n ≥ total_amount and
    (per_user_amount − 1) × n < total_amount: it is the ceiling of
    total_amount / n, the least share that covers the total. *)
Theorem create_campaign_share_ceiling db title total_amount creator_id now :
  0 ≤ total_amount →
  let '(camp, user_ids, per_user, _) :=
    create_campaign title total_amount creator_id now db in
  let n := Z.max (Z.of_nat (length user_ids)) 1 in
  1 ≤ n
  ∧ Campaign.per_user_amount camp = per_user
  ∧ per_user * n >= total_amount
  ∧ (per_user - 1) * n < total_amount.
Proof.
  intros _. rewrite create_campaign_eq. cbv zeta.
  set (n := Z.max _ 1). assert (1 ≤ n) as Hn by lia.
  split; [done|]. split; [done|].
  pose proof (Z.mul_div_le (total_amount + n - 1) n ltac:(lia)).
  pose proof (Z.mul_succ_div_gt (total_amount + n - 1) n ltac:(lia)).
  lia.
Qed.

Lemma create_campaign_share_ceiling_witness :
  0 ≤ 50000
  ∧ let '(camp, user_ids, per_user, _) := create_campaign "Trip" 50000 1 20 roster4 in
    let n := Z.max (Z.of_nat (length user_ids)) 1 in
    1 ≤ n
    ∧ Campaign.per_user_amount camp = per_user
    ∧ per_user * n >= 50000
    ∧ (per_user - 1) * n < 50000.
Proof.
  split; [lia|]. apply (create_campaign_share_ceiling roster4 "Trip" 50000 1 20). lia.
Defined.

(** C1, as stated, fails: with three participants and total_amount 1 the
    share is 1, and 1 × (3 − 1) = 2 is not below 1. *)
Lemma create_campaign_share_counterexample :
  let '(_, user_ids, per_user, _) := create_campaign "Trip" 1 1 20 roster4 in
  let n := Z.max (Z.of_nat (length user_ids)) 1 in
  0 ≤ 1 ∧ 1 ≤ n ∧ n = 3 ∧ per_user = 1
  ∧ ¬ (per_user * n >= 1 ∧ per_user * (n - 1) < 1).
Proof.
  vm_compute. repeat split; try discriminate. intros [_ H]. discriminate H.
Qed.

(** The example of the specification: 50000 over three participants. *)
Example create_campaign_share_50000 :
  (create_campaign "Trip" 50000 1 20 roster4).1 =
  (Campaign.mk 1 "Trip" 50000 16667 1 true 20, [2; 3; 4], 16667).
Proof. vm_compute. reflexivity. Qed.

(** ** Participants of a new campaign *)

Lemma StronglySorted_filter {A} (R : relation A) (P : A → Prop)
    `{!∀ x, Decision (P x)} (l : list A) :
  StronglySorted R l → StronglySorted R (filter P l).
Proof.
  induction 1 as [|x l Hl IH Hx]; [constructor|].
  rewrite filter_cons. case_decide; [|done].
  constructor; [done|].
  rewrite Forall_forall in Hx |- *.
  intros y [_ Hy]%list_elem_of_filter. by apply Hx.
Qed.

Lemma list_user_ids_eq db :
  list_user_ids db = (merge_sort Z.le (User.id <$> users db), db).
Proof. reflexivity. Qed.

Lemma list_user_ids_sorted db : StronglySorted Z.le (list_user_ids db).1.
Proof. rewrite list_user_ids_eq. apply (StronglySorted_merge_sort Z.le). Qed.

Lemma list_user_ids_elem db uid :
  uid ∈ (list_user_ids db).1 ↔ ∃ u, u ∈ users db ∧ User.id u = uid.
Proof.
  rewrite list_user_ids_eq. cbn [fst].
  rewrite (merge_sort_Permutation Z.le), list_elem_of_fmap.
  split; intros (u & H1 & H2); exists u; by split.
Qed.

(** On the accepted path create_campaign returns as participants the
    roster identifiers, in ascending order, without the creator, and
    inserts membership rows for exactly these identifiers (for the new
    campaign, unpaid) and no other row: none of the new rows is for the
    creator. *)
Lemma create_campaign_participants db title total_amount creator_id now :
  let '(camp, user_ids, _, db') :=
    create_campaign title total_amount creator_id now db in
  user_ids = filter (λ uid, uid ≠ creator_id) (list_user_ids db).1
  ∧ (∀ uid, uid ∈ user_ids ↔
            ((∃ u, u ∈ users db ∧ User.id u = uid) ∧ uid ≠ creator_id))
  ∧ (creator_id ∉ user_ids)
  ∧ StronglySorted Z.le user_ids
  ∧ ∃ rows,
      campaign_members db' = campaign_members db ++ rows
      ∧ CampaignMember.user_id <$> rows = user_ids
      ∧ Forall (λ m, CampaignMember.campaign_id m = Campaign.id camp
                     ∧ CampaignMember.user_id m ≠ creator_id
                     ∧ CampaignMember.has_paid m = false
                     ∧ CampaignMember.paid_at m = None) rows.
Proof.
  rewrite create_campaign_eq. cbv zeta.
  change (merge_sort Z.le (User.id <$> users db)) with (list_user_ids db).1.
  set (user_ids := filter _ _).
  assert (∀ uid, uid ∈ user_ids ↔
            ((∃ u, u ∈ users db ∧ User.id u = uid) ∧ uid ≠ creator_id)) as Helem.
  { intros uid. unfold user_ids.
    rewrite list_elem_of_filter, list_user_ids_elem. tauto. }
  split; [done|]. split; [done|].
  split; [intros H%Helem; tauto|].
  split; [apply StronglySorted_filter, list_user_ids_sorted|].
  eexists. split; [reflexivity|]. split; [apply member_rows_user_id|]. store.
  pose proof (member_rows_fresh (campaigns_id_seq db + 1)
                (campaign_members_id_seq db) user_ids) as HF.
  rewrite Forall_forall in HF |- *. intros m Hm.
  destruct (HF m Hm) as (H1 & H2 & H3). repeat split; try done.
  intros Hc.
  assert (CampaignMember.user_id m ∈ user_ids) as Hin.
  { rewrite <- (member_rows_user_id (campaigns_id_seq db + 1)
                  (campaign_members_id_seq db) user_ids).
    by apply list_elem_of_fmap_2. }
  apply Helem in Hin. tauto.
Qed.

(** With unique user identifiers the participants are strictly ascending:
    one row per participant. *)
Lemma create_campaign_participants_strict db title total_amount creator_id now :
  db_wf db →
  StronglySorted Z.lt (create_campaign title total_amount creator_id now db).1.1.2.
Proof.
  intros (HU & _). rewrite create_campaign_eq. cbv zeta. cbn [fst snd].
  apply StronglySorted_filter.
  pose proof (StronglySorted_merge_sort Z.le (User.id <$> users db)) as HS.
  assert (NoDup (merge_sort Z.le (User.id <$> users db))) as HN
    by (by rewrite (merge_sort_Permutation Z.le)).
  induction HS as [|x l Hl IH Hx]; [constructor|].
  apply NoDup_cons in HN as [Hnx HN]. constructor; [by apply IH|].
  rewrite Forall_forall in Hx |- *. intros y Hy.
  specialize (Hx y Hy). assert (x ≠ y) by (intros ->; done). lia.
Qed.

Example create_campaign_participants_roster4 :
  (create_campaign "Trip" 300 1 20 roster4).1.1.2 = [2; 3; 4]
  ∧ campaign_members (create_campaign "Trip" 300 1 20 roster4).2 =
      [CampaignMember.mk 1 1 2 false None; CampaignMember.mk 2 1 3 false None;
       CampaignMember.mk 3 1 4 false None].
Proof. split; vm_compute; reflexivity. Qed.

Lemma utf8_split_short n s : (utf8_chars s ≤ n)%nat → utf8_split n s = (s, EmptyString).
Proof.
  revert n. induction s as [|c s IH]; intros n Hlen; [done|].
  simpl in *. destruct (is_continuation_byte c).
  - by rewrite IH by lia.
  - destruct n as [|n]; [lia|]. by rewrite IH by lia.
Qed.

Lemma varchar_short n s :
  nul_free s = true → (utf8_chars s ≤ n)%nat → varchar n s = Some s.
Proof. intros Hnul H. unfold varchar. by rewrite Hnul, utf8_split_short. Qed.

(** C4, as amended: for every roster and every creator identifier that
    is a registered user (and a total and a title that fit their
    columns: an int4, a text of at most 120 characters without the
    character of code 0), create_campaign returns, as participants, the roster
    identifiers other than the creator in ascending order, and inserts
    membership rows for exactly these identifiers (for the new campaign,
    unpaid) and no other row: never a row for the creator. *)
Theorem create_campaign_stored_creator db title total_amount creator_id now :
  creator_id ∈ User.id <$> users db → int4 total_amount = true →
  nul_free title = true → (utf8_chars title ≤ 120)%nat →
  ∃ camp user_ids per_user db',
    create_campaign_checked title total_amount creator_id now db
    = Some (camp, user_ids, per_user, db')
    ∧ user_ids = filter (λ uid, uid ≠ creator_id) (list_user_ids db).1
    ∧ (∀ uid, uid ∈ user_ids ↔
              ((∃ u, u ∈ users db ∧ User.id u = uid) ∧ uid ≠ creator_id))
    ∧ (creator_id ∉ user_ids)
    ∧ StronglySorted Z.le user_ids
    ∧ ∃ rows,
        campaign_members db' = campaign_members db ++ rows
        ∧ CampaignMember.user_id <$> rows = user_ids
        ∧ Forall (λ m, CampaignMember.campaign_id m = Campaign.id camp
                       ∧ CampaignMember.user_id m ≠ creator_id
                       ∧ CampaignMember.has_paid m = false
                       ∧ CampaignMember.paid_at m = None) rows.
Proof.
  intros Hcreator Htotal Hnul Htitle. unfold create_campaign_checked.
  rewrite bool_decide_eq_true_2, Htotal, varchar_short by done. cbn [andb].
  pose proof (create_campaign_participants db title total_amount creator_id now) as H.
  destruct (create_campaign title total_amount creator_id now db)
    as [[[camp user_ids] per_user] db'].
  by eexists _, user_ids, per_user, db'.
Qed.

Lemma create_campaign_stored_creator_witness :
  1 ∈ User.id <$> users roster4 ∧ int4 300 = true
  ∧ nul_free "Trip" = true ∧ (utf8_chars "Trip" ≤ 120)%nat
  ∧ ∃ camp user_ids per_user db',
      create_campaign_checked "Trip" 300 1 20 roster4 = Some (camp, user_ids, per_user, db')
      ∧ user_ids = filter (λ uid, uid ≠ 1) (list_user_ids roster4).1
      ∧ (∀ uid, uid ∈ user_ids ↔
                ((∃ u, u ∈ users roster4 ∧ User.id u = uid) ∧ uid ≠ 1))
      ∧ (1 ∉ user_ids)
      ∧ StronglySorted Z.le user_ids
      ∧ ∃ rows,
          campaign_members db' = campaign_members roster4 ++ rows
          ∧ CampaignMember.user_id <$> rows = user_ids
          ∧ Forall (λ m, CampaignMember.campaign_id m = Campaign.id camp
                         ∧ CampaignMember.user_id m ≠ 1
                         ∧ CampaignMember.has_paid m = false
                         ∧ CampaignMember.paid_at m = None) rows.
Proof.
  assert (1 ∈ User.id <$> users roster4) as Hc
    by (apply (bool_decide_unpack _); vm_compute; exact I).
  assert (int4 300 = true) as Ht by (vm_compute; reflexivity).
  assert (nul_free "Trip" = true) as Hn by (vm_compute; reflexivity).
  assert (utf8_chars "Trip" ≤ 120)%nat as Hl by (vm_compute; lia).
  split; [done|]. split; [done|]. split; [done|]. split; [done|].
  apply (create_campaign_stored_creator roster4 "Trip" 300 1 20 Hc Ht Hn Hl).
Defined.

(** C4, as stated, fails for a creator who is not a registered user: the
    roster holds four identifiers other than 9, yet the INSERT into
    campaigns is refused (created_by is a foreign key to users.id), the
    call raises and no membership row is created. *)
Lemma create_campaign_unregistered_creator_counterexample :
  (9 ∉ User.id <$> users roster4)
  ∧ filter (λ uid, uid ≠ 9) (list_user_ids roster4).1 = [1; 2; 3; 4]
  ∧ create_campaign_checked "Trip" 300 9 20 roster4 = None.
Proof.
  split; [apply (bool_decide_unpack _); vm_compute; exact I|].
  split; vm_compute; reflexivity.
Qed.

(** ** The active campaign *)

Lemma get_active_campaign_None db :
  (get_active_campaign db).1 = None ↔ active_campaigns db = [].
Proof.
  rewrite get_active_campaign_eq. cbn [fst].
  by rewrite head_None, merge_sort_nil_iff.
Qed.

Lemma get_active_campaign_Some db c :
  (get_active_campaign db).1 = Some c →
  c ∈ campaigns db ∧ Campaign.is_active c = true
  ∧ ∀ r, r ∈ campaigns db → Campaign.is_active r = true →
         Campaign.id r ≤ Campaign.id c.
Proof.
  rewrite get_active_campaign_eq. cbn [fst].
  intros [Hc Hmax]%head_merge_sort_id_desc.
  unfold active_campaigns in *. apply list_elem_of_filter in Hc as [Ha Hc].
  repeat split; try done.
  intros r Hr Hra. apply Hmax. by apply list_elem_of_filter.
Qed.

Lemma get_active_campaign_newest db c :
  c ∈ campaigns db → Campaign.is_active c = true →
  (∀ r, r ∈ campaigns db → Campaign.is_active r = true → r ≠ c →
        Campaign.id r < Campaign.id c) →
  get_active_campaign db = (Some c, db).
Proof.
  intros Hc Ha Hmax. rewrite get_active_campaign_eq. f_equal.
  apply head_merge_sort_newest.
  - by apply list_elem_of_filter.
  - intros r [Hra Hr]%list_elem_of_filter Hne. by apply Hmax.
Qed.

(** C3: create_campaign changes no existing campaign row, so a campaign
    that was active stays active; the new campaign is active too, has
    the greater identifier, and is the one get_active_campaign returns. *)
Theorem create_campaign_keeps_active db title total_amount creator_id now c :
  db_wf db → c ∈ campaigns db → Campaign.is_active c = true →
  let '(camp, _, _, db') := create_campaign title total_amount creator_id now db in
  campaigns db' = campaigns db ++ [camp]
  ∧ c ∈ active_campaigns db'
  ∧ camp ∈ active_campaigns db'
  ∧ Campaign.id c < Campaign.id camp
  ∧ get_active_campaign db' = (Some camp, db').
Proof.
  intros (_ & _ & HCs & _) Hc Ha. rewrite create_campaign_eq. cbv zeta.
  set (camp := Campaign.mk _ _ _ _ _ _ _). set (db' := mkDB _ _ _ _ _).
  rewrite Forall_forall in HCs.
  split; [done|].
  split. { apply list_elem_of_filter. split; [done|]. apply elem_of_app. by left. }
  split. { apply list_elem_of_filter. split; [done|]. apply elem_of_app. right. left. }
  split. { specialize (HCs c Hc). simpl. lia. }
  apply get_active_campaign_newest.
  - apply elem_of_app. right. left.
  - done.
  - intros r [Hr|Hr]%elem_of_app _ Hne.
    + specialize (HCs r Hr). simpl. lia.
    + apply list_elem_of_singleton in Hr. done.
Qed.

Lemma create_campaign_keeps_active_witness :
  let c := Campaign.mk 1 "Trip" 300 100 1 true 20 in
  db_wf one_active ∧ c ∈ campaigns one_active ∧ Campaign.is_active c = true
  ∧ let '(camp, _, _, db') := create_campaign "Gift" 100 1 21 one_active in
    campaigns db' = campaigns one_active ++ [camp]
    ∧ c ∈ active_campaigns db'
    ∧ camp ∈ active_campaigns db'
    ∧ Campaign.id c < Campaign.id camp
    ∧ get_active_campaign db' = (Some camp, db').
Proof.
  intros c.
  assert (db_wf one_active) as Hwf by (apply (bool_decide_unpack _); vm_compute; exact I).
  assert (c ∈ campaigns one_active) as Hc
    by (apply (bool_decide_unpack _); vm_compute; exact I).
  split; [done|]. split; [done|]. split; [reflexivity|].
  apply (create_campaign_keeps_active one_active "Gift" 100 1 21 c);
    [done|done|reflexivity].
Defined.

(** ** Closing *)

Lemma campaign_key_eq db r c :
  db_wf db → r ∈ campaigns db → c ∈ campaigns db →
  Campaign.id r = Campaign.id c → r = c.
Proof. intros (_ & HC & _). by apply NoDup_fmap_eq. Qed.

Lemma close_active_campaign_Some db c :
  db_wf db → (get_active_campaign db).1 = Some c →
  close_active_campaign db =
  (true, mkDB (users db)
           ((λ r, if decide (r = c) then Campaign.set_is_active false c else r)
              <$> campaigns db)
           (campaign_members db) (campaigns_id_seq db) (campaign_members_id_seq db)).
Proof.
  intros Hwf Hget. rewrite close_active_campaign_eq.
  pose proof (get_active_campaign_Some _ _ Hget) as (Hc & _).
  rewrite get_active_campaign_eq in Hget. cbn [fst] in Hget. rewrite Hget.
  do 2 f_equal. apply list_fmap_ext. intros i r Hr.
  apply list_elem_of_lookup_2 in Hr.
  destruct (decide (Campaign.id r = Campaign.id c)) as [Hid|Hid];
    destruct (decide (r = c)) as [Heq|Hne]; try done.
  - exfalso. apply Hne. by apply (campaign_key_eq db).
  - by subst r.
Qed.

Lemma filter_active_close (l : list Campaign.t) (c : Campaign.t) :
  Campaign.is_active c = true →
  filter (λ r, Campaign.is_active r = true)
    ((λ r, if decide (r = c) then Campaign.set_is_active false c else r) <$> l)
  = filter (λ r, r ≠ c) (filter (λ r, Campaign.is_active r = true) l).
Proof.
  intros Ha. induction l as [|r l IH]; [done|].
  rewrite fmap_cons. destruct (decide (r = c)) as [->|Hne].
  - rewrite filter_cons_False by (simpl; congruence).
    rewrite (filter_cons_True _ c l) by done.
    by rewrite filter_cons_False by (intros H; by apply H).
  - destruct (decide (Campaign.is_active r = true)) as [Hr|Hr].
    + rewrite !filter_cons_True by done. by rewrite IH.
    + by rewrite !filter_cons_False by done.
Qed.

(** Nothing reopens a campaign: every request preserves [closed_for_good]. *)
Lemma closed_for_good_exec k r db :
  closed_for_good k db → closed_for_good k (exec r db).
Proof.
  intros [Hk Hclosed].
  destruct r as [tg un fn fin now|title total creator now|cid uid mark now
                 | | | | | | | | ]; cbn [exec]; try (by split).
  - rewrite upsert_user_eq. by destruct (scalar (select_user tg db)).
  - rewrite create_campaign_eq. split; store; [lia|].
    intros r [Hr|Hr]%elem_of_app Hid; [by apply Hclosed|].
    apply list_elem_of_singleton in Hr. subst r. simpl in Hid. lia.
  - rewrite toggle_payment_eq.
    by destruct (scalar (select_campaign_member cid uid db)).
  - rewrite close_active_campaign_eq.
    destruct (head (merge_sort id_desc (active_campaigns db))) as [c|]; [|by split].
    split; store; [done|].
    intros r (r0 & -> & Hr0)%list_elem_of_fmap Hid.
    case_decide; [done|]. by apply Hclosed.
  - rewrite user_status_store. by split.
Qed.

Lemma closed_for_good_run k rs db :
  closed_for_good k db → closed_for_good k (run rs db).
Proof.
  revert db. induction rs as [|r rs IH]; intros db H; [done|].
  simpl. by apply IH, closed_for_good_exec.
Qed.

(** A closed row is never rewritten or removed. *)
Lemma closed_row_exec k req db r :
  closed_for_good k db → r ∈ campaigns db → Campaign.id r = k →
  r ∈ campaigns (exec req db).
Proof.
  intros [_ Hclosed] Hr Hid.
  destruct req as [tg un fn fin now|title total creator now|cid uid mark now
                   | | | | | | | | ]; cbn [exec]; try done.
  - rewrite upsert_user_eq. by destruct (scalar (select_user tg db)).
  - rewrite create_campaign_eq. store. apply elem_of_app. by left.
  - rewrite toggle_payment_eq.
    by destruct (scalar (select_campaign_member cid uid db)).
  - rewrite close_active_campaign_eq.
    destruct (head (merge_sort id_desc (active_campaigns db))) as [c|] eqn:E; [|done].
    store. apply list_elem_of_fmap. exists r. split; [|done].
    rewrite decide_False; [done|]. intros Hrc.
    apply head_merge_sort_id_desc in E as [Hc _].
    apply list_elem_of_filter in Hc as [Hca Hc].
    rewrite (Hclosed c Hc) in Hca; [done|congruence].
  - by rewrite user_status_store.
Qed.

Lemma closed_row_run k rs db r :
  closed_for_good k db → r ∈ campaigns db → Campaign.id r = k →
  r ∈ campaigns (run rs db).
Proof.
  revert db. induction rs as [|req rs IH]; intros db Hclosed Hr Hid; [done|].
  simpl. apply IH; [by apply closed_for_good_exec| |done].
  by apply (closed_row_exec k).
Qed.

Lemma active_campaigns_NoDup db : db_wf db → NoDup (active_campaigns db).
Proof.
  intros (_ & HC & _). apply NoDup_filter. by apply NoDup_fmap_1 in HC.
Qed.

(** C8: in a store with more than one active campaign,
    close_active_campaign returns true and rewrites a single row, that
    of the active campaign [c] with the greatest identifier, which
    becomes inactive; all other active campaigns stay active, and
    get_active_campaign then returns the newest of them, [c2], not
    none. *)
Theorem close_active_campaign_newest_only db :
  db_wf db → (1 < length (active_campaigns db))%nat →
  ∃ c c2,
    get_active_campaign db = (Some c, db)
    ∧ c2 ∈ active_campaigns db
    ∧ Campaign.id c2 < Campaign.id c
    ∧ (∀ r, r ∈ active_campaigns db → r ≠ c → Campaign.id r ≤ Campaign.id c2)
    ∧ let '(ok, db') := close_active_campaign db in
      ok = true
      ∧ campaigns db' =
          (λ r, if decide (r = c) then Campaign.set_is_active false c else r)
            <$> campaigns db
      ∧ active_campaigns db' = filter (λ r, r ≠ c) (active_campaigns db)
      ∧ (∀ r, r ∈ active_campaigns db → r ≠ c → r ∈ active_campaigns db')
      ∧ get_active_campaign db' = (Some c2, db').
Proof.
  intros Hwf Hlen.
  pose proof (merge_sort_Permutation id_desc (active_campaigns db)) as HP.
  pose proof (StronglySorted_merge_sort id_desc (active_campaigns db)) as HS.
  pose proof (active_campaigns_NoDup db Hwf) as HN.
  rewrite <- HP in HN. rewrite <- (Permutation_length HP) in Hlen.
  assert (∀ r, r ∈ active_campaigns db → r ∈ campaigns db) as Hsub.
  { intros r Hr. unfold active_campaigns in Hr.
    by apply list_elem_of_filter in Hr as [_ ?]. }
  assert (get_active_campaign db
          = (head (merge_sort id_desc (active_campaigns db)), db)) as Hget
    by apply get_active_campaign_eq.
  destruct (merge_sort id_desc (active_campaigns db)) as [|c [|c2 rest]];
    simpl in Hlen; try lia.
  cbn [head] in Hget.
  apply StronglySorted_inv in HS as [HS Hc].
  apply StronglySorted_inv in HS as [_ Hc2].
  rewrite Forall_forall in Hc, Hc2. unfold id_desc in Hc, Hc2.
  apply NoDup_cons in HN as [Hnc _].
  assert (c ∈ active_campaigns db) as Hcin by (rewrite <- HP; left).
  assert (c2 ∈ active_campaigns db) as Hc2in by (rewrite <- HP; right; left).
  assert (c2 ≠ c) as Hne by (intros ->; apply Hnc; left).
  assert (Campaign.id c2 < Campaign.id c) as Hlt.
  { assert (Campaign.id c2 ≠ Campaign.id c)
      by (intros Hid; apply Hne; apply (campaign_key_eq db); auto).
    specialize (Hc c2 ltac:(left)). lia. }
  assert (∀ r, r ∈ active_campaigns db → r ≠ c → Campaign.id r ≤ Campaign.id c2)
    as Hmax.
  { intros r Hr Hrc. rewrite <- HP in Hr.
    apply elem_of_cons in Hr as [->|Hr]; [done|].
    apply elem_of_cons in Hr as [->|Hr]; [lia|]. by apply Hc2. }
  exists c, c2. repeat (split; [done|]).
  rewrite (close_active_campaign_Some db c Hwf) by (by rewrite Hget).
  set (db' := mkDB _ _ _ _ _).
  assert (Campaign.is_active c = true) as Hca.
  { unfold active_campaigns in Hcin. by apply list_elem_of_filter in Hcin as [? _]. }
  assert (active_campaigns db' = filter (λ r, r ≠ c) (active_campaigns db)) as Hact
    by apply (filter_active_close (campaigns db) c Hca).
  assert (∀ r, r ∈ active_campaigns db → r ≠ c → r ∈ active_campaigns db') as Hkeep.
  { intros r Hr Hrc. rewrite Hact. by apply list_elem_of_filter. }
  repeat (split; [done|]).
  rewrite get_active_campaign_eq. f_equal.
  apply head_merge_sort_newest; [by apply Hkeep|].
  intros r Hr Hrc2. rewrite Hact in Hr. apply list_elem_of_filter in Hr as [Hrc Hr].
  specialize (Hmax r Hr Hrc).
  assert (Campaign.id r ≠ Campaign.id c2)
    by (intros Hid; apply Hrc2; apply (campaign_key_eq db); auto).
  lia.
Qed.

Lemma close_active_campaign_newest_only_witness :
  db_wf two_active ∧ (1 < length (active_campaigns two_active))%nat
  ∧ ∃ c c2,
      get_active_campaign two_active = (Some c, two_active)
      ∧ c2 ∈ active_campaigns two_active
      ∧ Campaign.id c2 < Campaign.id c
      ∧ (∀ r, r ∈ active_campaigns two_active → r ≠ c →
              Campaign.id r ≤ Campaign.id c2)
      ∧ let '(ok, db') := close_active_campaign two_active in
        ok = true
        ∧ campaigns db' =
            (λ r, if decide (r = c) then Campaign.set_is_active false c else r)
              <$> campaigns two_active
        ∧ active_campaigns db' = filter (λ r, r ≠ c) (active_campaigns two_active)
        ∧ (∀ r, r ∈ active_campaigns two_active → r ≠ c → r ∈ active_campaigns db')
        ∧ get_active_campaign db' = (Some c2, db').
Proof.
  assert (db_wf two_active) as Hwf by (apply (bool_decide_unpack _); vm_compute; exact I).
  assert (1 < length (active_campaigns two_active))%nat as Hlen
    by (apply (bool_decide_unpack _); vm_compute; exact I).
  split; [done|]. split; [done|].
  apply (close_active_campaign_newest_only two_active Hwf Hlen).
Defined.

Example close_active_campaign_two_active :
  (close_active_campaign two_active).1 = true
  ∧ campaigns (close_active_campaign two_active).2 =
      [Campaign.mk 1 "Trip" 300 100 1 true 20; Campaign.mk 2 "Gift" 100 34 1 false 21].
Proof. split; vm_compute; reflexivity. Qed.

(** C2, as amended: when at most one campaign is active and
    close_active_campaign returns true, the campaign [c] that was active
    is closed and get_active_campaign returns none; a create_campaign
    that follows yields a new active campaign, which get_active_campaign
    returns, and whatever requests are served afterwards the closed row
    of [c] is still there and every row keyed like [c] is inactive:
    nothing sets the flag back to true. *)
Theorem close_then_create_single_active db :
  db_wf db → (length (active_campaigns db) ≤ 1)%nat →
  (close_active_campaign db).1 = true →
  ∃ c,
    get_active_campaign db = (Some c, db)
    ∧ let db1 := (close_active_campaign db).2 in
      get_active_campaign db1 = (None, db1)
      ∧ Campaign.set_is_active false c ∈ campaigns db1
      ∧ ∀ title total_amount creator_id now,
          let '(camp, _, _, db2) :=
            create_campaign title total_amount creator_id now db1 in
          get_active_campaign db2 = (Some camp, db2)
          ∧ Campaign.is_active camp = true
          ∧ Campaign.id camp ≠ Campaign.id c
          ∧ ∀ rs,
              Campaign.set_is_active false c ∈ campaigns (run rs db2)
              ∧ ∀ r, r ∈ campaigns (run rs db2) →
                     Campaign.id r = Campaign.id c → Campaign.is_active r = false.
Proof.
  intros Hwf Hlen Hok.
  destruct (get_active_campaign db).1 as [c|] eqn:Hget.
  2:{ rewrite close_active_campaign_eq in Hok.
      rewrite get_active_campaign_eq in Hget. cbn [fst] in Hget.
      by rewrite Hget in Hok. }
  exists c.
  pose proof (get_active_campaign_Some db c Hget) as (Hc & Hca & _).
  assert (active_campaigns db = [c]) as Hone.
  { assert (c ∈ active_campaigns db) as Hin by (by apply list_elem_of_filter).
    destruct (active_campaigns db) as [|x [|y l]]; simpl in Hlen; try lia.
    - inversion Hin.
    - by apply list_elem_of_singleton in Hin as ->. }
  split. { rewrite get_active_campaign_eq in Hget |- *. cbn [fst] in Hget. by rewrite Hget. }
  rewrite (close_active_campaign_Some db c Hwf Hget). cbn [snd].
  set (db1 := mkDB _ _ _ _ _).
  assert (active_campaigns db1 = []) as Hnone.
  { unfold active_campaigns, db1. store.
    rewrite (filter_active_close (campaigns db) c Hca).
    fold (active_campaigns db). rewrite Hone.
    by rewrite filter_cons_False by (intros H; by apply H). }
  assert (closed_for_good (Campaign.id c) db1) as Hclosed.
  { destruct Hwf as (_ & _ & HCs & _). rewrite Forall_forall in HCs.
    split; [apply (HCs c Hc)|].
    intros r Hr _. destruct (Campaign.is_active r) eqn:Hra; [|done].
    assert (r ∈ active_campaigns db1) as Hin by (by apply list_elem_of_filter).
    rewrite Hnone in Hin. inversion Hin. }
  assert (Campaign.set_is_active false c ∈ campaigns db1) as Hrow.
  { unfold db1. store. apply list_elem_of_fmap.
    exists c. split; [|done]. by rewrite decide_True. }
  split. { rewrite get_active_campaign_eq, Hnone. done. }
  split; [done|].
  intros title total_amount creator_id now.
  pose proof (closed_row_exec _ (CreateCampaign title total_amount creator_id now)
                _ _ Hclosed Hrow eq_refl) as Hrow2.
  cbn [exec] in Hrow2.
  pose proof (closed_for_good_exec _ (CreateCampaign title total_amount creator_id now)
                _ Hclosed) as Hclosed2.
  cbn [exec] in Hclosed2. rewrite create_campaign_eq in *. cbv zeta in *.
  cbn [snd] in Hclosed2.
  set (camp := Campaign.mk _ _ _ _ _ _ _) in *. set (db2 := mkDB _ _ _ _ _) in *.
  split.
  { apply get_active_campaign_newest.
    - unfold db2. store. apply elem_of_app. right. left.
    - done.
    - unfold db2. intros r [Hr|Hr]%elem_of_app Hra Hne.
      + assert (r ∈ active_campaigns db1) as Hin by (by apply list_elem_of_filter).
        rewrite Hnone in Hin. inversion Hin.
      + by apply list_elem_of_singleton in Hr. }
  split; [done|].
  split. { destruct Hclosed as [Hk _]. simpl in *. lia. }
  intros rs. split.
  - by apply (closed_row_run (Campaign.id c)).
  - intros r Hr Hid. by apply (closed_for_good_run _ rs _ Hclosed2).
Qed.

Lemma close_then_create_single_active_witness :
  db_wf one_active ∧ (length (active_campaigns one_active) ≤ 1)%nat
  ∧ (close_active_campaign one_active).1 = true
  ∧ ∃ c,
      get_active_campaign one_active = (Some c, one_active)
      ∧ let db1 := (close_active_campaign one_active).2 in
        get_active_campaign db1 = (None, db1)
        ∧ Campaign.set_is_active false c ∈ campaigns db1
        ∧ ∀ title total_amount creator_id now,
            let '(camp, _, _, db2) :=
              create_campaign title total_amount creator_id now db1 in
            get_active_campaign db2 = (Some camp, db2)
            ∧ Campaign.is_active camp = true
            ∧ Campaign.id camp ≠ Campaign.id c
            ∧ ∀ rs,
                Campaign.set_is_active false c ∈ campaigns (run rs db2)
                ∧ ∀ r, r ∈ campaigns (run rs db2) →
                       Campaign.id r = Campaign.id c → Campaign.is_active r = false.
Proof.
  assert (db_wf one_active) as Hwf by (apply (bool_decide_unpack _); vm_compute; exact I).
  assert (length (active_campaigns one_active) ≤ 1)%nat as Hlen
    by (apply (bool_decide_unpack _); vm_compute; exact I).
  assert ((close_active_campaign one_active).1 = true) as Hok
    by (vm_compute; reflexivity).
  split; [done|]. split; [done|]. split; [done|].
  apply (close_then_create_single_active one_active Hwf Hlen Hok).
Defined.

(** C2, as stated, fails where two campaigns are active: closing returns
    true and get_active_campaign then returns the older campaign, which is
    still active, instead of none.  The store is reachable: two campaigns
    were created in a row. *)
Lemma close_then_get_active_counterexample :
  reachable two_active
  ∧ (close_active_campaign two_active).1 = true
  ∧ (get_active_campaign (close_active_campaign two_active).2).1
    = Some (Campaign.mk 1 "Trip" 300 100 1 true 20)
  ∧ (get_active_campaign (close_active_campaign two_active).2).1 ≠ None.
Proof.
  split. { unfold two_active, roster4. do 2 apply reachable_run. constructor. }
  assert ((get_active_campaign (close_active_campaign two_active).2).1
          = Some (Campaign.mk 1 "Trip" 300 100 1 true 20)) as H
    by (vm_compute; reflexivity).
  split; [vm_compute; reflexivity|]. split; [done|]. by rewrite H.
Qed.

(** ** Re-reading a row after an UPDATE *)

Lemma filter_none {A} (P : A → Prop) `{!∀ x, Decision (P x)} (l : list A) :
  Forall (λ x, ¬ P x) l → filter P l = [].
Proof.
  induction 1 as [|x l Hx _ IH]; [done|]. by rewrite filter_cons_False.
Qed.

Lemma filter_all {A} (P : A → Prop) `{!∀ x, Decision (P x)} (l : list A) :
  Forall P l → filter P l = l.
Proof.
  induction 1 as [|x l Hx _ IH]; [done|]. by rewrite filter_cons_True, IH.
Qed.

Lemma head_filter_replace {A} (P Q : A → Prop)
    `{!∀ x, Decision (P x)} `{!∀ x, Decision (Q x)} (l : list A) (x x' : A) :
  head (filter P l) = Some x → Q x → P x' →
  head (filter P ((λ r, if decide (Q r) then x' else r) <$> l)) = Some x'.
Proof.
  intros Hhead HQ HP'. induction l as [|a l IH]; [done|].
  rewrite fmap_cons. rewrite filter_cons in Hhead.
  destruct (decide (Q a)) as [Hqa|Hqa].
  - by rewrite filter_cons_True.
  - destruct (decide (P a)) as [Hpa|Hpa].
    + simpl in Hhead. simplify_eq. done.
    + rewrite filter_cons_False by done. by apply IH.
Qed.

Lemma filter_replace_other {A} (P Q : A → Prop)
    `{!∀ x, Decision (P x)} `{!∀ x, Decision (Q x)} (l : list A) (x' : A) :
  (∀ r, Q r → ¬ P r) → ¬ P x' →
  filter P ((λ r, if decide (Q r) then x' else r) <$> l) = filter P l.
Proof.
  intros HQP HP'. induction l as [|a l IH]; [done|].
  rewrite fmap_cons. destruct (decide (Q a)) as [Hqa|Hqa].
  - rewrite !filter_cons_False; auto.
  - rewrite !filter_cons. by rewrite IH.
Qed.

(** ** Payments *)

Lemma toggle_payment_found db campaign_id user_id mark now cm :
  scalar (select_campaign_member campaign_id user_id db) = Some cm →
  let cm' := CampaignMember.mk (CampaignMember.id cm) campaign_id user_id mark
               (if mark then Some now else None) in
  let db' := mkDB (users db) (campaigns db)
               ((λ r, if decide (CampaignMember.id r = CampaignMember.id cm)
                      then cm' else r) <$> campaign_members db)
               (campaigns_id_seq db) (campaign_members_id_seq db) in
  toggle_payment campaign_id user_id mark now db = (true, db')
  ∧ scalar (select_campaign_member campaign_id user_id db') = Some cm'.
Proof.
  intros Hcm. cbv zeta. rewrite toggle_payment_eq, Hcm. split; [done|].
  unfold scalar, select_campaign_member in *. store.
  by apply (head_filter_replace _
              (λ r, CampaignMember.id r = CampaignMember.id cm) _ cm).
Qed.

(** The call in terms of its own lookup: when the lookup finds nothing
    the call returns false and leaves the store as it was; when it finds
    [cm] the call returns true and the row then read back has
    paid = mark and the matching timestamp, also when the call is
    repeated. *)
Lemma toggle_payment_spec db campaign_id user_id mark now :
  match scalar (select_campaign_member campaign_id user_id db) with
  | None => toggle_payment campaign_id user_id mark now db = (false, db)
  | Some cm =>
      let stamped t :=
        CampaignMember.mk (CampaignMember.id cm) campaign_id user_id mark
          (if mark then Some t else None) in
      let '(ok, db') := toggle_payment campaign_id user_id mark now db in
      ok = true
      ∧ scalar (select_campaign_member campaign_id user_id db') = Some (stamped now)
      ∧ campaign_members db' =
          (λ r, if decide (CampaignMember.id r = CampaignMember.id cm)
                then stamped now else r) <$> campaign_members db
      ∧ users db' = users db ∧ campaigns db' = campaigns db
      ∧ campaigns_id_seq db' = campaigns_id_seq db
      ∧ campaign_members_id_seq db' = campaign_members_id_seq db
      ∧ ∀ now2,
          let '(ok2, db2) := toggle_payment campaign_id user_id mark now2 db' in
          ok2 = true
          ∧ scalar (select_campaign_member campaign_id user_id db2)
            = Some (stamped now2)
  end.
Proof.
  destruct (scalar (select_campaign_member campaign_id user_id db)) as [cm|] eqn:Hcm.
  - cbv zeta.
    destruct (toggle_payment_found db campaign_id user_id mark now cm Hcm) as [-> Hget].
    repeat (split; [done|]).
    intros now2.
    by destruct (toggle_payment_found _ campaign_id user_id mark now2 _ Hget) as [-> ?].
  - by rewrite toggle_payment_eq, Hcm.
Qed.

(** Marking then unmarking (property 5 of the specification). *)
Example toggle_payment_mark_unmark :
  let db := (create_campaign "Trip" 300 1 20 roster4).2 in
  let r1 := toggle_payment 1 2 true 30 db in
  let r2 := toggle_payment 1 2 false 31 r1.2 in
  r1.1 = true ∧ r2.1 = true
  ∧ scalar (select_campaign_member 1 2 r1.2) = Some (CampaignMember.mk 1 1 2 true (Some 30))
  ∧ scalar (select_campaign_member 1 2 r2.2) = Some (CampaignMember.mk 1 1 2 false None)
  ∧ toggle_payment 1 1 true 32 db = (false, db).
Proof. repeat split; vm_compute; reflexivity. Qed.

(** ** Status of a user *)

(** C9: with no active campaign user_status returns none in all four
    places (campaign, membership, user record and share), whether or not
    a user row exists for the identifier, and leaves the store as it
    was. *)
Theorem user_status_no_active db user_id :
  (get_active_campaign db).1 = None →
  user_status user_id db = (None, None, None, None, db).
Proof.
  intros H. unfold user_status. session.
  rewrite get_active_campaign_eq in *. cbn [fst] in H. by rewrite H.
Qed.

Lemma user_status_no_active_witness :
  (get_active_campaign roster4).1 = None
  ∧ (get_user 2 roster4).1 = Some (User.mk 2 (Some "bob") (Some "Bob") false 12)
  ∧ user_status 2 roster4 = (None, None, None, None, roster4).
Proof.
  split; [vm_compute; reflexivity|]. split; [vm_compute; reflexivity|].
  apply (user_status_no_active roster4 2). vm_compute. reflexivity.
Defined.

(** Once an active campaign is found, the membership and the user record
    are looked up, and the share is reported to members only. *)
Lemma user_status_active db user_id camp :
  (get_active_campaign db).1 = Some camp →
  user_status user_id db =
  (Some camp,
   scalar (select_campaign_member (Campaign.id camp) user_id db),
   (get_user user_id db).1,
   match scalar (select_campaign_member (Campaign.id camp) user_id db) with
   | Some _ => Some (Campaign.per_user_amount camp)
   | None => None
   end, db).
Proof.
  intros H. unfold user_status. session.
  rewrite get_active_campaign_eq in *. cbn [fst] in H. by rewrite H.
Qed.

(** ** Registration *)

Lemma get_user_eq user_id db :
  get_user user_id db = (scalar (select_user user_id db), db).
Proof. reflexivity. Qed.

(** An existing user: the row after the call, which is also the row the
    call returns. *)
Lemma upsert_user_existing db tg_id u username full_name financiers now :
  (get_user tg_id db).1 = Some u →
  let u' := User.mk tg_id username
              (if truthy full_name && negb (truthy (User.full_name u))
               then full_name else User.full_name u)
              (if bool_decide (tg_id ∈ financiers) then true
               else User.is_financier u)
              (User.created_at u) in
  (upsert_user tg_id username full_name financiers now db).1 = u'
  ∧ (get_user tg_id (upsert_user tg_id username full_name financiers now db).2).1
    = Some u'.
Proof.
  rewrite get_user_eq. cbn [fst]. intros Hu. cbv zeta.
  rewrite upsert_user_eq, Hu. cbv zeta. cbn [fst snd]. split; [done|].
  rewrite get_user_eq. cbn [fst]. unfold scalar, select_user in *. store.
  apply (head_filter_replace _ (λ r, User.id r = tg_id) _ u); [done| |done].
  by apply (select_user_id tg_id db).
Qed.

(** A new user: the row is created from the arguments. *)
Lemma upsert_user_new db tg_id username full_name financiers now :
  (get_user tg_id db).1 = None →
  let u' := User.mk tg_id username full_name (bool_decide (tg_id ∈ financiers)) now in
  (upsert_user tg_id username full_name financiers now db).1 = u'
  ∧ (get_user tg_id (upsert_user tg_id username full_name financiers now db).2).1
    = Some u'.
Proof.
  rewrite get_user_eq. cbn [fst]. intros Hu. cbv zeta.
  rewrite upsert_user_eq, Hu. cbv zeta. cbn [fst snd]. split; [done|].
  rewrite get_user_eq. cbn [fst]. apply scalar_None_nil in Hu.
  unfold scalar, select_user in *. store.
  rewrite filter_app, Hu. by rewrite filter_cons_True.
Qed.

(** Rows of other users are not touched. *)
Lemma upsert_user_other db tg_id username full_name financiers now user_id :
  user_id ≠ tg_id →
  (get_user user_id (upsert_user tg_id username full_name financiers now db).2).1
  = (get_user user_id db).1.
Proof.
  intros Hne. rewrite !get_user_eq. cbn [fst]. rewrite upsert_user_eq.
  unfold select_user.
  destruct (scalar (filter (λ u, User.id u = tg_id) (users db))) as [u|];
    cbv zeta; store.
  - by rewrite (filter_replace_other _ (λ r, User.id r = tg_id))
      by (simpl; intros; congruence).
  - rewrite filter_app, filter_cons_False by (simpl; congruence).
    by rewrite filter_nil, app_nil_r.
Qed.

(** Only [upsert_user] writes to the users table. *)
Lemma exec_users r db :
  (∀ tg_id username full_name financiers now,
     r ≠ UpsertUser tg_id username full_name financiers now) →
  users (exec r db) = users db.
Proof.
  intros Hr.
  destruct r as [tg un fn fin now|title total creator now|cid uid mark now
                 | | | | | | | | ]; cbn [exec]; try done.
  - by destruct (Hr tg un fn fin now).
  - by rewrite create_campaign_eq.
  - rewrite toggle_payment_eq.
    by destruct (scalar (select_campaign_member cid uid db)).
  - rewrite close_active_campaign_eq. by destruct (head _).
  - by rewrite user_status_store.
Qed.

(** A registered user stays registered, and a coordinator stays one,
    whatever request is served. *)
Lemma financier_exec r db user_id u :
  (get_user user_id db).1 = Some u →
  ∃ u', (get_user user_id (exec r db)).1 = Some u'
        ∧ (User.is_financier u = true → User.is_financier u' = true).
Proof.
  intros Hu.
  destruct r as [tg un fn fin now| | | | | | | | | | ];
    try (exists u; split; [|done]; rewrite get_user_eq in *; cbn [fst] in *;
         unfold select_user in *; by rewrite exec_users by done).
  cbn [exec]. destruct (decide (user_id = tg)) as [->|Hne].
  - destruct (upsert_user_existing db tg u un fn fin now Hu) as [_ Hget].
    eexists. split; [apply Hget|]. simpl. intros ->. by case_bool_decide.
  - exists u. by rewrite upsert_user_other.
Qed.

Lemma financier_run rs db user_id u :
  (get_user user_id db).1 = Some u →
  ∃ u', (get_user user_id (run rs db)).1 = Some u'
        ∧ (User.is_financier u = true → User.is_financier u' = true).
Proof.
  revert db u. induction rs as [|r rs IH]; intros db u Hu; [by exists u|].
  destruct (financier_exec r db user_id u Hu) as (u1 & Hu1 & H1).
  destruct (IH _ _ Hu1) as (u2 & Hu2 & H2).
  exists u2. split; [done|]. auto.
Qed.

(** C6: name write-once.  For a user who is not yet registered, or whose
    stored name is absent or empty, registering with no name, then with
    "Alice", then with "Bob" leaves the name "Alice" after the second
    call and still "Alice" after the third.  In general, on an existing
    user the call stores the supplied name exactly when that name is
    non-empty and the stored one is absent or empty, and keeps the stored
    name otherwise. *)
Theorem upsert_user_name_write_once db tg_id un1 un2 un3 f1 f2 f3 t1 t2 t3 :
  truthy ((get_user tg_id db).1 ≫= User.full_name) = false →
  let r1 := upsert_user tg_id un1 None f1 t1 db in
  let r2 := upsert_user tg_id un2 (Some "Alice"%string) f2 t2 r1.2 in
  let r3 := upsert_user tg_id un3 (Some "Bob"%string) f3 t3 r2.2 in
  (User.full_name r2.1 = Some "Alice"%string ∧ (get_user tg_id r2.2).1 = Some r2.1)
  ∧ (User.full_name r3.1 = Some "Alice"%string ∧ (get_user tg_id r3.2).1 = Some r3.1)
  ∧ ∀ db0 u username full_name financiers now,
      (get_user tg_id db0).1 = Some u →
      let r := upsert_user tg_id username full_name financiers now db0 in
      (get_user tg_id r.2).1 = Some r.1
      ∧ User.full_name r.1 =
          if truthy full_name && negb (truthy (User.full_name u))
          then full_name else User.full_name u.
Proof.
  intros Hunnamed. cbv zeta.
  assert (∃ u1, (upsert_user tg_id un1 None f1 t1 db).1 = u1
                ∧ (get_user tg_id (upsert_user tg_id un1 None f1 t1 db).2).1 = Some u1
                ∧ truthy (User.full_name u1) = false) as (u1 & _ & Hget1 & Hn1).
  { destruct (get_user tg_id db).1 as [u|] eqn:Hu.
    - destruct (upsert_user_existing db tg_id u un1 None f1 t1 Hu) as [E1 E2].
      eexists. split; [apply E1|]. split; [apply E2|]. done.
    - destruct (upsert_user_new db tg_id un1 None f1 t1 Hu) as [E1 E2].
      eexists. split; [apply E1|]. split; [apply E2|]. done. }
  destruct (upsert_user_existing _ tg_id u1 un2 (Some "Alice"%string) f2 t2 Hget1)
    as [E2 Hget2].
  rewrite Hn1 in E2, Hget2. cbn [truthy String.eqb negb andb] in E2, Hget2.
  destruct (upsert_user_existing _ tg_id _ un3 (Some "Bob"%string) f3 t3 Hget2)
    as [E3 Hget3].
  cbn [truthy String.eqb negb andb User.full_name] in E3, Hget3.
  split. { rewrite Hget2, E2. done. }
  split. { rewrite Hget3, E3. done. }
  intros db0 u username full_name financiers now Hu.
  destruct (upsert_user_existing db0 tg_id u username full_name financiers now Hu)
    as [E Hget].
  by rewrite Hget, E.
Qed.

Lemma upsert_user_name_write_once_witness :
  truthy ((get_user 7 roster4).1 ≫= User.full_name) = false
  ∧ let r1 := upsert_user 7 (Some "al"%string) None {[1]} 30 roster4 in
    let r2 := upsert_user 7 (Some "al"%string) (Some "Alice"%string) {[1]} 31 r1.2 in
    let r3 := upsert_user 7 None (Some "Bob"%string) {[1]} 32 r2.2 in
    (User.full_name r2.1 = Some "Alice"%string ∧ (get_user 7 r2.2).1 = Some r2.1)
    ∧ (User.full_name r3.1 = Some "Alice"%string ∧ (get_user 7 r3.2).1 = Some r3.1)
    ∧ ∀ db0 u username full_name financiers now,
        (get_user 7 db0).1 = Some u →
        let r := upsert_user 7 username full_name financiers now db0 in
        (get_user 7 r.2).1 = Some r.1
        ∧ User.full_name r.1 =
            if truthy full_name && negb (truthy (User.full_name u))
            then full_name else User.full_name u.
Proof.
  split; [vm_compute; reflexivity|].
  apply (upsert_user_name_write_once roster4 7 (Some "al"%string) (Some "al"%string)
           None {[1]} {[1]} {[1]} 30 31 32).
  vm_compute. reflexivity.
Defined.

(** A stored name is kept even against a later non-empty one. *)
Example upsert_user_keeps_bob :
  User.full_name (upsert_user 2 None (Some "Robert"%string) ∅ 40 roster4).1
  = Some "Bob"%string.
Proof. vm_compute. reflexivity. Qed.

(** C7: promotion only.  On an existing user the call sets the
    coordinator flag to true when the identifier is in the supplied set
    and leaves it as it was otherwise; and after any sequence of requests
    (registrations included) the user is still registered and a flag that
    was true is still true. *)
Theorem upsert_user_promotion_only db tg_id u :
  (get_user tg_id db).1 = Some u →
  (∀ username full_name financiers now,
     let r := upsert_user tg_id username full_name financiers now db in
     (get_user tg_id r.2).1 = Some r.1
     ∧ User.is_financier r.1 =
         if bool_decide (tg_id ∈ financiers) then true else User.is_financier u)
  ∧ ∀ rs, ∃ u', (get_user tg_id (run rs db)).1 = Some u'
                ∧ (User.is_financier u = true → User.is_financier u' = true).
Proof.
  intros Hu. split.
  - intros username full_name financiers now.
    destruct (upsert_user_existing db tg_id u username full_name financiers now Hu)
      as [E Hget].
    cbv zeta. by rewrite Hget, E.
  - intros rs. by apply financier_run.
Qed.

Lemma upsert_user_promotion_only_witness :
  (get_user 1 roster4).1 = Some (User.mk 1 (Some "fin"%string) None true 11)
  ∧ (∀ username full_name financiers now,
       let r := upsert_user 1 username full_name financiers now roster4 in
       (get_user 1 r.2).1 = Some r.1
       ∧ User.is_financier r.1 =
           if bool_decide (1 ∈ financiers) then true else true)
  ∧ ∀ rs, ∃ u', (get_user 1 (run rs roster4)).1 = Some u'
                ∧ (true = true → User.is_financier u' = true).
Proof.
  assert ((get_user 1 roster4).1 = Some (User.mk 1 (Some "fin"%string) None true 11))
    as Hu by (vm_compute; reflexivity).
  split; [done|].
  apply (upsert_user_promotion_only roster4 1 _ Hu).
Defined.

(** A coordinator registering again with an empty coordinator set keeps
    the flag. *)
Example upsert_user_keeps_flag :
  User.is_financier (upsert_user 1 None None ∅ 40 roster4).1 = true.
Proof. vm_compute. reflexivity. Qed.

(** C10: on an existing user the call stores the supplied handle whatever
    the stored one was; a call carrying no handle leaves the stored handle
    absent. *)
Theorem upsert_user_overwrites_username db tg_id u :
  (get_user tg_id db).1 = Some u →
  (∀ username full_name financiers now,
     let r := upsert_user tg_id username full_name financiers now db in
     (get_user tg_id r.2).1 = Some r.1 ∧ User.username r.1 = username)
  ∧ ∀ full_name financiers now,
      User.username <$> (get_user tg_id
         (upsert_user tg_id None full_name financiers now db).2).1 = Some None.
Proof.
  intros Hu. split.
  - intros username full_name financiers now.
    destruct (upsert_user_existing db tg_id u username full_name financiers now Hu)
      as [E Hget].
    cbv zeta. by rewrite Hget, E.
  - intros full_name financiers now.
    destruct (upsert_user_existing db tg_id u None full_name financiers now Hu)
      as [_ Hget].
    by rewrite Hget.
Qed.

Lemma upsert_user_overwrites_username_witness :
  (get_user 2 roster4).1 = Some (User.mk 2 (Some "bob"%string) (Some "Bob"%string) false 12)
  ∧ (∀ username full_name financiers now,
       let r := upsert_user 2 username full_name financiers now roster4 in
       (get_user 2 r.2).1 = Some r.1 ∧ User.username r.1 = username)
  ∧ ∀ full_name financiers now,
      User.username <$> (get_user 2
         (upsert_user 2 None full_name financiers now roster4).2).1 = Some None.
Proof.
  assert ((get_user 2 roster4).1
          = Some (User.mk 2 (Some "bob"%string) (Some "Bob"%string) false 12)) as Hu
    by (vm_compute; reflexivity).
  split; [done|].
  apply (upsert_user_overwrites_username roster4 2 _ Hu).
Defined.

(** ** Aggregates and the end-to-end scenario *)

Lemma campaign_stats_consistent campaign_id db :
  let '(total, paid, unpaid, _) := campaign_stats campaign_id db in
  paid + unpaid = total.
Proof. unfold campaign_stats. session. lia. Qed.

(** Scenario 8 of the specification: A creates "Trip" for 300, B pays,
    the campaign is closed. *)
Example end_to_end_scenario :
  let r1 := create_campaign "Trip" 300 1 10 roster_abc in
  let r2 := toggle_payment (Campaign.id r1.1.1.1) 2 true 11 r1.2 in
  let r3 := close_active_campaign r2.2 in
  r1.1.1.2 = [2; 3] ∧ r1.1.2 = 150
  ∧ r2.1 = true
  ∧ (campaign_stats (Campaign.id r1.1.1.1) r2.2).1 = (2, 1, 1)
  ∧ (list_paid_unpaid (Campaign.id r1.1.1.1) r2.2).1 = ([2], [3])
  ∧ r3.1 = true
  ∧ (get_active_campaign r3.2).1 = None.
Proof. repeat split; vm_compute; reflexivity. Qed.

(** * Further properties of the layer *)

(** ** An UPDATE by a unique key rewrites one row *)

Lemma replace_unique {A} (key : A → Z) (l : list A) (x x' : A) :
  NoDup (key <$> l) → x ∈ l →
  ∃ l1 l2, l = l1 ++ x :: l2
           ∧ (λ r, if decide (key r = key x) then x' else r) <$> l = l1 ++ x' :: l2.
Proof.
  intros Hnd Hx. apply list_elem_of_split in Hx as (l1 & l2 & ->).
  exists l1, l2. split; [done|].
  rewrite fmap_app, fmap_cons in Hnd.
  apply NoDup_app in Hnd as (_ & Hl1 & Hnd). apply NoDup_cons in Hnd as [Hl2 _].
  assert (∀ l' : list A, key x ∉ key <$> l' →
            (λ r, if decide (key r = key x) then x' else r) <$> l' = l') as Hid.
  { intros l' Hl'. induction l' as [|a l' IH]; [done|].
    rewrite fmap_cons in Hl'. apply not_elem_of_cons in Hl' as [Ha Hl'].
    rewrite fmap_cons, IH by done. by rewrite decide_False by done. }
  rewrite fmap_app, fmap_cons, decide_True by done.
  rewrite !Hid; [done|done|].
  intros Hin. by apply (Hl1 (key x)); [|left].
Qed.

Lemma toggle_payment_row db campaign_id user_id mark now cm :
  db_wf db → scalar (select_campaign_member campaign_id user_id db) = Some cm →
  ∃ l1 l2,
    campaign_members db = l1 ++ cm :: l2
    ∧ toggle_payment campaign_id user_id mark now db =
      (true, mkDB (users db) (campaigns db)
               (l1 ++ CampaignMember.mk (CampaignMember.id cm) campaign_id user_id
                        mark (if mark then Some now else None) :: l2)
               (campaigns_id_seq db) (campaign_members_id_seq db)).
Proof.
  intros (_ & _ & _ & HM & _) Hcm.
  assert (cm ∈ campaign_members db) as Hin.
  { apply scalar_Some_elem in Hcm. unfold select_campaign_member in Hcm.
    by apply list_elem_of_filter in Hcm as [_ ?]. }
  destruct (replace_unique CampaignMember.id _ cm
              (CampaignMember.mk (CampaignMember.id cm) campaign_id user_id
                 mark (if mark then Some now else None)) HM Hin)
    as (l1 & l2 & Hl & Hmap).
  exists l1, l2. split; [done|].
  rewrite toggle_payment_eq, Hcm. cbv zeta. by rewrite Hmap.
Qed.

Lemma replace_at {A} (key : A → Z) (l1 l2 : list A) (x x' : A) :
  NoDup (key <$> (l1 ++ x :: l2)) →
  (λ r, if decide (key r = key x) then x' else r) <$> (l1 ++ x :: l2) = l1 ++ x' :: l2.
Proof.
  intros Hnd. rewrite fmap_app, fmap_cons in Hnd.
  apply NoDup_app in Hnd as (_ & Hl1 & Hnd). apply NoDup_cons in Hnd as [Hl2 _].
  rewrite fmap_app, fmap_cons, decide_True by done. f_equal; [|f_equal].
  - rewrite <- (list_fmap_id l1) at 2. apply list_fmap_ext. intros i r Hr.
    rewrite decide_False; [done|]. intros E. apply (Hl1 (key r)).
    + apply list_elem_of_fmap. exists r. split; [done|]. by eapply list_elem_of_lookup_2.
    + rewrite E. left.
  - rewrite <- (list_fmap_id l2) at 2. apply list_fmap_ext. intros i r Hr.
    rewrite decide_False; [done|]. intros E. apply Hl2. rewrite <- E.
    apply list_elem_of_fmap. exists r. split; [done|]. by eapply list_elem_of_lookup_2.
Qed.

Lemma select_campaign_member_at db campaign_id user_id l1 m l2 :
  campaign_members db = l1 ++ m :: l2 →
  NoDup (member_key <$> campaign_members db) →
  member_key m = (campaign_id, user_id) →
  scalar (select_campaign_member campaign_id user_id db) = Some m.
Proof.
  intros Hl Hnd Hkey. unfold scalar, select_campaign_member. rewrite Hl in *.
  rewrite fmap_app, fmap_cons in Hnd. apply NoDup_app in Hnd as (_ & Hl1 & _).
  unfold member_key in Hkey. simplify_eq.
  rewrite filter_app, filter_cons_True by done.
  rewrite filter_none; [done|]. apply Forall_forall. intros r Hr [E1 E2].
  apply (Hl1 (member_key r)).
  - apply list_elem_of_fmap. by exists r.
  - unfold member_key. rewrite E1, E2. left.
Qed.

Lemma toggle_payment_at db campaign_id user_id mark now l1 m l2 :
  campaign_members db = l1 ++ m :: l2 →
  NoDup (CampaignMember.id <$> campaign_members db) →
  NoDup (member_key <$> campaign_members db) →
  member_key m = (campaign_id, user_id) →
  toggle_payment campaign_id user_id mark now db
  = (true, mkDB (users db) (campaigns db)
             (l1 ++ CampaignMember.mk (CampaignMember.id m) campaign_id user_id
                      mark (if mark then Some now else None) :: l2)
             (campaigns_id_seq db) (campaign_members_id_seq db)).
Proof.
  intros Hl Hid Hkeys Hkey.
  rewrite toggle_payment_eq,
    (select_campaign_member_at db campaign_id user_id l1 m l2) by done.
  cbv zeta. rewrite Hl in *. by rewrite (replace_at CampaignMember.id).
Qed.

(** C5: in a store that satisfies its key constraints, for every
    (campaign_id, user_id) pair: if no membership row is stored for the
    pair, toggle_payment returns false and leaves the store as it was;
    if a row [m] is stored for it, toggle_payment returns true and the
    store differs only in that row, which keeps its key and now has
    paid = mark and the paid timestamp [now] when mark is true, absent
    when mark is false, whatever [m] held before.  Repeating the call
    with the same mark (at [now2]) returns true again and leaves
    paid = mark with the timestamp refreshed to [now2], or still absent. *)
Theorem toggle_payment_stored_row db campaign_id user_id mark now :
  db_wf db → db_refs db →
  ((∀ m, m ∈ campaign_members db → member_key m ≠ (campaign_id, user_id)) →
   toggle_payment campaign_id user_id mark now db = (false, db))
  ∧ ∀ m, m ∈ campaign_members db → member_key m = (campaign_id, user_id) →
      let stamped t :=
        CampaignMember.mk (CampaignMember.id m) campaign_id user_id mark
          (if mark then Some t else None) in
      let db_with row l1 l2 :=
        mkDB (users db) (campaigns db) (l1 ++ row :: l2)
          (campaigns_id_seq db) (campaign_members_id_seq db) in
      ∃ l1 l2,
        campaign_members db = l1 ++ m :: l2
        ∧ toggle_payment campaign_id user_id mark now db
          = (true, db_with (stamped now) l1 l2)
        ∧ ∀ now2,
            toggle_payment campaign_id user_id mark now2 (db_with (stamped now) l1 l2)
            = (true, db_with (stamped now2) l1 l2).
Proof.
  intros (_ & _ & _ & Hid & _) (Hkeys & _). split.
  - intros Hnone. rewrite toggle_payment_eq.
    unfold scalar, select_campaign_member. rewrite filter_none; [done|].
    apply Forall_forall. intros r Hr [E1 E2]. apply (Hnone r Hr).
    unfold member_key. by rewrite E1, E2.
  - intros m Hm Hkey. cbv zeta.
    apply list_elem_of_split in Hm as (l1 & l2 & Hl). exists l1, l2.
    split; [done|]. split; [by apply toggle_payment_at|]. intros now2.
    rewrite Hl in Hid, Hkeys.
    rewrite (toggle_payment_at _ campaign_id user_id mark now2 l1
               (CampaignMember.mk (CampaignMember.id m) campaign_id user_id mark
                  (if mark then Some now else None)) l2); store; try done.
    + by rewrite fmap_app, fmap_cons in *.
    + rewrite fmap_app, fmap_cons in *. unfold member_key at 2. simpl.
      by rewrite <- Hkey.
Qed.

Lemma toggle_payment_stored_row_witness :
  let m := CampaignMember.mk 1 1 2 false None in
  let stamped t := CampaignMember.mk 1 1 2 true (Some t) in
  let db_with row l1 l2 :=
    mkDB (users one_active) (campaigns one_active) (l1 ++ row :: l2)
      (campaigns_id_seq one_active) (campaign_members_id_seq one_active) in
  db_wf one_active ∧ db_refs one_active
  ∧ m ∈ campaign_members one_active
  ∧ toggle_payment 1 9 true 30 one_active = (false, one_active)
  ∧ ∃ l1 l2,
      campaign_members one_active = l1 ++ m :: l2
      ∧ toggle_payment 1 2 true 30 one_active = (true, db_with (stamped 30) l1 l2)
      ∧ ∀ now2,
          toggle_payment 1 2 true now2 (db_with (stamped 30) l1 l2)
          = (true, db_with (stamped now2) l1 l2).
Proof.
  intros m stamped db_with.
  assert (db_wf one_active) as Hwf
    by (apply (bool_decide_unpack _); vm_compute; exact I).
  assert (db_refs one_active) as Hrefs
    by (apply (bool_decide_unpack _); vm_compute; exact I).
  assert (m ∈ campaign_members one_active) as Hm
    by (apply (bool_decide_unpack _); vm_compute; exact I).
  assert (∀ r, r ∈ campaign_members one_active → member_key r ≠ (1, 9)) as Hnone.
  { apply Forall_forall. apply (bool_decide_unpack _). vm_compute. exact I. }
  split; [done|]. split; [done|]. split; [done|]. split.
  - apply (proj1 (toggle_payment_stored_row one_active 1 9 true 30 Hwf Hrefs) Hnone).
  - apply (proj2 (toggle_payment_stored_row one_active 1 2 true 30 Hwf Hrefs) m Hm).
    reflexivity.
Defined.

Lemma close_active_campaign_row db c :
  db_wf db → (get_active_campaign db).1 = Some c →
  ∃ l1 l2,
    campaigns db = l1 ++ c :: l2
    ∧ close_active_campaign db =
      (true, mkDB (users db) (l1 ++ Campaign.set_is_active false c :: l2)
               (campaign_members db) (campaigns_id_seq db)
               (campaign_members_id_seq db)).
Proof.
  intros Hwf Hget.
  pose proof (get_active_campaign_Some _ _ Hget) as (Hc & _).
  destruct Hwf as (_ & HC & _).
  destruct (replace_unique Campaign.id _ c (Campaign.set_is_active false c) HC Hc)
    as (l1 & l2 & Hl & Hmap).
  exists l1, l2. split; [done|].
  rewrite close_active_campaign_eq.
  rewrite get_active_campaign_eq in Hget. cbn [fst] in Hget. rewrite Hget.
  by rewrite Hmap.
Qed.

(** ** The constraints between the tables are preserved *)

Lemma member_rows_key cid seq uids :
  member_key <$> member_rows cid seq uids = (λ uid, (cid, uid)) <$> uids.
Proof.
  revert seq. induction uids as [|uid uids IH]; intros seq; [done|].
  simpl. by rewrite IH.
Qed.

Lemma member_rows_length cid seq uids :
  length (member_rows cid seq uids) = length uids.
Proof. by rewrite <- (member_rows_user_id cid seq uids) at 2; rewrite length_fmap. Qed.

Lemma filter_member_rows_same cid seq uids :
  filter (λ m, CampaignMember.campaign_id m = cid) (member_rows cid seq uids)
  = member_rows cid seq uids.
Proof.
  revert seq. induction uids as [|uid uids IH]; intros seq; [done|].
  simpl. rewrite filter_cons_True by done. by rewrite IH.
Qed.

Lemma filter_member_rows_other cid cid' seq uids :
  cid ≠ cid' →
  filter (λ m, CampaignMember.campaign_id m = cid') (member_rows cid seq uids) = [].
Proof.
  intros Hne. revert seq. induction uids as [|uid uids IH]; intros seq; [done|].
  simpl. rewrite filter_cons_False by done. apply IH.
Qed.

Lemma participants_NoDup db creator_id :
  db_wf db →
  NoDup (filter (λ uid, uid ≠ creator_id) (merge_sort Z.le (User.id <$> users db))).
Proof.
  intros (HU & _). apply NoDup_filter. by rewrite (merge_sort_Permutation Z.le).
Qed.

Lemma participants_registered db creator_id uid :
  uid ∈ filter (λ uid, uid ≠ creator_id) (merge_sort Z.le (User.id <$> users db)) →
  uid ∈ User.id <$> users db.
Proof.
  intros [_ H]%list_elem_of_filter. by rewrite (merge_sort_Permutation Z.le) in H.
Qed.

Lemma campaign_id_issued db cid :
  db_wf db → cid ∈ Campaign.id <$> campaigns db → cid ≤ campaigns_id_seq db.
Proof.
  intros (_ & _ & HCs & _) (c & -> & Hc)%list_elem_of_fmap.
  rewrite Forall_forall in HCs. by apply HCs.
Qed.

Lemma members_of_unissued db cid :
  db_wf db → db_refs db → campaigns_id_seq db < cid → members_of cid db = [].
Proof.
  intros Hwf [_ HF] Hcid. unfold members_of.
  apply filter_none. rewrite Forall_forall in HF |- *.
  intros m Hm Hmc. destruct (HF m Hm) as [Hc _].
  apply (campaign_id_issued db _ Hwf) in Hc. lia.
Qed.

Lemma exec_refs r db : db_wf db → db_refs db → db_refs (exec r db).
Proof.
  intros Hwf [HK HF].
  destruct r as [tg un fn fin now|title total creator now|cid uid mark now
                 | | | | | | | | ]; cbn [exec]; try (by split).
  - rewrite upsert_user_eq.
    destruct (scalar (select_user tg db)) as [u|] eqn:E; unfold db_refs; store.
    + split; [done|]. by rewrite (fmap_replace_key User.id).
    + split; [done|]. eapply Forall_impl; [apply HF|]. simpl.
      intros m [? ?]. split; [done|]. rewrite fmap_app. apply elem_of_app. by left.
  - rewrite create_campaign_eq. unfold db_refs; store.
    set (ids := filter _ _). split.
    + rewrite fmap_app, member_rows_key. apply NoDup_app. split; [done|]. split.
      * intros k (m & -> & Hm)%list_elem_of_fmap (uid & Hk & _)%list_elem_of_fmap.
        rewrite Forall_forall in HF. destruct (HF m Hm) as [Hc _].
        apply (campaign_id_issued db _ Hwf) in Hc.
        unfold member_key in Hk. simplify_eq. lia.
      * apply NoDup_fmap_2; [|by apply participants_NoDup].
        intros ???. by simplify_eq.
    + apply Forall_app. split.
      * eapply Forall_impl; [apply HF|]. simpl.
        intros m [? ?]. split; [|done]. rewrite fmap_app. apply elem_of_app. by left.
      * rewrite Forall_forall. intros m Hm. split.
        -- pose proof (member_rows_fresh (campaigns_id_seq db + 1)
                         (campaign_members_id_seq db) ids) as Hfresh.
           rewrite Forall_forall in Hfresh. destruct (Hfresh m Hm) as [-> _].
           rewrite fmap_app. apply elem_of_app. right. simpl. left.
        -- apply (participants_registered db creator).
           fold ids. rewrite <- (member_rows_user_id (campaigns_id_seq db + 1)
                                   (campaign_members_id_seq db) ids).
           by apply list_elem_of_fmap_2.
  - destruct (scalar (select_campaign_member cid uid db)) as [cm|] eqn:E.
    2:{ rewrite toggle_payment_eq, E. by split. }
    destruct (toggle_payment_row db cid uid mark now cm Hwf E) as (l1 & l2 & Hl & ->).
    pose proof (select_campaign_member_key _ _ _ _ E) as [Hc Hu].
    unfold db_refs; store. rewrite Hl in HK, HF.
    rewrite fmap_app, fmap_cons in HK |- *. split.
    + unfold member_key at 2. simpl. unfold member_key at 2 in HK.
      by rewrite Hc, Hu in HK.
    + apply Forall_app in HF as [HF1 HF2]. apply Forall_cons in HF2 as [Hcm HF2].
      apply Forall_app. split; [done|]. apply Forall_cons. split; [|done].
      simpl. by rewrite Hc, Hu in Hcm.
  - rewrite close_active_campaign_eq.
    destruct (head (merge_sort id_desc (active_campaigns db))) as [c|] eqn:E;
      [|by split].
    unfold db_refs; store. split; [done|].
    by rewrite (fmap_replace_key Campaign.id).
  - rewrite user_status_store. by split.
Qed.

Lemma filter_length_replace {A} (P : A → Prop) `{!∀ x, Decision (P x)}
    (l1 l2 : list A) (x x' : A) :
  (P x ↔ P x') →
  length (filter P (l1 ++ x' :: l2)) = length (filter P (l1 ++ x :: l2)).
Proof.
  intros HP. rewrite !filter_app, !filter_cons, !length_app.
  destruct (decide (P x)), (decide (P x')); tauto || done.
Qed.

Lemma exec_shares r db : db_wf db → db_refs db → db_shares db → db_shares (exec r db).
Proof.
  intros Hwf Hrefs HS.
  destruct r as [tg un fn fin now|title total creator now|cid uid mark now
                 | | | | | | | | ]; cbn [exec]; try done.
  - rewrite upsert_user_eq. by destruct (scalar (select_user tg db)).
  - rewrite create_campaign_eq. unfold db_shares, members_of in *; store.
    set (ids := filter _ (merge_sort _ _)).
    apply Forall_app. split.
    + rewrite Forall_forall in HS |- *. intros c Hc. specialize (HS c Hc).
      assert (Campaign.id c ≤ campaigns_id_seq db) as Hle
        by (apply (campaign_id_issued db); [done|by apply list_elem_of_fmap_2]).
      rewrite filter_app, filter_member_rows_other, app_nil_r by lia. done.
    + apply Forall_singleton. simpl.
      rewrite filter_app, filter_member_rows_same.
      pose proof (members_of_unissued db (campaigns_id_seq db + 1) Hwf Hrefs
                    ltac:(lia)) as Hnone.
      unfold members_of in Hnone. rewrite Hnone. simpl.
      by rewrite member_rows_length.
  - destruct (scalar (select_campaign_member cid uid db)) as [cm|] eqn:E.
    2:{ by rewrite toggle_payment_eq, E. }
    destruct (toggle_payment_row db cid uid mark now cm Hwf E) as (l1 & l2 & Hl & ->).
    pose proof (select_campaign_member_key _ _ _ _ E) as [Hc Hu].
    unfold db_shares, members_of in *; store. rewrite Hl in HS.
    eapply Forall_impl; [apply HS|]. intros c. cbv zeta.
    by rewrite (filter_length_replace _ l1 l2 cm) by (simpl; by rewrite Hc).
  - destruct (get_active_campaign db).1 as [c|] eqn:E.
    2:{ rewrite close_active_campaign_eq.
        rewrite get_active_campaign_eq in E. cbn [fst] in E. by rewrite E. }
    destruct (close_active_campaign_row db c Hwf E) as (l1 & l2 & Hl & ->).
    unfold db_shares, members_of in *; store. rewrite Hl in HS.
    apply Forall_app in HS as [HS1 HS2]. apply Forall_cons in HS2 as [Hc HS2].
    apply Forall_app. split; [done|]. by apply Forall_cons.
  - by rewrite user_status_store.
Qed.

Lemma exec_store_ok r db : store_ok db → store_ok (exec r db).
Proof.
  intros (Hwf & Hrefs & HS). split; [by apply exec_wf|].
  split; [by apply exec_refs|by apply exec_shares].
Qed.

Lemma run_store_ok rs db : store_ok db → store_ok (run rs db).
Proof.
  revert db. induction rs as [|r rs IH]; intros db H; [done|].
  simpl. by apply IH, exec_store_ok.
Qed.

Lemma reachable_store_ok db : reachable db → store_ok db.
Proof.
  induction 1 as [|r db _ IH]; [|by apply exec_store_ok].
  split; [by apply reachable_wf; constructor|].
  split; [split; simpl; constructor|]. unfold db_shares. simpl. constructor.
Qed.

(** ** Invariants of reachable stores *)

Lemma reachable_two_active : reachable two_active.
Proof. unfold two_active, roster4. do 2 apply reachable_run. constructor. Qed.

(** X1: a store built from the empty one by any sequence of requests
    satisfies the key constraints of the schema: the three primary keys
    are unique, no two membership rows share (campaign_id, user_id), and
    every membership row refers to a stored campaign and a stored user. *)
Theorem reachable_schema_constraints db :
  reachable db →
  NoDup (User.id <$> users db)
  ∧ NoDup (Campaign.id <$> campaigns db)
  ∧ NoDup (CampaignMember.id <$> campaign_members db)
  ∧ NoDup (member_key <$> campaign_members db)
  ∧ ∀ m, m ∈ campaign_members db →
         (∃ c, c ∈ campaigns db ∧ Campaign.id c = CampaignMember.campaign_id m)
         ∧ (∃ u, u ∈ users db ∧ User.id u = CampaignMember.user_id m).
Proof.
  intros ((HU & HC & _ & HM & _) & (HK & HF) & _)%reachable_store_ok.
  repeat (split; [done|]).
  intros m Hm. rewrite Forall_forall in HF. destruct (HF m Hm) as [Hc Hu].
  apply list_elem_of_fmap in Hc as (c & ? & ?), Hu as (u & ? & ?).
  split; [by exists c|by exists u].
Qed.

Lemma reachable_schema_constraints_witness :
  reachable two_active
  ∧ NoDup (User.id <$> users two_active)
  ∧ NoDup (Campaign.id <$> campaigns two_active)
  ∧ NoDup (CampaignMember.id <$> campaign_members two_active)
  ∧ NoDup (member_key <$> campaign_members two_active)
  ∧ ∀ m, m ∈ campaign_members two_active →
         (∃ c, c ∈ campaigns two_active ∧ Campaign.id c = CampaignMember.campaign_id m)
         ∧ (∃ u, u ∈ users two_active ∧ User.id u = CampaignMember.user_id m).
Proof.
  split; [apply reachable_two_active|].
  apply (reachable_schema_constraints two_active reachable_two_active).
Defined.

(** X2: in every reachable store each campaign's stored per_user_amount
    is the ceiling of its total_amount over n = max(number of its
    membership rows, 1): per_user_amount × n ≥ total_amount and
    (per_user_amount − 1) × n < total_amount.  No later request breaks
    the link between a share and the size of its membership. *)
Theorem reachable_share_is_ceiling db c :
  reachable db → c ∈ campaigns db →
  let n := Z.max (Z.of_nat (length (members_of (Campaign.id c) db))) 1 in
  Campaign.per_user_amount c * n >= Campaign.total_amount c
  ∧ (Campaign.per_user_amount c - 1) * n < Campaign.total_amount c.
Proof.
  intros (_ & _ & HS)%reachable_store_ok Hc. cbv zeta.
  unfold db_shares in HS. rewrite Forall_forall in HS. specialize (HS c Hc).
  cbv zeta in HS. rewrite HS.
  set (n := Z.max _ 1). assert (1 ≤ n) as Hn by lia.
  pose proof (Z.mul_div_le (Campaign.total_amount c + n - 1) n ltac:(lia)).
  pose proof (Z.mul_succ_div_gt (Campaign.total_amount c + n - 1) n ltac:(lia)).
  lia.
Qed.

Lemma reachable_share_is_ceiling_witness :
  let c := Campaign.mk 2 "Gift" 100 34 1 true 21 in
  reachable two_active ∧ c ∈ campaigns two_active
  ∧ let n := Z.max (Z.of_nat (length (members_of (Campaign.id c) two_active))) 1 in
    Campaign.per_user_amount c * n >= Campaign.total_amount c
    ∧ (Campaign.per_user_amount c - 1) * n < Campaign.total_amount c.
Proof.
  intros c.
  assert (c ∈ campaigns two_active) as Hc
    by (apply (bool_decide_unpack _); vm_compute; exact I).
  split; [apply reachable_two_active|]. split; [done|].
  apply (reachable_share_is_ceiling two_active c reachable_two_active Hc).
Defined.

Lemma exec_campaigns_id_seq r db : campaigns_id_seq db ≤ campaigns_id_seq (exec r db).
Proof.
  destruct r as [tg un fn fin now|title total creator now|cid uid mark now
                 | | | | | | | | ]; cbn [exec]; try done.
  - rewrite upsert_user_eq. by destruct (scalar (select_user tg db)).
  - rewrite create_campaign_eq. store. lia.
  - rewrite toggle_payment_eq.
    by destruct (scalar (select_campaign_member cid uid db)).
  - rewrite close_active_campaign_eq. by destruct (head _).
  - by rewrite user_status_store.
Qed.

Lemma exec_members_of_users r db cid :
  store_ok db → cid ≤ campaigns_id_seq db →
  CampaignMember.user_id <$> members_of cid (exec r db)
  = CampaignMember.user_id <$> members_of cid db.
Proof.
  intros (Hwf & Hrefs & _) Hcid.
  destruct r as [tg un fn fin now|title total creator now|cid' uid mark now
                 | | | | | | | | ]; cbn [exec]; try done.
  - rewrite upsert_user_eq. by destruct (scalar (select_user tg db)).
  - rewrite create_campaign_eq. unfold members_of; store.
    by rewrite filter_app, filter_member_rows_other, app_nil_r by lia.
  - destruct (scalar (select_campaign_member cid' uid db)) as [cm|] eqn:E.
    2:{ by rewrite toggle_payment_eq, E. }
    destruct (toggle_payment_row db cid' uid mark now cm Hwf E) as (l1 & l2 & Hl & ->).
    pose proof (select_campaign_member_key _ _ _ _ E) as [Hc Hu].
    unfold members_of; store. rewrite Hl.
    rewrite !filter_app, !filter_cons. simpl. rewrite Hc.
    destruct (decide (cid' = cid)); [|done].
    by rewrite !fmap_app, !fmap_cons, Hu.
  - rewrite close_active_campaign_eq. by destruct (head _).
  - by rewrite user_status_store.
Qed.

Lemma members_of_users_run db cid rs :
  store_ok db → cid ≤ campaigns_id_seq db →
  CampaignMember.user_id <$> members_of cid (run rs db)
  = CampaignMember.user_id <$> members_of cid db.
Proof.
  revert db. induction rs as [|r rs IH]; intros db Hok Hcid; [done|].
  simpl. rewrite IH.
  - by apply exec_members_of_users.
  - by apply exec_store_ok.
  - pose proof (exec_campaigns_id_seq r db). lia.
Qed.

(** X3: the participants of a campaign are fixed when it is created.
    For a campaign key that has been issued, the user identifiers of its
    membership rows are, after any sequence of requests, the same up to
    order: no request adds, removes or re-points a membership row of an
    existing campaign. *)
Theorem participants_fixed db cid rs :
  store_ok db → cid ≤ campaigns_id_seq db →
  CampaignMember.user_id <$> members_of cid (run rs db)
  ≡ₚ CampaignMember.user_id <$> members_of cid db.
Proof. intros Hok Hcid. by rewrite members_of_users_run. Qed.

Lemma participants_fixed_witness :
  store_ok one_active ∧ 1 ≤ campaigns_id_seq one_active
  ∧ CampaignMember.user_id <$> members_of 1
      (run [TogglePayment 1 3 true 40; CreateCampaign "Gift" 100 2 41;
            UpsertUser 9 None None ∅ 42; CloseActiveCampaign] one_active)
    ≡ₚ CampaignMember.user_id <$> members_of 1 one_active.
Proof.
  assert (store_ok one_active) as Hok
    by (apply (bool_decide_unpack _); vm_compute; exact I).
  assert (1 ≤ campaigns_id_seq one_active) as Hseq by (vm_compute; discriminate).
  split; [done|]. split; [done|].
  apply (participants_fixed one_active 1 _ Hok Hseq).
Defined.

Lemma exec_campaign_row r db c :
  db_wf db → c ∈ campaigns db →
  c ∈ campaigns (exec r db) ∨ Campaign.set_is_active false c ∈ campaigns (exec r db).
Proof.
  intros Hwf Hc.
  destruct r as [tg un fn fin now|title total creator now|cid uid mark now
                 | | | | | | | | ]; cbn [exec]; try (by left).
  - left. rewrite upsert_user_eq. by destruct (scalar (select_user tg db)).
  - left. rewrite create_campaign_eq. store. apply elem_of_app. by left.
  - left. rewrite toggle_payment_eq.
    by destruct (scalar (select_campaign_member cid uid db)).
  - destruct (get_active_campaign db).1 as [c0|] eqn:E.
    2:{ left. rewrite close_active_campaign_eq.
        rewrite get_active_campaign_eq in E. cbn [fst] in E. by rewrite E. }
    destruct (close_active_campaign_row db c0 Hwf E) as (l1 & l2 & Hl & ->).
    store. rewrite Hl in Hc. rewrite !elem_of_app, !elem_of_cons in *.
    destruct Hc as [?|[->|?]]; auto.
  - left. by rewrite user_status_store.
Qed.

(** X4: a campaign row is never removed and never rewritten except by
    closing it.  A row stored now is, after any sequence of requests,
    still stored either unchanged or with only its active flag turned to
    false: title, amounts, creator and creation time are immutable. *)
Theorem campaign_row_only_closes db c rs :
  db_wf db → c ∈ campaigns db →
  c ∈ campaigns (run rs db) ∨ Campaign.set_is_active false c ∈ campaigns (run rs db).
Proof.
  revert db c. induction rs as [|r rs IH]; intros db c Hwf Hc; [by left|].
  simpl. destruct (exec_campaign_row r db c Hwf Hc) as [H|H].
  - apply IH; [by apply exec_wf|done].
  - destruct (IH _ _ (exec_wf r db Hwf) H) as [H'|H']; by right.
Qed.

Lemma campaign_row_only_closes_witness :
  let c := Campaign.mk 1 "Trip" 300 100 1 true 20 in
  db_wf one_active ∧ c ∈ campaigns one_active
  ∧ (c ∈ campaigns (run [CreateCampaign "Gift" 100 2 41; CloseActiveCampaign;
                          CloseActiveCampaign] one_active)
     ∨ Campaign.set_is_active false c
         ∈ campaigns (run [CreateCampaign "Gift" 100 2 41; CloseActiveCampaign;
                           CloseActiveCampaign] one_active)).
Proof.
  intros c.
  assert (db_wf one_active) as Hwf by (apply (bool_decide_unpack _); vm_compute; exact I).
  assert (c ∈ campaigns one_active) as Hc
    by (apply (bool_decide_unpack _); vm_compute; exact I).
  split; [done|]. split; [done|].
  apply (campaign_row_only_closes one_active c _ Hwf Hc).
Defined.

(** ** Closing, counted *)

(** X5: close_active_campaign returns false exactly when no campaign is
    active, and then leaves the store as it was; when it returns true it
    closes exactly one campaign: the number of active campaigns drops by
    one, the number of campaign rows stays, and users, membership rows
    and both sequences are untouched. *)
Theorem close_active_campaign_closes_one db :
  db_wf db →
  let '(ok, db') := close_active_campaign db in
  (ok = false ↔ active_campaigns db = [])
  ∧ (ok = false → db' = db)
  ∧ (ok = true → S (length (active_campaigns db')) = length (active_campaigns db))
  ∧ length (campaigns db') = length (campaigns db)
  ∧ users db' = users db
  ∧ campaign_members db' = campaign_members db
  ∧ campaigns_id_seq db' = campaigns_id_seq db
  ∧ campaign_members_id_seq db' = campaign_members_id_seq db.
Proof.
  intros Hwf.
  destruct (get_active_campaign db).1 as [c|] eqn:E.
  - pose proof (get_active_campaign_Some _ _ E) as (Hc & Hca & _).
    assert (c ∈ active_campaigns db) as Hin by (by apply list_elem_of_filter).
    destruct (close_active_campaign_row db c Hwf E) as (l1 & l2 & Hl & ->).
    split. { split; [done|]. intros H. rewrite H in Hin. inversion Hin. }
    split; [done|]. split.
    + intros _. unfold active_campaigns in *; store. rewrite Hl in Hin |- *.
      rewrite !filter_app, !length_app.
      rewrite filter_cons_False by (simpl; congruence).
      rewrite (filter_cons_True _ c) by done. simpl. lia.
    + store. rewrite Hl, !length_app. done.
  - rewrite close_active_campaign_eq.
    pose proof (proj1 (get_active_campaign_None db) E) as Hnone.
    rewrite get_active_campaign_eq in E. cbn [fst] in E. rewrite E.
    by repeat split.
Qed.

Lemma close_active_campaign_closes_one_witness :
  db_wf two_active
  ∧ let '(ok, db') := close_active_campaign two_active in
    (ok = false ↔ active_campaigns two_active = [])
    ∧ (ok = false → db' = two_active)
    ∧ (ok = true →
       S (length (active_campaigns db')) = length (active_campaigns two_active))
    ∧ length (campaigns db') = length (campaigns two_active)
    ∧ users db' = users two_active
    ∧ campaign_members db' = campaign_members two_active
    ∧ campaigns_id_seq db' = campaigns_id_seq two_active
    ∧ campaign_members_id_seq db' = campaign_members_id_seq two_active.
Proof.
  assert (db_wf two_active) as Hwf by (apply (bool_decide_unpack _); vm_compute; exact I).
  split; [done|]. apply (close_active_campaign_closes_one two_active Hwf).
Defined.

(** ** Payments, continued *)

(** X6: marking and then unmarking a payment is a round trip.  For a
    member whose row is unpaid with no timestamp (as create_campaign
    inserts it), toggle_payment with mark = true followed by
    toggle_payment with mark = false returns true twice and restores the
    store exactly. *)
Theorem toggle_payment_mark_unmark_restores db campaign_id user_id now1 now2 cm :
  db_wf db →
  scalar (select_campaign_member campaign_id user_id db) = Some cm →
  CampaignMember.has_paid cm = false → CampaignMember.paid_at cm = None →
  let r1 := toggle_payment campaign_id user_id true now1 db in
  let r2 := toggle_payment campaign_id user_id false now2 r1.2 in
  r1.1 = true ∧ r2 = (true, db).
Proof.
  intros Hwf Hcm Hp Ht. cbv zeta.
  pose proof (select_campaign_member_key _ _ _ _ Hcm) as [Hc Hu].
  destruct (toggle_payment_found db campaign_id user_id true now1 cm Hcm) as [E1 Hget].
  rewrite E1. cbn [fst snd]. split; [done|].
  destruct (toggle_payment_found _ campaign_id user_id false now2 _ Hget) as [E2 _].
  rewrite E2. f_equal. store. cbn [CampaignMember.id].
  assert (cm ∈ campaign_members db) as Hin.
  { apply scalar_Some_elem in Hcm. unfold select_campaign_member in Hcm.
    by apply list_elem_of_filter in Hcm as [_ ?]. }
  destruct db as [us cs ms s1 s2]. store. f_equal.
  rewrite <- list_fmap_compose. rewrite <- (list_fmap_id ms) at 2.
  apply list_fmap_ext. intros i r Hr. apply list_elem_of_lookup_2 in Hr. simpl.
  destruct (decide (CampaignMember.id r = CampaignMember.id cm)) as [Hid|Hid].
  - simpl. rewrite decide_True by done.
    destruct Hwf as (_ & _ & _ & HM & _). store.
    assert (r = cm) as -> by (by apply (NoDup_fmap_eq CampaignMember.id ms)).
    destruct cm. simpl in *. by subst.
  - by rewrite decide_False.
Qed.

Lemma toggle_payment_mark_unmark_restores_witness :
  let cm := CampaignMember.mk 1 1 2 false None in
  db_wf one_active
  ∧ scalar (select_campaign_member 1 2 one_active) = Some cm
  ∧ CampaignMember.has_paid cm = false ∧ CampaignMember.paid_at cm = None
  ∧ let r1 := toggle_payment 1 2 true 30 one_active in
    let r2 := toggle_payment 1 2 false 31 r1.2 in
    r1.1 = true ∧ r2 = (true, one_active).
Proof.
  intros cm.
  assert (db_wf one_active) as Hwf by (apply (bool_decide_unpack _); vm_compute; exact I).
  assert (scalar (select_campaign_member 1 2 one_active) = Some cm) as Hcm
    by (vm_compute; reflexivity).
  split; [done|]. split; [done|]. split; [reflexivity|]. split; [reflexivity|].
  apply (toggle_payment_mark_unmark_restores one_active 1 2 30 31 cm Hwf Hcm);
    reflexivity.
Defined.

(** X7: toggle_payment rewrites one membership row only.  When the pair
    has a row, every other membership row is kept as it is, no row is
    added or removed, and the row found for any other
    (campaign_id, user_id) pair is the one found before. *)
Theorem toggle_payment_touches_one_row db campaign_id user_id mark now cm :
  db_wf db →
  scalar (select_campaign_member campaign_id user_id db) = Some cm →
  let db' := (toggle_payment campaign_id user_id mark now db).2 in
  (∀ r, r ∈ campaign_members db → r ≠ cm → r ∈ campaign_members db')
  ∧ length (campaign_members db') = length (campaign_members db)
  ∧ ∀ campaign_id' user_id',
      (campaign_id', user_id') ≠ (campaign_id, user_id) →
      scalar (select_campaign_member campaign_id' user_id' db')
      = scalar (select_campaign_member campaign_id' user_id' db).
Proof.
  intros Hwf Hcm. cbv zeta.
  pose proof (select_campaign_member_key _ _ _ _ Hcm) as [Hc Hu].
  destruct (toggle_payment_row db campaign_id user_id mark now cm Hwf Hcm)
    as (l1 & l2 & Hl & ->).
  unfold select_campaign_member; store. rewrite Hl. split.
  { intros r Hr Hne. rewrite !elem_of_app, !elem_of_cons in *.
    destruct Hr as [?|[->|?]]; auto. done. }
  split. { by rewrite !length_app. }
  intros cid' uid' Hne. rewrite !filter_app, !filter_cons_False; [done| |].
  - rewrite Hc, Hu. intros [? ?]. apply Hne. by f_equal.
  - simpl. intros [? ?]. apply Hne. by f_equal.
Qed.

Lemma toggle_payment_touches_one_row_witness :
  let cm := CampaignMember.mk 1 1 2 false None in
  db_wf one_active
  ∧ scalar (select_campaign_member 1 2 one_active) = Some cm
  ∧ let db' := (toggle_payment 1 2 true 30 one_active).2 in
    (∀ r, r ∈ campaign_members one_active → r ≠ cm → r ∈ campaign_members db')
    ∧ length (campaign_members db') = length (campaign_members one_active)
    ∧ ∀ campaign_id' user_id',
        (campaign_id', user_id') ≠ (1, 2) →
        scalar (select_campaign_member campaign_id' user_id' db')
        = scalar (select_campaign_member campaign_id' user_id' one_active).
Proof.
  intros cm.
  assert (db_wf one_active) as Hwf by (apply (bool_decide_unpack _); vm_compute; exact I).
  assert (scalar (select_campaign_member 1 2 one_active) = Some cm) as Hcm
    by (vm_compute; reflexivity).
  split; [done|]. split; [done|].
  apply (toggle_payment_touches_one_row one_active 1 2 true 30 cm Hwf Hcm).
Defined.

Lemma length_filter_split {A} (P : A → Prop) `{!∀ x, Decision (P x)}
    (l1 l2 : list A) (x : A) :
  length (filter P (l1 ++ x :: l2))
  = (length (filter P l1) + (if decide (P x) then 1 else 0)
     + length (filter P l2))%nat.
Proof.
  rewrite filter_app, filter_cons, length_app.
  destruct (decide (P x)); simpl; lia.
Qed.

Lemma campaign_stats_eq campaign_id db :
  campaign_stats campaign_id db =
  (Z.of_nat (length (members_of campaign_id db)),
   Z.of_nat (length (filter (λ m, CampaignMember.campaign_id m = campaign_id
                                  ∧ CampaignMember.has_paid m = true)
                            (campaign_members db))),
   Z.of_nat (length (members_of campaign_id db))
   - Z.of_nat (length (filter (λ m, CampaignMember.campaign_id m = campaign_id
                                    ∧ CampaignMember.has_paid m = true)
                              (campaign_members db))),
   db).
Proof. reflexivity. Qed.

(** X8: the effect of a toggle on the counters.  When the pair has a row
    [cm], campaign_stats of that campaign keeps its total and moves the
    paid count by (mark − has_paid cm), the unpaid count by the opposite;
    the counters of every other campaign are unchanged. *)
Theorem toggle_payment_moves_one_count db campaign_id user_id mark now cm :
  db_wf db →
  scalar (select_campaign_member campaign_id user_id db) = Some cm →
  let db' := (toggle_payment campaign_id user_id mark now db).2 in
  let '(total, paid, unpaid) := (campaign_stats campaign_id db).1 in
  let d := Z.b2z mark - Z.b2z (CampaignMember.has_paid cm) in
  (campaign_stats campaign_id db').1 = (total, paid + d, unpaid - d)
  ∧ ∀ campaign_id', campaign_id' ≠ campaign_id →
      (campaign_stats campaign_id' db').1 = (campaign_stats campaign_id' db).1.
Proof.
  intros Hwf Hcm. cbv zeta.
  pose proof (select_campaign_member_key _ _ _ _ Hcm) as [Hc Hu].
  destruct (toggle_payment_row db campaign_id user_id mark now cm Hwf Hcm)
    as (l1 & l2 & Hl & ->).
  rewrite !campaign_stats_eq. cbn [fst snd]. unfold members_of; store. rewrite Hl.
  split.
  - rewrite !length_filter_split. cbn [CampaignMember.campaign_id CampaignMember.has_paid].
    rewrite Hc. destruct (CampaignMember.has_paid cm), mark;
      repeat case_decide; destruct_and?; try done; try tauto;
      cbn [Z.b2z]; (f_equal; [f_equal|]); lia.
  - intros cid' Hne. rewrite !campaign_stats_eq. cbn [fst snd]. unfold members_of; store.
    rewrite Hl, !length_filter_split.
    cbn [CampaignMember.campaign_id CampaignMember.has_paid]. rewrite Hc.
    repeat case_decide; destruct_and?; try done; try tauto.
Qed.

Lemma toggle_payment_moves_one_count_witness :
  let cm := CampaignMember.mk 1 1 2 false None in
  db_wf one_active
  ∧ scalar (select_campaign_member 1 2 one_active) = Some cm
  ∧ let db' := (toggle_payment 1 2 true 30 one_active).2 in
    let '(total, paid, unpaid) := (campaign_stats 1 one_active).1 in
    let d := Z.b2z true - Z.b2z (CampaignMember.has_paid cm) in
    (campaign_stats 1 db').1 = (total, paid + d, unpaid - d)
    ∧ ∀ campaign_id', campaign_id' ≠ 1 →
        (campaign_stats campaign_id' db').1 = (campaign_stats campaign_id' one_active).1.
Proof.
  intros cm.
  assert (db_wf one_active) as Hwf by (apply (bool_decide_unpack _); vm_compute; exact I).
  assert (scalar (select_campaign_member 1 2 one_active) = Some cm) as Hcm
    by (vm_compute; reflexivity).
  split; [done|]. split; [done|].
  apply (toggle_payment_moves_one_count one_active 1 2 true 30 cm Hwf Hcm).
Defined.

(** X9: payments do not look at the campaign's active flag.
    toggle_payment and close_active_campaign commute: in either order
    they return the same two results and leave the same store, so a
    payment can be marked or unmarked on a closed campaign exactly as on
    an active one. *)
Theorem toggle_payment_close_commute db campaign_id user_id mark now :
  let t := toggle_payment campaign_id user_id mark now db in
  let c := close_active_campaign db in
  toggle_payment campaign_id user_id mark now c.2
  = (t.1, (close_active_campaign t.2).2)
  ∧ close_active_campaign t.2 = (c.1, (toggle_payment campaign_id user_id mark now c.2).2).
Proof.
  cbv zeta. rewrite !close_active_campaign_eq, !toggle_payment_eq.
  unfold active_campaigns, select_campaign_member.
  destruct (scalar (filter _ (campaign_members db))) as [cm|] eqn:Ecm;
    destruct (head (merge_sort id_desc (filter _ (campaigns db)))) as [c|] eqn:Ec;
    cbv zeta; store; rewrite ?Ecm, ?Ec; by cbn [fst snd].
Qed.

(** ** Registration, continued *)

(** X10: upsert_user is idempotent.  Repeating a registration with the
    same arguments (at a later instant) returns the same user record and
    leaves the store exactly as the first call left it. *)
Theorem upsert_user_idempotent db tg_id username full_name financiers now1 now2 :
  let r1 := upsert_user tg_id username full_name financiers now1 db in
  upsert_user tg_id username full_name financiers now2 r1.2 = r1.
Proof.
  cbv zeta. rewrite (upsert_user_eq _ _ _ _ now1 db).
  destruct (scalar (select_user tg_id db)) as [u|] eqn:E; cbv zeta; cbn [snd].
  - set (u' := User.mk _ _ _ _ _). rewrite upsert_user_eq.
    assert (scalar (select_user tg_id
              (mkDB ((λ r, if decide (User.id r = tg_id) then u' else r) <$> users db)
                    (campaigns db) (campaign_members db) (campaigns_id_seq db)
                    (campaign_members_id_seq db))) = Some u') as ->.
    { unfold scalar, select_user in *; store.
      apply (head_filter_replace _ (λ r, User.id r = tg_id) _ u); [done| |done].
      by apply (select_user_id tg_id db). }
    cbv zeta; store. set (u'' := User.mk _ _ _ _ _).
    assert (u'' = u') as Hsame.
    { unfold u'', u'. cbn [User.full_name User.is_financier User.created_at].
      f_equal.
      - by destruct (truthy full_name) eqn:Hn, (truthy (User.full_name u)) eqn:Hs;
          simpl; rewrite ?Hn, ?Hs.
      - by case_bool_decide. }
    clearbody u''. subst u''. f_equal. f_equal.
    rewrite <- list_fmap_compose. apply list_fmap_ext. intros i r _. simpl.
    destruct (decide (User.id r = tg_id)); [by rewrite decide_True|by rewrite decide_False].
  - set (u := User.mk _ _ _ _ _). rewrite upsert_user_eq.
    apply scalar_None_nil in E. unfold select_user in E.
    assert (scalar (select_user tg_id
              (mkDB (users db ++ [u]) (campaigns db) (campaign_members db)
                    (campaigns_id_seq db) (campaign_members_id_seq db))) = Some u) as ->.
    { unfold scalar, select_user; store. rewrite filter_app, E.
      by rewrite filter_cons_True. }
    cbv zeta; store. set (u'' := User.mk _ _ _ _ _).
    assert (u'' = u) as Hsame.
    { unfold u'', u. cbn [User.full_name User.is_financier User.created_at].
      f_equal.
      - by destruct (_ && _).
      - by case_bool_decide. }
    clearbody u''. subst u''. f_equal. f_equal.
    rewrite fmap_app. simpl. rewrite decide_True by done. f_equal.
    rewrite <- (list_fmap_id (users db)) at 2.
    apply list_fmap_ext. intros i r Hr. simpl.
    apply list_elem_of_lookup_2 in Hr.
    rewrite decide_False; [done|]. intros Hid.
    assert (r ∈ filter (λ u, User.id u = tg_id) (users db)) as Hin
      by (by apply list_elem_of_filter).
    rewrite E in Hin. inversion Hin.
Qed.

(** X11: what a registration stores and what it leaves alone.  For any
    store, upsert_user returns the row that get_user then finds for the
    identifier; the identifier and, for an existing user, the creation
    time are never rewritten; the row found for every other identifier is
    the one found before; and campaigns, membership rows and both
    sequences are untouched. *)
Theorem upsert_user_round_trip db tg_id username full_name financiers now :
  let r := upsert_user tg_id username full_name financiers now db in
  (get_user tg_id r.2).1 = Some r.1
  ∧ User.id r.1 = tg_id
  ∧ User.created_at r.1 =
      match (get_user tg_id db).1 with
      | Some u => User.created_at u
      | None => now
      end
  ∧ (∀ user_id, user_id ≠ tg_id → (get_user user_id r.2).1 = (get_user user_id db).1)
  ∧ campaigns r.2 = campaigns db
  ∧ campaign_members r.2 = campaign_members db
  ∧ campaigns_id_seq r.2 = campaigns_id_seq db
  ∧ campaign_members_id_seq r.2 = campaign_members_id_seq db.
Proof.
  cbv zeta.
  split.
  { destruct (get_user tg_id db).1 as [u|] eqn:Hu.
    - destruct (upsert_user_existing db tg_id u username full_name financiers now Hu)
        as [E ->]. by rewrite E.
    - destruct (upsert_user_new db tg_id username full_name financiers now Hu)
        as [E ->]. by rewrite E. }
  split.
  { rewrite upsert_user_eq. by destruct (scalar (select_user tg_id db)). }
  split.
  { rewrite get_user_eq, upsert_user_eq. cbn [fst].
    by destruct (scalar (select_user tg_id db)). }
  split. { intros user_id Hne. by apply upsert_user_other. }
  rewrite upsert_user_eq. by destruct (scalar (select_user tg_id db)).
Qed.

(** ** Aggregates *)

Lemma foldl_paid_unpaid (res : list (Z * bool)) (paid unpaid : list Z) :
  foldl (λ '(paid, unpaid) '(uid, ok),
           if ok : bool then (paid ++ [uid], unpaid) else (paid, unpaid ++ [uid]))
        (paid, unpaid) res
  = (paid ++ (fst <$> filter (λ p, p.2 = true) res),
     unpaid ++ (fst <$> filter (λ p, p.2 = false) res)).
Proof.
  revert paid unpaid. induction res as [|[uid ok] res IH]; intros paid unpaid.
  - simpl. by rewrite !app_nil_r.
  - simpl. destruct ok; rewrite IH.
    + rewrite filter_cons_True by done. rewrite filter_cons_False by done.
      by rewrite fmap_cons, <- app_assoc.
    + rewrite filter_cons_False by done. rewrite filter_cons_True by done.
      by rewrite fmap_cons, <- app_assoc.
Qed.

Lemma filter_fmap_pre {A B} (f : A → B) (P : B → Prop) `{!∀ x, Decision (P x)}
    (l : list A) :
  filter P (f <$> l) = f <$> filter (λ x, P (f x)) l.
Proof.
  induction l as [|a l IH]; [done|].
  rewrite fmap_cons, !filter_cons. simpl. rewrite IH.
  by destruct (decide (P (f a))).
Qed.

Lemma list_paid_unpaid_eq campaign_id db :
  list_paid_unpaid campaign_id db =
  (CampaignMember.user_id
     <$> filter (λ m, CampaignMember.has_paid m = true) (members_of campaign_id db),
   CampaignMember.user_id
     <$> filter (λ m, CampaignMember.has_paid m = false) (members_of campaign_id db),
   db).
Proof.
  unfold list_paid_unpaid. session. rewrite foldl_paid_unpaid. simpl.
  fold (members_of campaign_id db).
  rewrite !(filter_fmap_pre (λ m, (CampaignMember.user_id m, CampaignMember.has_paid m))).
  by rewrite <- !list_fmap_compose.
Qed.

Lemma paid_members_of campaign_id db :
  filter (λ m, CampaignMember.campaign_id m = campaign_id
               ∧ CampaignMember.has_paid m = true) (campaign_members db)
  = filter (λ m, CampaignMember.has_paid m = true) (members_of campaign_id db).
Proof.
  unfold members_of. induction (campaign_members db) as [|m l IH]; [done|].
  rewrite !filter_cons.
  destruct (decide (CampaignMember.campaign_id m = campaign_id)) as [Hc|Hc].
  - rewrite filter_cons.
    destruct (decide (CampaignMember.has_paid m = true)) as [Hp|Hp].
    + rewrite decide_True by done. by rewrite IH.
    + rewrite decide_False by tauto. done.
  - rewrite decide_False by tauto. done.
Qed.

(** X12: campaign_stats and list_paid_unpaid agree.  The paid list holds
    the user identifiers of the campaign's paid rows and the unpaid list
    those of its other rows, each in table order; their lengths are the
    paid and unpaid counts, which are non-negative and add up to the
    total; and both reads leave the store as it was. *)
Theorem campaign_stats_matches_lists db campaign_id :
  let '(total, paid, unpaid, db1) := campaign_stats campaign_id db in
  let '(paid_ids, unpaid_ids, db2) := list_paid_unpaid campaign_id db in
  db1 = db ∧ db2 = db
  ∧ Z.of_nat (length paid_ids) = paid
  ∧ Z.of_nat (length unpaid_ids) = unpaid
  ∧ 0 ≤ paid ∧ 0 ≤ unpaid ∧ paid + unpaid = total
  ∧ total = Z.of_nat (length (members_of campaign_id db))
  ∧ paid_ids ++ unpaid_ids ≡ₚ CampaignMember.user_id <$> members_of campaign_id db.
Proof.
  rewrite campaign_stats_eq, list_paid_unpaid_eq, paid_members_of.
  set (ms := members_of campaign_id db).
  assert (filter (λ m, CampaignMember.has_paid m = true) ms
            ++ filter (λ m, CampaignMember.has_paid m = false) ms ≡ₚ ms) as HP.
  { rewrite <- (filter_app_complement (λ m, CampaignMember.has_paid m = true) ms) at 3.
    f_equiv. rewrite (list_filter_iff (λ m, CampaignMember.has_paid m = false)
                        (λ m, CampaignMember.has_paid m ≠ true)); [done|].
    intros m. by destruct (CampaignMember.has_paid m). }
  pose proof (Permutation_length HP) as Hlen. rewrite length_app in Hlen.
  rewrite !length_fmap.
  repeat split; try done; try lia.
  by rewrite <- fmap_app, HP.
Qed.

(** X13: a campaign key that is not stored has no membership rows in a
    store that respects the foreign key, so campaign_stats yields
    (0, 0, 0) and list_paid_unpaid two empty lists; neither fails. *)
Theorem campaign_stats_unknown_campaign db campaign_id :
  db_refs db → campaign_id ∉ Campaign.id <$> campaigns db →
  (campaign_stats campaign_id db).1 = (0, 0, 0)
  ∧ (list_paid_unpaid campaign_id db).1 = ([], []).
Proof.
  intros [_ HF] Hcid.
  assert (members_of campaign_id db = []) as Hnone.
  { apply filter_none. rewrite Forall_forall in HF |- *.
    intros m Hm Hmc. destruct (HF m Hm) as [Hc _]. by rewrite Hmc in Hc. }
  rewrite campaign_stats_eq, list_paid_unpaid_eq, paid_members_of, Hnone. done.
Qed.

Lemma campaign_stats_unknown_campaign_witness :
  db_refs two_active ∧ (7 ∉ Campaign.id <$> campaigns two_active)
  ∧ (campaign_stats 7 two_active).1 = (0, 0, 0)
  ∧ (list_paid_unpaid 7 two_active).1 = ([], []).
Proof.
  assert (db_refs two_active) as Hrefs
    by (apply (bool_decide_unpack _); vm_compute; exact I).
  assert (7 ∉ Campaign.id <$> campaigns two_active) as Hcid
    by (apply (bool_decide_unpack _); vm_compute; exact I).
  split; [done|]. split; [done|].
  apply (campaign_stats_unknown_campaign two_active 7 Hrefs Hcid).
Defined.

(** ** A campaign right after its creation *)

Lemma create_campaign_members_of title total_amount creator_id now db :
  db_wf db → db_refs db →
  let '(camp, user_ids, _, db') := create_campaign title total_amount creator_id now db in
  members_of (Campaign.id camp) db'
  = member_rows (Campaign.id camp) (campaign_members_id_seq db) user_ids.
Proof.
  intros Hwf Hrefs. rewrite create_campaign_eq. cbv zeta.
  unfold members_of at 1; store. cbn [Campaign.id].
  rewrite filter_app, filter_member_rows_same.
  pose proof (members_of_unissued db (campaigns_id_seq db + 1) Hwf Hrefs ltac:(lia))
    as Hnone.
  unfold members_of in Hnone. by rewrite Hnone.
Qed.

Lemma get_active_campaign_create title total_amount creator_id now db :
  db_wf db →
  let '(camp, _, _, db') := create_campaign title total_amount creator_id now db in
  get_active_campaign db' = (Some camp, db').
Proof.
  intros (_ & _ & HCs & _). rewrite create_campaign_eq. cbv zeta.
  rewrite Forall_forall in HCs.
  apply get_active_campaign_newest; store.
  - apply elem_of_app. right. left.
  - done.
  - intros r [Hr|Hr]%elem_of_app _ Hne.
    + specialize (HCs r Hr). simpl. lia.
    + by apply list_elem_of_singleton in Hr.
Qed.

Lemma create_campaign_then_lists db title total_amount creator_id now :
  store_ok db →
  let '(camp, user_ids, _, db') := create_campaign title total_amount creator_id now db in
  let n := Z.of_nat (length user_ids) in
  (campaign_stats (Campaign.id camp) db').1 = (n, 0, n)
  ∧ (list_paid_unpaid (Campaign.id camp) db').1 = ([], user_ids).
Proof.
  intros (Hwf & Hrefs & _).
  pose proof (create_campaign_members_of title total_amount creator_id now db Hwf Hrefs)
    as Hms.
  destruct (create_campaign title total_amount creator_id now db)
    as [[[camp user_ids] per] db'].
  cbv zeta. rewrite campaign_stats_eq, list_paid_unpaid_eq, paid_members_of, Hms.
  cbn [fst].
  pose proof (member_rows_fresh (Campaign.id camp) (campaign_members_id_seq db) user_ids)
    as Hfresh.
  rewrite filter_none, filter_all.
  - rewrite member_rows_length, member_rows_user_id. simpl.
    split; [|done]. f_equal. lia.
  - eapply Forall_impl; [apply Hfresh|]. simpl. tauto.
  - eapply Forall_impl; [apply Hfresh|]. simpl. intros m (_ & -> & _). done.
Qed.

(** X14: a new campaign is complete as soon as create_campaign returns.
    In a store that satisfies the constraints, campaign_stats of the new
    campaign is (number of returned participants, 0, the same number),
    and list_paid_unpaid returns no paid identifier and, as unpaid, the
    returned participants, each once (in some order). *)
Theorem create_campaign_then_stats db title total_amount creator_id now :
  store_ok db →
  let '(camp, user_ids, _, db') := create_campaign title total_amount creator_id now db in
  let n := Z.of_nat (length user_ids) in
  (campaign_stats (Campaign.id camp) db').1 = (n, 0, n)
  ∧ (list_paid_unpaid (Campaign.id camp) db').1.1 = []
  ∧ (list_paid_unpaid (Campaign.id camp) db').1.2 ≡ₚ user_ids.
Proof.
  intros Hok.
  pose proof (create_campaign_then_lists db title total_amount creator_id now Hok) as H.
  destruct (create_campaign title total_amount creator_id now db)
    as [[[camp user_ids] per] db'].
  cbv zeta in *. destruct H as [H1 H2]. rewrite H2. by split.
Qed.

Lemma create_campaign_then_stats_witness :
  store_ok one_active
  ∧ let '(camp, user_ids, _, db') := create_campaign "Gift" 100 2 21 one_active in
    let n := Z.of_nat (length user_ids) in
    (campaign_stats (Campaign.id camp) db').1 = (n, 0, n)
    ∧ (list_paid_unpaid (Campaign.id camp) db').1.1 = []
    ∧ (list_paid_unpaid (Campaign.id camp) db').1.2 ≡ₚ user_ids.
Proof.
  assert (store_ok one_active) as Hok
    by (apply (bool_decide_unpack _); vm_compute; exact I).
  split; [done|]. apply (create_campaign_then_stats one_active "Gift" 100 2 21 Hok).
Defined.

Lemma scalar_member_rows cid seq uids uid :
  match scalar (filter (λ m, CampaignMember.campaign_id m = cid
                             ∧ CampaignMember.user_id m = uid)
                       (member_rows cid seq uids)) with
  | Some m => uid ∈ uids ∧ CampaignMember.campaign_id m = cid
              ∧ CampaignMember.user_id m = uid
              ∧ CampaignMember.has_paid m = false
              ∧ CampaignMember.paid_at m = None
  | None => uid ∉ uids
  end.
Proof.
  revert seq. induction uids as [|u uids IH]; intros seq.
  - simpl. apply not_elem_of_nil.
  - simpl. rewrite filter_cons. simpl.
    destruct (decide (cid = cid ∧ u = uid)) as [[_ ->]|Hne].
    + simpl. repeat split; try done. left.
    + specialize (IH (seq + 1)). destruct (scalar _) as [m|].
      * destruct IH as (? & ?). split; [by right|done].
      * apply not_elem_of_cons. split; [|done]. intros ->. by apply Hne.
Qed.

(** X15: what each user sees right after a campaign is created.  In a
    store that satisfies the constraints, user_status after
    create_campaign reports the new campaign to everybody; a returned
    participant gets a membership row that is unpaid, and the share; any
    other identifier (the creator included) gets no membership and no
    share. *)
Theorem create_campaign_then_user_status db title total_amount creator_id now user_id :
  store_ok db →
  let '(camp, user_ids, per_user, db') :=
    create_campaign title total_amount creator_id now db in
  ∃ cm, user_status user_id db'
        = (Some camp, cm, (get_user user_id db).1,
           if decide (user_id ∈ user_ids) then Some per_user else None, db')
        ∧ match cm with
          | Some m => user_id ∈ user_ids ∧ user_id ≠ creator_id
                      ∧ CampaignMember.campaign_id m = Campaign.id camp
                      ∧ CampaignMember.user_id m = user_id
                      ∧ CampaignMember.has_paid m = false
                      ∧ CampaignMember.paid_at m = None
          | None => user_id ∉ user_ids
          end.
Proof.
  intros (Hwf & Hrefs & _).
  pose proof (get_active_campaign_create title total_amount creator_id now db Hwf) as Hget.
  rewrite create_campaign_eq in *. cbv beta iota zeta in *.
  set (user_ids := filter _ (merge_sort _ _)) in *.
  set (camp := Campaign.mk _ _ _ _ _ _ _) in *. set (db' := mkDB _ _ _ _ _) in *.
  assert (creator_id ∉ user_ids) as Hcreator
    by (by intros [? _]%list_elem_of_filter).
  rewrite (user_status_active db' user_id camp) by (by rewrite Hget).
  assert (scalar (select_campaign_member (Campaign.id camp) user_id db')
          = scalar (filter (λ m, CampaignMember.campaign_id m = Campaign.id camp
                                 ∧ CampaignMember.user_id m = user_id)
                      (member_rows (Campaign.id camp) (campaign_members_id_seq db)
                         user_ids))) as ->.
  { unfold select_campaign_member, db'; store. rewrite filter_app.
    rewrite filter_none; [done|].
    pose proof (members_of_unissued db (campaigns_id_seq db + 1) Hwf Hrefs ltac:(lia))
      as Hnone.
    rewrite Forall_forall. intros m Hm [Hmc _].
    assert (m ∈ members_of (campaigns_id_seq db + 1) db) as Hin
      by (by apply list_elem_of_filter).
    rewrite Hnone in Hin. inversion Hin. }
  pose proof (scalar_member_rows (Campaign.id camp) (campaign_members_id_seq db)
                user_ids user_id) as Hrow.
  exists (scalar (filter (λ m, CampaignMember.campaign_id m = Campaign.id camp
                             ∧ CampaignMember.user_id m = user_id)
                   (member_rows (Campaign.id camp) (campaign_members_id_seq db)
                      user_ids))).
  destruct (scalar _) as [m|].
  - destruct Hrow as (Hin & ? & ? & ? & ?). rewrite decide_True by done.
    split; [reflexivity|]. repeat split; try done. by intros ->.
  - rewrite decide_False by done. split; [reflexivity|done].
Qed.

Lemma create_campaign_then_user_status_witness :
  store_ok one_active
  ∧ let '(camp, user_ids, per_user, db') := create_campaign "Gift" 100 2 21 one_active in
    ∃ cm, user_status 2 db'
          = (Some camp, cm, (get_user 2 one_active).1,
             if decide (2 ∈ user_ids) then Some per_user else None, db')
          ∧ match cm with
            | Some m => 2 ∈ user_ids ∧ 2 ≠ 2
                        ∧ CampaignMember.campaign_id m = Campaign.id camp
                        ∧ CampaignMember.user_id m = 2
                        ∧ CampaignMember.has_paid m = false
                        ∧ CampaignMember.paid_at m = None
            | None => 2 ∉ user_ids
            end.
Proof.
  assert (store_ok one_active) as Hok
    by (apply (bool_decide_unpack _); vm_compute; exact I).
  split; [done|].
  apply (create_campaign_then_user_status one_active "Gift" 100 2 21 2 Hok).
Defined.

(** * Properties of the handlers *)

(** ** Splitting and numerals *)

Lemma split_on_nonempty sep s : split_on sep s ≠ [].
Proof.
  destruct s as [|c s]; simpl; [done|].
  destruct (Ascii.eqb c sep); [done|]. by destruct (split_on sep s).
Qed.

Lemma split_on_absent sep s : occurs sep s = false → split_on sep s = [s].
Proof.
  induction s as [|c s IH]; simpl; [done|].
  intros [Hc Hs]%orb_false_elim. rewrite Hc, IH by done. done.
Qed.

Lemma split_on_app sep s1 s2 :
  occurs sep s1 = false →
  split_on sep (s1 +:+ String sep s2) = s1 :: split_on sep s2.
Proof.
  induction s1 as [|c s1 IH]; simpl.
  - intros _. by rewrite Ascii.eqb_refl.
  - intros [Hc Hs]%orb_false_elim. rewrite Hc, IH by done. done.
Qed.

Lemma py_str_no_colon z : occurs ":"%char (py_str z) = false.
Proof.
  assert (∀ d, occurs ":"%char (NilEmpty.string_of_uint d) = false) as He
    by (induction d; simpl; done).
  assert (∀ d, occurs ":"%char (NilZero.string_of_uint d) = false) as Hu
    by (intros d; destruct d; try done; apply He).
  unfold py_str. destruct (Z.to_int z) as [d|d]; simpl; apply Hu.
Qed.

(** ** The payment button *)

Lemma payment_kb_data campaign_id has_paid :
  payment_kb campaign_id has_paid =
  [[InlineKeyboardButton.mk
      (if has_paid then "↩️ Отменить" else "✅ Я перевёл")
      ("pay:" +:+ py_str campaign_id +:+ (if has_paid then ":unmark" else ":mark"))]].
Proof. by destruct has_paid. Qed.

Lemma split_callback_data campaign_id action :
  occurs ":"%char action = false →
  split_on ":"%char ("pay:" +:+ py_str campaign_id +:+ String ":"%char action)
  = ["pay"%string; py_str campaign_id; action].
Proof.
  intros Haction.
  change ("pay:" +:+ py_str campaign_id +:+ String ":"%char action)
    with ("pay" +:+ String ":"%char (py_str campaign_id +:+ String ":"%char action)).
  rewrite split_on_app by done.
  rewrite split_on_app by apply py_str_no_colon.
  by rewrite split_on_absent.
Qed.

(** X16: the button round trip.  Whenever [int] reads back the numeral of
    the campaign key, the callback data of the button that payment_kb
    shows for a payment state is decoded by handle_payment_callback to
    the same campaign and to the opposite state: the handler behaves as
    toggle_payment with mark = not has_paid, and on success answers
    "Статус обновлён." and installs the keyboard for the new state. *)
Theorem payment_button_round_trip py_int campaign_id has_paid from_user_id now db row b :
  py_int (py_str campaign_id) = Some campaign_id →
  row ∈ payment_kb campaign_id has_paid → b ∈ row →
  handle_payment_callback py_int (InlineKeyboardButton.callback_data b)
    from_user_id now db
  = let '(ok, db') := toggle_payment campaign_id from_user_id (negb has_paid) now db in
    (if ok : bool
     then CallbackReply.mk "Статус обновлён." false
            (Some (payment_kb campaign_id (negb has_paid)))
     else CallbackReply.mk "Не удалось обновить статус." true None, db').
Proof.
  intros Hint Hrow Hb. rewrite payment_kb_data in Hrow.
  apply list_elem_of_singleton in Hrow as ->.
  apply list_elem_of_singleton in Hb as ->.
  cbn [InlineKeyboardButton.callback_data]. unfold handle_payment_callback.
  assert (split_on ":"%char
            ("pay:" +:+ py_str campaign_id +:+ (if has_paid then ":unmark" else ":mark"))
          = ["pay"%string; py_str campaign_id;
             if has_paid then "unmark"%string else "mark"%string]) as ->.
  { destruct has_paid; by rewrite split_callback_data. }
  rewrite Hint. cbv zeta. session.
  assert (String.eqb (if has_paid then "unmark" else "mark") "mark" = negb has_paid) as ->
    by (by destruct has_paid).
  destruct (toggle_payment campaign_id from_user_id (negb has_paid) now db) as [[|] db'];
    done.
Qed.

Lemma payment_button_round_trip_witness :
  let b := InlineKeyboardButton.mk "✅ Я перевёл" "pay:1:mark" in
  decimal_int (py_str 1) = Some 1
  ∧ [b] ∈ payment_kb 1 false ∧ b ∈ [b]
  ∧ handle_payment_callback decimal_int (InlineKeyboardButton.callback_data b)
      2 30 one_active
    = let '(ok, db') := toggle_payment 1 2 (negb false) 30 one_active in
      (if ok : bool
       then CallbackReply.mk "Статус обновлён." false (Some (payment_kb 1 (negb false)))
       else CallbackReply.mk "Не удалось обновить статус." true None, db').
Proof.
  intros b.
  assert (decimal_int (py_str 1) = Some 1) as Hint by (vm_compute; reflexivity).
  assert ([b] ∈ payment_kb 1 false) as Hrow by (vm_compute; left).
  assert (b ∈ [b]) as Hb by left.
  split; [done|]. split; [done|]. split; [done|].
  apply (payment_button_round_trip decimal_int 1 false 2 30 one_active [b] b Hint Hrow Hb).
Defined.

(** X17: what a callback can change.  Whatever the callback data, the
    handler never touches users, campaigns or the sequences and never
    adds or removes a membership row; unless it answers
    "Статус обновлён." the store is exactly as before; and when it does,
    it installs the keyboard of a campaign and state for which the
    sender's membership row now holds that state. *)
Theorem handle_payment_callback_effect py_int data from_user_id now db :
  let '(reply, db') := handle_payment_callback py_int data from_user_id now db in
  users db' = users db ∧ campaigns db' = campaigns db
  ∧ campaigns_id_seq db' = campaigns_id_seq db
  ∧ campaign_members_id_seq db' = campaign_members_id_seq db
  ∧ length (campaign_members db') = length (campaign_members db)
  ∧ (CallbackReply.answer reply ≠ "Статус обновлён."%string → db' = db)
  ∧ (CallbackReply.answer reply = "Статус обновлён."%string →
     ∃ campaign_id mark cm,
       CallbackReply.edit_reply_markup reply = Some (payment_kb campaign_id mark)
       ∧ scalar (select_campaign_member campaign_id from_user_id db') = Some cm
       ∧ CampaignMember.has_paid cm = mark).
Proof.
  unfold handle_payment_callback. cbv zeta.
  assert (∀ db0 : DB,
            users db0 = users db0 ∧ campaigns db0 = campaigns db0
            ∧ campaigns_id_seq db0 = campaigns_id_seq db0
            ∧ campaign_members_id_seq db0 = campaign_members_id_seq db0
            ∧ length (campaign_members db0) = length (campaign_members db0)
            ∧ (("Неверный формат callback data."%string : string)
                 ≠ "Статус обновлён."%string → db0 = db0)
            ∧ (("Неверный формат callback data."%string : string)
                 = "Статус обновлён."%string →
               ∃ campaign_id mark cm,
                 (None : option InlineKeyboardMarkup)
                   = Some (payment_kb campaign_id mark)
                 ∧ scalar (select_campaign_member campaign_id from_user_id db0) = Some cm
                 ∧ CampaignMember.has_paid cm = mark)) as Hbad.
  { intros db0. repeat split; try done. }
  destruct (split_on ":"%char data) as [|p1 [|p2 [|p3 [|p4 ps]]]]; session;
    try apply Hbad.
  destruct (py_int p2) as [camp_id|]; [|apply Hbad].
  set (mark := String.eqb p3 "mark").
  destruct (scalar (select_campaign_member camp_id from_user_id db)) as [cm|] eqn:Hcm.
  - destruct (toggle_payment_found db camp_id from_user_id mark now cm Hcm) as [-> Hget].
    cbn [CallbackReply.answer CallbackReply.edit_reply_markup]; store.
    repeat split; try done.
    + by rewrite length_fmap.
    + intros _. eexists camp_id, mark, _. split; [done|]. split; [apply Hget|done].
  - rewrite toggle_payment_eq, Hcm.
    cbn [CallbackReply.answer CallbackReply.edit_reply_markup].
    repeat split; try done.
Qed.

(** ** Privilege *)

Lemma is_financier_elem FINANCIERS user_id :
  is_financier FINANCIERS user_id = true ↔ user_id ∈ FINANCIERS.
Proof.
  unfold is_financier. rewrite bool_decide_eq_true. apply elem_of_list_to_set.
Qed.

(** X18: only a configured financier can close a campaign.  close_handler
    answers "Текущий сбор закрыт." exactly when the sender is in
    FINANCIERS and some campaign is active; in every other case the store
    is left exactly as it was, and a sender outside FINANCIERS is always
    answered "Недоступно.".  For a financier the store afterwards is the
    one close_active_campaign produces. *)
Theorem close_handler_privilege FINANCIERS from_user_id db :
  let '(text, db') := close_handler FINANCIERS from_user_id db in
  (text = "Текущий сбор закрыт."%string
   ↔ from_user_id ∈ FINANCIERS ∧ active_campaigns db ≠ [])
  ∧ (text ≠ "Текущий сбор закрыт."%string → db' = db)
  ∧ (from_user_id ∉ FINANCIERS → text = "Недоступно."%string)
  ∧ (from_user_id ∈ FINANCIERS → db' = (close_active_campaign db).2).
Proof.
  unfold close_handler.
  destruct (is_financier FINANCIERS from_user_id) eqn:Hfin; cbn [negb]; session.
  - apply is_financier_elem in Hfin.
    rewrite close_active_campaign_eq.
    destruct (head (merge_sort id_desc (active_campaigns db))) as [c|] eqn:E.
    + assert (active_campaigns db ≠ []) as Hne.
      { intros H. by rewrite H in E. }
      repeat split; try done.
    + apply head_None, merge_sort_nil_iff in E.
      repeat split; try done. by intros [_ ?].
  - assert (from_user_id ∉ FINANCIERS) as Hnot.
    { intros H%is_financier_elem. by rewrite H in Hfin. }
    repeat split; try done. by intros [? _].
Qed.

(** ** Help and status *)

Lemma user_status_eq user_id db :
  user_status user_id db =
  match (get_active_campaign db).1 with
  | None => (None, None, None, None, db)
  | Some camp =>
      (Some camp,
       scalar (select_campaign_member (Campaign.id camp) user_id db),
       (get_user user_id db).1,
       match scalar (select_campaign_member (Campaign.id camp) user_id db) with
       | Some _ => Some (Campaign.per_user_amount camp)
       | None => None
       end, db)
  end.
Proof.
  unfold user_status. session. rewrite get_active_campaign_eq. cbn [fst].
  by destruct (head _).
Qed.

(** X19: what /help lists.  help_handler lists the financier commands
    exactly when a campaign is active and the stored user record of the
    sender is a financier; otherwise, in particular for a financier while
    no campaign is active, it sends the base list only.  The store is
    left as it was. *)
Theorem help_handler_lists from_user_id db :
  help_handler from_user_id db =
  (String.concat nl
     (help_lines ++
      match (get_active_campaign db).1, (get_user from_user_id db).1 with
      | Some _, Some user => if User.is_financier user then help_lines_financier else []
      | _, _ => []
      end), db).
Proof.
  unfold help_handler. session. rewrite user_status_eq.
  destruct (get_active_campaign db).1 as [camp|]; [|by rewrite app_nil_r].
  destruct (get_user from_user_id db).1 as [user|]; [|by rewrite app_nil_r].
  destruct (User.is_financier user); [done|by rewrite app_nil_r].
Qed.

(** A stored financier asking for help while no campaign is active gets
    the base list; with an active campaign, the full list. *)
Example help_handler_financier :
  (help_handler 1 roster4).1 = String.concat nl help_lines
  ∧ (help_handler 1 one_active).1 = String.concat nl (help_lines ++ help_lines_financier).
Proof. split; vm_compute; reflexivity. Qed.

(** X20: /status without an active campaign.  When no campaign is active
    status_handler answers "Активного сбора нет." followed by an empty
    role line for every sender, registered or not, financier or not: the
    role is only shown while a campaign is active. *)
Theorem status_handler_no_active capitalize from_user_id db :
  (get_active_campaign db).1 = None →
  status_handler capitalize from_user_id db = ("Активного сбора нет." +:+ nl, db).
Proof.
  intros H. unfold status_handler. session. by rewrite user_status_eq, H.
Qed.

Lemma status_handler_no_active_witness :
  (get_active_campaign roster4).1 = None
  ∧ (get_user 1 roster4).1 = Some (User.mk 1 (Some "fin"%string) None true 11)
  ∧ status_handler (λ s, s) 1 roster4 = ("Активного сбора нет." +:+ nl, roster4).
Proof.
  split; [vm_compute; reflexivity|]. split; [vm_compute; reflexivity|].
  apply (status_handler_no_active (λ s, s) 1 roster4). vm_compute. reflexivity.
Defined.

(** ** The registration conversation *)

Lemma truthy_Some_nonempty s : truthy (Some s) = true ↔ s ≠ EmptyString.
Proof.
  simpl. rewrite negb_true_iff. split.
  - intros H ->. by rewrite String.eqb_refl in H.
  - intros H. by apply String.eqb_neq.
Qed.

(** X21: when /start asks for a name.  start_handler prompts for the
    name, and moves the conversation to awaiting_name, exactly when the
    sender is not in FINANCIERS, the Telegram full name is empty, and the
    stored record, if there is one, is neither a financier nor named.
    In every other case it greets and leaves the conversation state
    as it was.  The store is in both cases the one upsert_user
    produces. *)
Theorem start_handler_prompts FINANCIERS from_user_id username full_name now state db :
  let prompt :=
    negb (is_financier FINANCIERS from_user_id)
    && negb (truthy (Some full_name))
    && match (get_user from_user_id db).1 with
       | Some u => negb (User.is_financier u) && negb (truthy (User.full_name u))
       | None => true
       end in
  let '(text, state', db') :=
    start_handler FINANCIERS from_user_id username full_name now state db in
  state' = (if prompt then awaiting_name else state)
  ∧ text = (if prompt
            then "Пожалуйста, введите ваше имя, чтобы завершить регистрацию." +:+ nl
                 +:+ "Это имя будет видно финансисту."
            else "Привет!" +:+ nl
                 +:+ "Используйте команду /status, чтобы узнать свой статус в активном сборе."
                 +:+ nl +:+ "Список команд: /help")
  ∧ db' = (upsert_user from_user_id username (Some full_name)
             (list_to_set FINANCIERS) now db).2.
Proof.
  cbv zeta. unfold start_handler, is_financier. session.
  rewrite get_user_eq. cbn [fst]. rewrite upsert_user_eq.
  destruct (scalar (select_user from_user_id db)) as [u|]; cbv zeta;
    cbn [User.is_financier User.full_name];
    destruct (bool_decide (from_user_id ∈ (list_to_set FINANCIERS : gset Z)));
    destruct (truthy (Some full_name)) eqn:Hn; cbn [negb andb];
    try destruct (User.is_financier u); try destruct (truthy (User.full_name u)) eqn:Hs;
    cbn [negb andb]; rewrite ?Hn, ?Hs; cbn [negb andb]; done.
Qed.

Lemma named_exec r db user_id u :
  (get_user user_id db).1 = Some u → truthy (User.full_name u) = true →
  ∃ u', (get_user user_id (exec r db)).1 = Some u'
        ∧ User.full_name u' = User.full_name u.
Proof.
  intros Hu Hname.
  destruct r as [tg un fn fin now| | | | | | | | | | ];
    try (exists u; split; [|done]; rewrite get_user_eq in *; cbn [fst] in *;
         unfold select_user in *; by rewrite exec_users by done).
  cbn [exec]. destruct (decide (user_id = tg)) as [->|Hne].
  - destruct (upsert_user_existing db tg u un fn fin now Hu) as [_ Hget].
    eexists. split; [apply Hget|]. simpl. by rewrite Hname, andb_false_r.
  - exists u. by rewrite upsert_user_other.
Qed.

Lemma named_run rs db user_id u :
  (get_user user_id db).1 = Some u → truthy (User.full_name u) = true →
  ∃ u', (get_user user_id (run rs db)).1 = Some u'
        ∧ User.full_name u' = User.full_name u.
Proof.
  revert db u. induction rs as [|r rs IH]; intros db u Hu Hname; [by exists u|].
  destruct (named_exec r db user_id u Hu Hname) as (u1 & Hu1 & E1).
  destruct (IH _ u1 Hu1) as (u2 & Hu2 & E2); [by rewrite E1|].
  exists u2. split; [done|]. by rewrite E2.
Qed.

(** X22: a name given in the registration conversation is kept.  For a
    registered sender and a reply whose stripped text fits users.full_name
    (at most 128 characters, none of code 0), process_name stores the stripped text as
    the full name, answers and ends the conversation; and if that name is
    not empty, no later sequence of requests (registrations with any
    other name included) changes it.  This is what the guard in
    upsert_user is for. *)
Theorem process_name_is_kept strip from_user_id text db u rs :
  (get_user from_user_id db).1 = Some u →
  nul_free (strip text) = true → (utf8_chars (strip text) ≤ 128)%nat →
  ∃ db1,
    process_name strip from_user_id text db
    = (Some ("Спасибо! Ваше имя сохранено. Теперь вы можете пользоваться ботом."%string,
             no_state), db1)
    ∧ (get_user from_user_id db1).1 = Some (User.set_full_name (Some (strip text)) u)
    ∧ (strip text ≠ EmptyString →
       ∃ u', (get_user from_user_id (run rs db1)).1 = Some u'
             ∧ User.full_name u' = Some (strip text)).
Proof.
  rewrite get_user_eq. cbn [fst]. intros Hu Hnul Hlen.
  unfold process_name. session. rewrite Hu, varchar_short by done. unfold update_user.
  set (db1 := mkDB _ _ _ _ _). exists db1.
  assert ((get_user from_user_id db1).1
          = Some (User.set_full_name (Some (strip text)) u)) as Hget.
  { rewrite get_user_eq. cbn [fst]. unfold scalar, select_user, db1 in *; store.
    pose proof (select_user_id _ _ _ Hu) as Hid.
    apply (head_filter_replace _
             (λ r, User.id r = User.id (User.set_full_name (Some (strip text)) u)) _ u);
      [done| |]; by simpl. }
  split; [done|]. split; [done|]. intros Hne.
  apply (named_run rs db1 from_user_id _ Hget). by apply truthy_Some_nonempty.
Qed.

Lemma process_name_is_kept_witness :
  let u := User.mk 4 None None false 13 in
  (get_user 4 roster4).1 = Some u
  ∧ nul_free ((λ s : string, s) "Dana"%string) = true
  ∧ (utf8_chars ((λ s : string, s) "Dana"%string) ≤ 128)%nat
  ∧ ∃ db1,
      process_name (λ s, s) 4 "Dana" roster4
      = (Some ("Спасибо! Ваше имя сохранено. Теперь вы можете пользоваться ботом."%string,
               no_state), db1)
      ∧ (get_user 4 db1).1 = Some (User.set_full_name (Some "Dana"%string) u)
      ∧ ((λ s : string, s) "Dana"%string ≠ EmptyString →
         ∃ u', (get_user 4 (run [UpsertUser 4 None (Some "Eve"%string) ∅ 50] db1)).1
               = Some u'
               ∧ User.full_name u' = Some "Dana"%string).
Proof.
  intros u.
  assert ((get_user 4 roster4).1 = Some u) as Hu by (vm_compute; reflexivity).
  assert (utf8_chars ((λ s : string, s) "Dana"%string) ≤ 128)%nat as Hlen
    by (vm_compute; lia).
  assert (nul_free ((λ s : string, s) "Dana"%string) = true) as Hnul
    by (vm_compute; reflexivity).
  split; [done|]. split; [done|]. split; [done|].
  apply (process_name_is_kept (λ s, s) 4 "Dana" roster4 u
           [UpsertUser 4 None (Some "Eve"%string) ∅ 50] Hu Hnul Hlen).
Defined.

(** A reply of 129 letters does not fit the column: the commit raises,
    nothing is answered and the store is as it was; an unregistered
    sender is thanked without any write. *)
Example process_name_refused :
  let long := String.concat EmptyString (replicate 129 "a"%string) in
  utf8_chars long = 129%nat
  ∧ process_name (λ s, s) 4 long roster4 = (None, roster4)
  ∧ (process_name (λ s, s) 9 "Dana" roster4).2 = roster4.
Proof. repeat split; vm_compute; reflexivity. Qed.

(** ** Creating a campaign from the chat *)

Lemma handle_payment_callback_mark py_int campaign_id from_user_id now db cm :
  py_int (py_str campaign_id) = Some campaign_id →
  scalar (select_campaign_member campaign_id from_user_id db) = Some cm →
  ∃ db',
    handle_payment_callback py_int ("pay:" +:+ py_str campaign_id +:+ ":mark")
      from_user_id now db
    = (CallbackReply.mk "Статус обновлён." false (Some (payment_kb campaign_id true)), db')
    ∧ scalar (select_campaign_member campaign_id from_user_id db')
      = Some (CampaignMember.mk (CampaignMember.id cm) campaign_id from_user_id
                true (Some now)).
Proof.
  intros Hint Hcm. unfold handle_payment_callback.
  rewrite (split_callback_data campaign_id "mark") by done.
  rewrite Hint. cbv zeta. session. cbn [String.eqb Ascii.eqb Bool.eqb].
  destruct (toggle_payment_found db campaign_id from_user_id true now cm Hcm)
    as [-> Hget].
  eexists. split; [reflexivity|]. apply Hget.
Qed.

Lemma create_campaign_select_member title total_amount creator_id now db user_id :
  db_wf db → db_refs db →
  let '(camp, user_ids, _, db') := create_campaign title total_amount creator_id now db in
  user_id ∈ user_ids →
  ∃ cm, scalar (select_campaign_member (Campaign.id camp) user_id db') = Some cm.
Proof.
  intros Hwf Hrefs. rewrite create_campaign_eq. cbv beta iota zeta.
  set (user_ids := filter _ (merge_sort _ _)). intros Hin.
  unfold select_campaign_member; store. cbn [Campaign.id]. rewrite filter_app.
  rewrite filter_none.
  2:{ pose proof (members_of_unissued db (campaigns_id_seq db + 1) Hwf Hrefs ltac:(lia))
        as Hnone.
      rewrite Forall_forall. intros m Hm [Hmc _].
      assert (m ∈ members_of (campaigns_id_seq db + 1) db) as Hin'
        by (by apply list_elem_of_filter).
      rewrite Hnone in Hin'. inversion Hin'. }
  pose proof (scalar_member_rows (campaigns_id_seq db + 1) (campaign_members_id_seq db)
                user_ids user_id) as Hrow.
  simpl. destruct (scalar _) as [m|]; [by exists m|done].
Qed.

Lemma new_campaign_handler_eq FINANCIERS py_int strip today delivered
    from_user_id args now db :
  new_campaign_handler FINANCIERS py_int strip today delivered from_user_id args now db =
  if negb (is_financier FINANCIERS from_user_id)
  then (NewCampaignResult.mk ["Только финансист может создавать сбор."%string] [], db)
  else if negb (truthy (Some (strip (default EmptyString args))))
  then (NewCampaignResult.mk ["Использование: /new <сумма_в_руб> <название>"%string] [],
        db)
  else
    let parts := split_first " "%char (strip (default EmptyString args)) in
    match py_int (default EmptyString (parts !! 0%nat)) with
    | None =>
        (NewCampaignResult.mk
           ["Сумма должна быть числом. Пример: /new 50000 Сбор на октябрь"%string] [],
         db)
    | Some total =>
        let title := match parts !! 1%nat with
                     | Some rest => strip_char "034"%char (strip rest)
                     | None => "Сбор #" +:+ today
                     end in
        let '(camp, users_ids, per_user, db') :=
          create_campaign title total from_user_id now db in
        (NewCampaignResult.mk
           ["Создан сбор <b>" +:+ Campaign.title camp +:+ "</b> на сумму "
            +:+ py_str (Campaign.total_amount camp) +:+ "₽." +:+ nl
            +:+ "Участников: " +:+ py_str (Z.of_nat (length users_ids))
            +:+ ". На каждого: " +:+ py_str per_user +:+ "₽." +:+ nl
            +:+ "Рассылаю уведомления...";
            "Уведомления отправлены: "
            +:+ py_str (Z.of_nat (length (filter (λ ok, ok = true)
                                            (imap (λ i uid, delivered (S i) uid)
                                                  users_ids))))
            +:+ "/" +:+ py_str (Z.of_nat (length users_ids))]
           ((λ uid, (uid,
                     "📢 Новый сбор: <b>" +:+ Campaign.title camp +:+ "</b>." +:+ nl
                     +:+ "Ваша доля: " +:+ py_str per_user +:+ "₽." +:+ nl
                     +:+ "Пожалуйста, нажмите кнопку, когда переведёте сумму.",
                     payment_kb (Campaign.id camp) false)) <$> users_ids),
         db')
    end.
Proof.
  unfold new_campaign_handler.
  destruct (negb (is_financier FINANCIERS from_user_id)); [done|].
  destruct (negb (truthy _)); [done|]. cbv zeta.
  destruct (py_int _) as [total|]; [|done]. session.
  by destruct (create_campaign _ total from_user_id now db) as [[[camp ids] per] db'].
Qed.

(** X23: every button sent out by /new works.  In a store that satisfies
    the constraints, each notification new_campaign_handler attempts goes
    to a registered user other than the sender and carries the "mark"
    keyboard of the new campaign; and, provided [int] reads back the
    numeral of the new campaign key, the recipient pressing that button
    (at any later instant [now2]) is answered "Статус обновлён." and has
    a membership row of the new campaign that is paid, stamped [now2]. *)
Theorem new_campaign_buttons_work FINANCIERS py_int strip today delivered
    from_user_id args now db uid text kb :
  store_ok db →
  py_int (py_str (campaigns_id_seq db + 1)) = Some (campaigns_id_seq db + 1) →
  let '(res, db') :=
    new_campaign_handler FINANCIERS py_int strip today delivered from_user_id args now db in
  (uid, text, kb) ∈ NewCampaignResult.notifications res →
  uid ≠ from_user_id
  ∧ uid ∈ User.id <$> users db
  ∧ kb = payment_kb (campaigns_id_seq db + 1) false
  ∧ ∀ row b now2, row ∈ kb → b ∈ row →
      let '(reply, db2) :=
        handle_payment_callback py_int (InlineKeyboardButton.callback_data b) uid now2 db' in
      CallbackReply.answer reply = "Статус обновлён."%string
      ∧ ∃ cm, scalar (select_campaign_member (campaigns_id_seq db + 1) uid db2) = Some cm
              ∧ CampaignMember.has_paid cm = true
              ∧ CampaignMember.paid_at cm = Some now2.
Proof.
  intros (Hwf & Hrefs & _) Hint. rewrite new_campaign_handler_eq.
  destruct (negb (is_financier FINANCIERS from_user_id));
    [cbv beta iota zeta; by intros ?%elem_of_nil|].
  destruct (negb (truthy _)); [cbv beta iota zeta; by intros ?%elem_of_nil|]. cbv zeta.
  destruct (py_int (default EmptyString
              (split_first " "%char (strip (default EmptyString args)) !! 0%nat)))
    as [total|]; [|cbv beta iota zeta; by intros ?%elem_of_nil].
  set (title := match _ !! 1%nat with Some _ => _ | None => _ end).
  pose proof (create_campaign_select_member title total from_user_id now db uid Hwf Hrefs)
    as Hsel.
  rewrite create_campaign_eq in *. cbv beta iota zeta in *.
  set (user_ids := filter _ (merge_sort _ _)) in *.
  set (db' := mkDB _ _ _ _ _) in *.
  cbn [NewCampaignResult.notifications Campaign.id] in *.
  intros (uid' & Heq & Huid)%list_elem_of_fmap. simplify_eq.
  assert (uid' ≠ from_user_id ∧ uid' ∈ User.id <$> users db) as [Hne Hreg].
  { unfold user_ids in Huid. apply list_elem_of_filter in Huid as [? Huid].
    by rewrite (merge_sort_Permutation Z.le) in Huid. }
  repeat split; try done.
  intros row b now2 Hrow Hb. rewrite payment_kb_data in Hrow.
  apply list_elem_of_singleton in Hrow as ->.
  apply list_elem_of_singleton in Hb as ->.
  cbn [InlineKeyboardButton.callback_data].
  destruct (Hsel Huid) as [cm Hcm].
  destruct (handle_payment_callback_mark py_int _ uid' now2 db' cm Hint Hcm)
    as (db2 & -> & Hget).
  split; [done|]. eexists. split; [apply Hget|done].
Qed.

Lemma new_campaign_buttons_work_witness :
  let kb := [[InlineKeyboardButton.mk "✅ Я перевёл" "pay:1:mark"]] in
  let text := "📢 Новый сбор: <b>Trip</b>." +:+ nl +:+ "Ваша доля: 100₽." +:+ nl
              +:+ "Пожалуйста, нажмите кнопку, когда переведёте сумму." in
  store_ok roster4
  ∧ decimal_int (py_str (campaigns_id_seq roster4 + 1)) = Some (campaigns_id_seq roster4 + 1)
  ∧ let '(res, db') :=
      new_campaign_handler [1] decimal_int (λ s, s) "2026-01-01" (λ _ _, true)
        1 (Some "300 Trip"%string) 20 roster4 in
    (3, text, kb) ∈ NewCampaignResult.notifications res →
    3 ≠ 1
    ∧ 3 ∈ User.id <$> users roster4
    ∧ kb = payment_kb (campaigns_id_seq roster4 + 1) false
    ∧ ∀ row b now2, row ∈ kb → b ∈ row →
        let '(reply, db2) :=
          handle_payment_callback decimal_int (InlineKeyboardButton.callback_data b)
            3 now2 db' in
        CallbackReply.answer reply = "Статус обновлён."%string
        ∧ ∃ cm, scalar (select_campaign_member (campaigns_id_seq roster4 + 1) 3 db2)
                = Some cm
                ∧ CampaignMember.has_paid cm = true
                ∧ CampaignMember.paid_at cm = Some now2.
Proof.
  intros kb text.
  assert (store_ok roster4) as Hok by (apply (bool_decide_unpack _); vm_compute; exact I).
  assert (decimal_int (py_str (campaigns_id_seq roster4 + 1))
          = Some (campaigns_id_seq roster4 + 1)) as Hint by (vm_compute; reflexivity).
  split; [done|]. split; [done|].
  apply (new_campaign_buttons_work [1] decimal_int (λ s, s) "2026-01-01" (λ _ _, true)
           1 (Some "300 Trip"%string) 20 roster4 3 text kb Hok Hint).
Defined.

Example new_campaign_notifies_participant :
  (3, "📢 Новый сбор: <b>Trip</b>." +:+ nl +:+ "Ваша доля: 100₽." +:+ nl
      +:+ "Пожалуйста, нажмите кнопку, когда переведёте сумму.",
   [[InlineKeyboardButton.mk "✅ Я перевёл" "pay:1:mark"]])
  ∈ NewCampaignResult.notifications
      (new_campaign_handler [1] decimal_int (λ s, s) "2026-01-01" (λ _ _, true)
         1 (Some "300 Trip"%string) 20 roster4).1.
Proof. vm_compute. right. left. Qed.

(** X24: when /new creates nothing.  If the sender is not in FINANCIERS,
    or the stripped arguments are empty, or [int] rejects the first word,
    new_campaign_handler sends exactly one answer, notifies nobody and
    leaves the store exactly as it was. *)
Theorem new_campaign_handler_rejects FINANCIERS py_int strip today delivered
    from_user_id args now db :
  from_user_id ∉ FINANCIERS
  ∨ strip (default EmptyString args) = EmptyString
  ∨ py_int (default EmptyString
              (split_first " "%char (strip (default EmptyString args)) !! 0%nat)) = None →
  let '(res, db') :=
    new_campaign_handler FINANCIERS py_int strip today delivered from_user_id args now db in
  db' = db
  ∧ NewCampaignResult.notifications res = []
  ∧ length (NewCampaignResult.answers res) = 1%nat.
Proof.
  intros H. rewrite new_campaign_handler_eq.
  destruct (is_financier FINANCIERS from_user_id) eqn:Hfin; cbn [negb]; [|done].
  apply is_financier_elem in Hfin.
  destruct (truthy (Some (strip (default EmptyString args)))) eqn:Hargs;
    cbn [negb]; [|done].
  apply truthy_Some_nonempty in Hargs. cbv zeta.
  destruct H as [?|[?|H]]; [done|done|]. by rewrite H.
Qed.

Lemma new_campaign_handler_rejects_witness :
  (2 ∉ [1]
   ∨ (λ s : string, s) (default EmptyString (Some "300 Trip"%string)) = EmptyString
   ∨ decimal_int (default EmptyString
        (split_first " "%char
           ((λ s : string, s) (default EmptyString (Some "300 Trip"%string))) !! 0%nat))
     = None)
  ∧ let '(res, db') :=
      new_campaign_handler [1] decimal_int (λ s, s) "2026-01-01" (λ _ _, true)
        2 (Some "300 Trip"%string) 20 roster4 in
    db' = roster4
    ∧ NewCampaignResult.notifications res = []
    ∧ length (NewCampaignResult.answers res) = 1%nat.
Proof.
  assert (2 ∉ [1]) as Hnot by (apply (bool_decide_unpack _); vm_compute; exact I).
  split; [by left|].
  apply (new_campaign_handler_rejects [1] decimal_int (λ s, s) "2026-01-01"
           (λ _ _, true) 2 (Some "300 Trip"%string) 20 roster4).
  by left.
Defined.

(** ** The dashboard *)

(** X25: the amount reported as still to be collected is covered by the
    shares still unpaid.  In a store that satisfies the constraints, for
    a stored campaign with a non-negative total and at least one member,
    dashboard_remain on the paid count of campaign_stats is between 0 and
    unpaid_count × per_user_amount, and it is 0 once every member has
    paid. *)
Theorem dashboard_remain_covered db camp :
  store_ok db → camp ∈ campaigns db → 0 ≤ Campaign.total_amount camp →
  let '(total, paid_count, unpaid_count) := (campaign_stats (Campaign.id camp) db).1 in
  0 < total →
  0 ≤ dashboard_remain camp paid_count
  ∧ dashboard_remain camp paid_count ≤ unpaid_count * Campaign.per_user_amount camp
  ∧ (unpaid_count = 0 → dashboard_remain camp paid_count = 0).
Proof.
  intros (_ & _ & HS) Hc Hnonneg.
  unfold db_shares in HS. rewrite Forall_forall in HS. specialize (HS camp Hc).
  cbv zeta in HS. rewrite campaign_stats_eq. cbn [fst].
  set (total := Z.of_nat (length (members_of (Campaign.id camp) db))) in *.
  set (paid := Z.of_nat (length (filter _ (campaign_members db)))).
  intros Htotal. unfold dashboard_remain.
  assert (0 ≤ paid ≤ total) as Hpaid.
  { unfold paid, total. rewrite paid_members_of.
    pose proof (length_filter (λ m, CampaignMember.has_paid m = true)
                  (members_of (Campaign.id camp) db)). lia. }
  replace (Z.max total 1) with total in HS by lia.
  pose proof (Z.mul_div_le (Campaign.total_amount camp + total - 1) total ltac:(lia)).
  pose proof (Z.mul_succ_div_gt (Campaign.total_amount camp + total - 1) total
                ltac:(lia)).
  rewrite <- HS in *.
  assert (0 ≤ Campaign.per_user_amount camp) by nia.
  repeat split; nia.
Qed.

Lemma dashboard_remain_covered_witness :
  let camp := Campaign.mk 1 "Trip" 300 100 1 true 20 in
  store_ok one_paid ∧ camp ∈ campaigns one_paid ∧ 0 ≤ Campaign.total_amount camp
  ∧ let '(total, paid_count, unpaid_count) := (campaign_stats (Campaign.id camp) one_paid).1 in
    0 < total →
    0 ≤ dashboard_remain camp paid_count
    ∧ dashboard_remain camp paid_count ≤ unpaid_count * Campaign.per_user_amount camp
    ∧ (unpaid_count = 0 → dashboard_remain camp paid_count = 0).
Proof.
  intros camp.
  assert (store_ok one_paid) as Hok by (apply (bool_decide_unpack _); vm_compute; exact I).
  assert (camp ∈ campaigns one_paid) as Hc
    by (apply (bool_decide_unpack _); vm_compute; exact I).
  assert (0 ≤ Campaign.total_amount camp) as Hnn by (vm_compute; discriminate).
  split; [done|]. split; [done|]. split; [done|].
  apply (dashboard_remain_covered one_paid camp Hok Hc Hnn).
Defined.

Lemma range_step_count (n size : nat) :
  (0 < size)%nat → (0 < n)%nat →
  ((n + size - 1) / size = S ((n - size + size - 1) / size))%nat.
Proof.
  intros Hsize Hn.
  replace (n + size - 1)%nat with ((n - 1) + 1 * size)%nat by lia.
  rewrite Nat.div_add by lia.
  destruct (decide (n ≤ size)%nat).
  - rewrite !Nat.div_small by lia. lia.
  - replace (n - size + size - 1)%nat with (n - 1)%nat by lia. lia.
Qed.

Lemma chunks_nil {A} (size : nat) : (0 < size)%nat → chunks size ([] : list A) = [].
Proof.
  intros Hsize. unfold chunks, range_step. simpl.
  by rewrite Nat.div_small by lia.
Qed.

Lemma chunks_cons {A} (size : nat) (l : list A) :
  (0 < size)%nat → l ≠ [] →
  chunks size l = take size l :: chunks size (drop size l).
Proof.
  intros Hsize Hl. unfold chunks, range_step.
  assert (0 < length l)%nat as Hlen by (destruct l; [done|simpl; lia]).
  rewrite (range_step_count (length l) size) by done.
  rewrite length_drop. cbn [seq fmap list_fmap]. f_equal.
  rewrite <- fmap_S_seq, <- !list_fmap_compose.
  apply list_fmap_ext. intros i k _. simpl.
  rewrite drop_drop. do 2 f_equal; lia.
Qed.

(** X26: sending a list in chunks loses nothing.  For a positive chunk
    size, the slices [lines[i : i + size]] for i in range(0, len, size)
    concatenate back to the list, none is empty or longer than the size,
    and there are ceil(len / size) of them (none for an empty list). *)
Theorem chunks_partition {A} (size : nat) (lines : list A) :
  (0 < size)%nat →
  concat (chunks size lines) = lines
  ∧ Forall (λ chunk, 0 < length chunk ≤ size)%nat (chunks size lines)
  ∧ length (chunks size lines) = ((length lines + size - 1) / size)%nat.
Proof.
  intros Hsize. split; [|split].
  - remember (length lines) as n eqn:Hn. revert lines Hn.
    induction n as [n IH] using lt_wf_ind. intros lines Hn.
    destruct (decide (lines = [])) as [->|Hne]; [by rewrite chunks_nil|].
    rewrite chunks_cons by done. simpl.
    rewrite (IH (length (drop size lines))); [apply take_drop| |done].
    rewrite length_drop. destruct lines; [done|]. simpl in *. lia.
  - remember (length lines) as n eqn:Hn. revert lines Hn.
    induction n as [n IH] using lt_wf_ind. intros lines Hn.
    destruct (decide (lines = [])) as [->|Hne]; [rewrite chunks_nil by done; constructor|].
    rewrite chunks_cons by done. constructor.
    + rewrite length_take. destruct lines; [done|]. simpl. lia.
    + apply (IH (length (drop size lines))); [|done].
      rewrite length_drop. destruct lines; [done|]. simpl in *. lia.
  - unfold chunks, range_step. by rewrite !length_fmap, length_seq.
Qed.

Lemma chunks_partition_witness :
  (0 < 2)%nat
  ∧ concat (chunks 2 [1; 2; 3; 4; 5]) = [1; 2; 3; 4; 5]
  ∧ Forall (λ chunk, 0 < length chunk ≤ 2)%nat (chunks 2 [1; 2; 3; 4; 5])
  ∧ length (chunks 2 [1; 2; 3; 4; 5]) = ((length [1; 2; 3; 4; 5] + 2 - 1) / 2)%nat.
Proof. split; [lia|]. apply (chunks_partition 2 [1; 2; 3; 4; 5]). lia. Defined.

(** ** Configuration *)

Lemma py_str_no_comma z : occurs ","%char (py_str z) = false.
Proof.
  assert (∀ d, occurs ","%char (NilEmpty.string_of_uint d) = false) as He
    by (induction d; simpl; done).
  assert (∀ d, occurs ","%char (NilZero.string_of_uint d) = false) as Hu
    by (intros d; destruct d; try done; apply He).
  unfold py_str. destruct (Z.to_int z) as [d|d]; simpl; apply Hu.
Qed.

Lemma py_str_nonempty z : py_str z ≠ EmptyString.
Proof.
  unfold py_str. destruct (Z.to_int z) as [d|d]; simpl; [|done].
  by destruct d.
Qed.

Lemma split_on_concat_py_str (ids : list Z) :
  ids ≠ [] →
  split_on ","%char (String.concat "," (py_str <$> ids)) = py_str <$> ids.
Proof.
  induction ids as [|z ids IH]; [done|]. intros _.
  destruct ids as [|z' ids].
  - simpl. apply split_on_absent, py_str_no_comma.
  - change (String.concat "," (py_str <$> z :: z' :: ids))
      with (py_str z +:+ String ","%char (String.concat "," (py_str <$> z' :: ids))).
    rewrite split_on_app by apply py_str_no_comma.
    by rewrite IH.
Qed.

(** X27: the configured list is read back.  When the variable holds the
    decimal numerals of a list of identifiers joined by commas, and
    [strip] leaves that text and [int] reads each numeral back,
    _parse_financiers returns exactly that list, in order; for the empty
    list (an empty variable) it returns the empty list. *)
Theorem parse_financiers_reads_back py_int strip (ids : list Z) :
  strip (String.concat "," (py_str <$> ids)) = String.concat "," (py_str <$> ids) →
  Forall (λ z, strip (py_str z) = py_str z ∧ py_int (py_str z) = Some z) ids →
  _parse_financiers py_int strip (Some (String.concat "," (py_str <$> ids))) = ids.
Proof.
  intros Hraw Hids. unfold _parse_financiers. cbn [from_option]. unfold id.
  rewrite Hraw. cbv zeta.
  destruct (decide (ids = [])) as [->|Hne]; [done|].
  assert (truthy (Some (String.concat "," (py_str <$> ids))) = true) as ->.
  { apply truthy_Some_nonempty. destruct ids as [|z [|z' ids]]; [done| |].
    - apply py_str_nonempty.
    - simpl. intros H. destruct (py_str z) eqn:E; [by apply py_str_nonempty in E|done]. }
  cbn [negb]. rewrite split_on_concat_py_str by done.
  assert (∀ out, foldl (λ out part,
                          let part := strip part in
                          if negb (truthy (Some part)) then out
                          else match py_int part with
                               | Some n => out ++ [n]
                               | None => out
                               end) out (py_str <$> ids) = out ++ ids) as Hfold.
  { clear Hraw Hne. induction Hids as [|z ids [Hs Hi] _ IH]; intros out.
    - by rewrite app_nil_r.
    - rewrite fmap_cons. cbn [foldl]. cbv zeta. rewrite Hs, Hi.
      assert (truthy (Some (py_str z)) = true) as ->
        by apply truthy_Some_nonempty, py_str_nonempty.
      cbn [negb]. rewrite IH. by rewrite <- app_assoc. }
  apply (Hfold []).
Qed.

Lemma parse_financiers_reads_back_witness :
  (λ s : string, s) (String.concat "," (py_str <$> [123456789; 987654321]))
  = String.concat "," (py_str <$> [123456789; 987654321])
  ∧ Forall (λ z, (λ s : string, s) (py_str z) = py_str z
                 ∧ decimal_int (py_str z) = Some z) [123456789; 987654321]
  ∧ _parse_financiers decimal_int (λ s, s)
      (Some (String.concat "," (py_str <$> [123456789; 987654321])))
    = [123456789; 987654321].
Proof.
  assert (Forall (λ z, (λ s : string, s) (py_str z) = py_str z
                       ∧ decimal_int (py_str z) = Some z) [123456789; 987654321]) as Hids
    by (repeat constructor; vm_compute; reflexivity).
  split; [reflexivity|]. split; [done|].
  by apply (parse_financiers_reads_back decimal_int (λ s, s) [123456789; 987654321]).
Defined.

(** The example of the module's documentation, and malformed entries. *)
Example parse_financiers_examples :
  _parse_financiers decimal_int (λ s, s) (Some "123456789,987654321"%string)
  = [123456789; 987654321]
  ∧ _parse_financiers decimal_int (λ s, s) (Some "12,,x,-5"%string) = [12; -5]
  ∧ _parse_financiers decimal_int (λ s, s) None = [].
Proof. repeat split; vm_compute; reflexivity. Qed.

(** ** The dashboard messages *)

Lemma dashboard_send_list_length {A B} (g : A → B) (f : list B → string)
    (one : string) (ids : list A) :
  length (match ids with
          | [] => [one]
          | _ => f <$> chunks 50 (g <$> ids)
          end) = Nat.max 1 ((length ids + 49) / 50)%nat.
Proof.
  destruct ids as [|x ids]; [done|].
  rewrite length_fmap.
  unfold chunks, range_step. rewrite !length_fmap, length_seq.
  replace (length (x :: ids) + 50 - 1)%nat with (length (x :: ids) + 49)%nat by lia.
  assert (1 ≤ (length (x :: ids) + 49) / 50)%nat; [|lia].
  apply Nat.div_le_lower_bound; simpl; lia.
Qed.

(** X28: the dashboard only reads.  dashboard_handler never changes the
    store; a sender outside FINANCIERS gets the single answer
    "Недоступно."; a financier gets "Активного сбора нет." when no
    campaign is active, and otherwise the summary followed by the paid
    and the unpaid list, each sent in max(1, ceil(n / 50)) messages. *)
Theorem dashboard_handler_messages FINANCIERS from_user_id db :
  let '(messages, db') := dashboard_handler FINANCIERS from_user_id db in
  db' = db
  ∧ (from_user_id ∉ FINANCIERS → messages = ["Недоступно."%string])
  ∧ (from_user_id ∈ FINANCIERS →
     match (get_active_campaign db).1 with
     | None => messages = ["Активного сбора нет."%string]
     | Some camp =>
         let '(paid_ids, unpaid_ids) := (list_paid_unpaid (Campaign.id camp) db).1 in
         length messages
         = (1 + Nat.max 1 ((length paid_ids + 49) / 50)
            + Nat.max 1 ((length unpaid_ids + 49) / 50))%nat
     end).
Proof.
  unfold dashboard_handler.
  destruct (is_financier FINANCIERS from_user_id) eqn:Hfin; cbn [negb]; session.
  - apply is_financier_elem in Hfin.
    rewrite get_active_campaign_eq. cbn [fst].
    destruct (head (merge_sort id_desc (active_campaigns db))) as [camp|].
    + rewrite campaign_stats_eq, list_paid_unpaid_eq.
      unfold get_all_users, query. cbn [fst].
      split; [done|]. split; [done|]. intros _.
      rewrite !length_app, !dashboard_send_list_length. cbn [length]. lia.
    + by repeat split.
  - assert (from_user_id ∉ FINANCIERS) as Hnot.
    { intros H%is_financier_elem. by rewrite H in Hfin. }
    by repeat split.
Qed.

(** ** Reading the active campaign and the roster *)

(** X29: get_active_campaign returns exactly the newest active campaign.
    With unique campaign keys it returns [c] if and only if [c] is a
    stored campaign that is active and no active campaign has a greater
    identifier; it returns none if and only if no stored campaign is
    active; and it leaves the store as it was. *)
Theorem get_active_campaign_is_newest db :
  db_wf db →
  (get_active_campaign db).2 = db
  ∧ ((get_active_campaign db).1 = None ↔
     ∀ r, r ∈ campaigns db → Campaign.is_active r = false)
  ∧ ∀ c, (get_active_campaign db).1 = Some c ↔
         (c ∈ campaigns db ∧ Campaign.is_active c = true
          ∧ ∀ r, r ∈ campaigns db → Campaign.is_active r = true →
                 Campaign.id r ≤ Campaign.id c).
Proof.
  intros Hwf. split; [done|]. split.
  - rewrite get_active_campaign_None. unfold active_campaigns. split.
    + intros H r Hr. destruct (Campaign.is_active r) eqn:Hra; [|done].
      assert (r ∈ filter (λ c, Campaign.is_active c = true) (campaigns db)) as Hin
        by (by apply list_elem_of_filter).
      rewrite H in Hin. inversion Hin.
    + intros H. apply filter_none. rewrite Forall_forall.
      intros r Hr. by rewrite (H r Hr).
  - intros c. split; [apply get_active_campaign_Some|].
    intros (Hc & Hca & Hmax).
    assert (get_active_campaign db = (Some c, db)) as ->; [|done].
    apply get_active_campaign_newest; try done.
    intros r Hr Hra Hne. specialize (Hmax r Hr Hra).
    assert (Campaign.id r ≠ Campaign.id c)
      by (intros Hid; apply Hne; by apply (campaign_key_eq db)).
    lia.
Qed.

Lemma get_active_campaign_is_newest_witness :
  db_wf two_active
  ∧ (get_active_campaign two_active).2 = two_active
  ∧ ((get_active_campaign two_active).1 = None ↔
     ∀ r, r ∈ campaigns two_active → Campaign.is_active r = false)
  ∧ ∀ c, (get_active_campaign two_active).1 = Some c ↔
         (c ∈ campaigns two_active ∧ Campaign.is_active c = true
          ∧ ∀ r, r ∈ campaigns two_active → Campaign.is_active r = true →
                 Campaign.id r ≤ Campaign.id c).
Proof.
  assert (db_wf two_active) as Hwf by (apply (bool_decide_unpack _); vm_compute; exact I).
  split; [done|]. apply (get_active_campaign_is_newest two_active Hwf).
Defined.

(** X30: list_user_ids returns every registered identifier exactly once,
    in strictly ascending order, and get_all_users returns every user row
    exactly once, ordered by creation time; both leave the store as it
    was.  (Identifiers are unique in the users table.) *)
Theorem roster_listings db :
  db_wf db →
  let '(ids, db1) := list_user_ids db in
  let '(all_users, db2) := get_all_users db in
  db1 = db ∧ db2 = db
  ∧ StronglySorted Z.lt ids
  ∧ (∀ uid, uid ∈ ids ↔ ∃ u, u ∈ users db ∧ User.id u = uid)
  ∧ length ids = length (users db)
  ∧ all_users ≡ₚ users db
  ∧ StronglySorted created_at_asc all_users.
Proof.
  intros (HU & _).
  assert (Total created_at_asc) as Htot
    by (intros a b; unfold created_at_asc; lia).
  assert (Transitive created_at_asc) as Htr
    by (intros a b c; unfold created_at_asc; lia).
  unfold get_all_users, query. rewrite list_user_ids_eq.
  split; [done|]. split; [done|]. split.
  { pose proof (StronglySorted_merge_sort Z.le (User.id <$> users db)) as HS.
    assert (NoDup (merge_sort Z.le (User.id <$> users db))) as HN
      by (by rewrite (merge_sort_Permutation Z.le)).
    induction HS as [|x l Hl IH Hx]; [constructor|].
    apply NoDup_cons in HN as [Hnx HN]. constructor; [by apply IH|].
    rewrite Forall_forall in Hx |- *. intros y Hy.
    specialize (Hx y Hy). assert (x ≠ y) by (intros ->; done). lia. }
  split.
  { intros uid. rewrite (merge_sort_Permutation Z.le), list_elem_of_fmap.
    split; intros (u & H1 & H2); exists u; by split. }
  split.
  { by rewrite (Permutation_length (merge_sort_Permutation Z.le _)), length_fmap. }
  split; [apply merge_sort_Permutation|].
  by apply (StronglySorted_merge_sort created_at_asc).
Qed.

Lemma roster_listings_witness :
  db_wf roster4
  ∧ let '(ids, db1) := list_user_ids roster4 in
    let '(all_users, db2) := get_all_users roster4 in
    db1 = roster4 ∧ db2 = roster4
    ∧ StronglySorted Z.lt ids
    ∧ (∀ uid, uid ∈ ids ↔ ∃ u, u ∈ users roster4 ∧ User.id u = uid)
    ∧ length ids = length (users roster4)
    ∧ all_users ≡ₚ users roster4
    ∧ StronglySorted created_at_asc all_users.
Proof.
  assert (db_wf roster4) as Hwf by (apply (bool_decide_unpack _); vm_compute; exact I).
  split; [done|]. apply (roster_listings roster4 Hwf).
Defined.
